(** * A shallow embedding of the tastypie-extensions API layer

    The development follows the layout of the Python package [api]:
    - [Py]         the Python values, exceptions and builtins the code relies on;
    - [Paginator]  [api/paginator.py];
    - [Fields]     [api/fields.py];
    - [Forms]      [api/forms.py];
    - [Utils]      [api/utils.py];
    - [Generic]    [api/resources/generic.py].

    Methods that mutate [self] or raise are written in a state-and-exception
    monad; collaborators that live outside the package (the ORM, the form
    framework's regular expressions, the time-zone database, the HTML parser)
    are section variables. *)

From Stdlib Require Import ZArith List String Ascii Bool Lia.
From stdpp Require Import base option gmap strings list pretty.

Set Warnings "-register-all".

Local Open Scope string_scope.
Local Open Scope list_scope.

(** ** Python values, exceptions and builtins *)
Module Py.

(** The values that travel in [bundle.data], in [request.GET] and in a
    form's [cleaned_data]. A dehydrated related resource is a nested
    bundle, of which only the data mapping matters here. *)
Inductive value :=
| VNone
| VBool (b : bool)
| VInt (n : Z)
| VStr (s : string)
| VList (l : list value)
| VBundle (d : gmap string value).

(** Python's truth value: [None], [False], [0], the empty string and the
    empty list are false; a Bundle instance is always true. *)
Definition truthy (v : value) : bool :=
  match v with
  | VNone => false
  | VBool b => b
  | VInt n => negb (n =? 0)%Z
  | VStr s => negb (String.eqb s "")
  | VList l => match l with [] => false | _ => true end
  | VBundle _ => true
  end.

(** [d.get(k)] followed by a truth test. *)
Definition get_truthy (d : gmap string value) (k : string) : bool :=
  match d !! k with Some v => truthy v | None => false end.

Inductive response_class :=
| HttpBadRequest | HttpUnauthorized | HttpForbidden | HttpNotFound | HttpGone.

(** The two payloads of the error format: [{'error_message': m}] and
    [{'errors': {field: [messages]}}]. *)
Inductive payload :=
| ErrorMessage (m : string)
| Errors (e : gmap string (list string)).

Inductive exn :=
| ImmediateHttpResponse (cls : response_class) (body : payload)
| ValidationError (messages : list string)
| ValueError (arg : string)
| Http404
| Http410
| Unauthorized
| AttributeError
| TypeError
| IndexError
| OverflowError.

Inductive outcome (A : Type) :=
| Return (a : A)
| Raise (e : exn).
Arguments Return {A} a.
Arguments Raise {A} e.

(** The immediate response that carries [{'error_message': m}]. *)
Definition refused (c : response_class) (m : string) : exn :=
  ImmediateHttpResponse c (ErrorMessage m).

(** Methods of an object with mutable attributes: the state is threaded,
    and survives an exception as it was when the exception was raised. *)
Definition M (S A : Type) : Type := S → outcome A * S.

#[global] Instance M_ret {S} : MRet (M S) := λ A a s, (Return a, s).
#[global] Instance M_bind {S} : MBind (M S) := λ A B k m s,
  match m s with
  | (Return a, s') => k a s'
  | (Raise e, s') => (Raise e, s')
  end.

Definition raise {S A} (e : exn) : M S A := λ s, (Raise e, s).
Definition get {S} : M S S := λ s, (Return s, s).
Definition modify {S} (f : S → S) : M S unit := λ s, (Return tt, f s).
Definition lift {S A} (o : outcome A) : M S A := λ s, (o, s).

(** A [for] loop whose body may raise. *)
Fixpoint for_each {S A} (l : list A) (body : A → M S unit) : M S unit :=
  match l with
  | [] => mret tt
  | x :: l' => body x;; for_each l' body
  end.

(** [l[i:j]] on a list, with Python's treatment of negative and
    out-of-range indices. *)
Definition clamp_index (len i : Z) : Z :=
  if (i <? 0)%Z then Z.max (i + len) 0 else Z.min i len.

Definition slice {A} (l : list A) (i j : Z) : list A :=
  let len := Z.of_nat (length l) in
  let lo := clamp_index len i in
  let hi := clamp_index len j in
  take (Z.to_nat (hi - lo)) (drop (Z.to_nat lo) l).

(** String methods. *)
Definition chars (s : string) : list ascii := list_ascii_of_string s.
Definition str (l : list ascii) : string := string_of_list_ascii l.

Definition startswith (s pre : string) : bool :=
  bool_decide (chars pre `prefix_of` chars s).
Definition endswith (s suf : string) : bool :=
  bool_decide (chars suf `suffix_of` chars s).

Definition mem_char (c : ascii) (cs : string) : bool :=
  bool_decide (c ∈ chars cs).

Fixpoint drop_while {A} (p : A → bool) (l : list A) : list A :=
  match l with
  | [] => []
  | x :: l' => if p x then drop_while p l' else l
  end.

(** The white space of a unicode text, among the characters below 256:
    the six of ASCII, the separators FS, GS, RS and US, the next-line
    character and the no-break space. *)
Definition is_space (c : ascii) : bool :=
  Ascii.is_space c
  || bool_decide (nat_of_ascii c ∈ [28; 29; 30; 31; 133; 160]%nat).

(** [s.lstrip(cs)], [s.rstrip(cs)] and [s.strip()]. *)
Definition lstrip (s cs : string) : string :=
  str (drop_while (λ c, mem_char c cs) (chars s)).
Definition rstrip (s cs : string) : string :=
  str (rev (drop_while (λ c, mem_char c cs) (rev (chars s)))).
Definition strip (s : string) : string :=
  str (rev (drop_while is_space (rev (drop_while is_space (chars s))))).

(** [s[n:]] and [s[:-n]] for a positive literal [n]. *)
Definition drop_prefix (n : nat) (s : string) : string := str (drop n (chars s)).
Definition drop_suffix (n : nat) (s : string) : string :=
  str (take (length (chars s) - n) (chars s)).

(** [s.split(sep)] for a one-character separator: never empty. *)
Fixpoint split_chars (sep : ascii) (cur : list ascii) (l : list ascii)
    : list string :=
  match l with
  | [] => [str (rev cur)]
  | c :: l' =>
      if Ascii.eqb c sep then str (rev cur) :: split_chars sep [] l'
      else split_chars sep (c :: cur) l'
  end.
Definition split (sep : ascii) (s : string) : list string :=
  split_chars sep [] (chars s).

(** [int(v)]: integers and booleans convert, a string is read as an
    optionally signed decimal numeral between optional blanks, anything
    else is a [TypeError]. *)
Definition digit_of (c : ascii) : option Z :=
  let n := Z.of_nat (nat_of_ascii c) in
  if ((48 <=? n) && (n <=? 57))%Z then Some (n - 48)%Z else None.

Fixpoint digits_value (acc : Z) (l : list ascii) : option Z :=
  match l with
  | [] => Some acc
  | c :: l' =>
      match digit_of c with
      | Some d => digits_value (acc * 10 + d)%Z l'
      | None => None
      end
  end.

Definition numeral (l : list ascii) : option Z :=
  match l with [] => None | _ => digits_value 0 l end.

Definition int_of_string (s : string) : option Z :=
  match chars (strip s) with
  | [] => None
  | c :: l =>
      if Ascii.eqb c "-" then Z.opp <$> numeral l
      else if Ascii.eqb c "+" then numeral l
      else numeral (c :: l)
  end.

Definition int (v : value) : outcome Z :=
  match v with
  | VInt n => Return n
  | VBool b => Return (if b then 1 else 0)%Z
  | VStr s =>
      match int_of_string s with
      | Some n => Return n
      | None => Raise (ValueError "invalid literal for int() with base 10")
      end
  | _ => Raise TypeError
  end.

(** [s.lower()], on ASCII letters. *)
Definition lower_char (c : ascii) : ascii :=
  let n := nat_of_ascii c in
  if ((65 <=? n) && (n <=? 90))%nat then ascii_of_nat (n + 32) else c.
Definition lower (s : string) : string := str (lower_char <$> chars s).

(** [sep.join(l)]. *)
Fixpoint join (sep : string) (l : list string) : string :=
  match l with
  | [] => EmptyString
  | x :: l' =>
      match l' with
      | [] => x
      | _ => x +:+ sep +:+ join sep l'
      end
  end.

End Py.

Import Py.

(** ** [api/paginator.py] *)
Module Paginator.
Section BasePaginator.
Context {A : Type}.

(** The attributes of a paginator instance that the subclass touches.
    [limit] is [None] when the constructor received no limit. *)
Record BasePaginator := {
  request_data : gmap string value;
  objects : list A;
  limit : option Z
}.

Definition set_limit (l : option Z) (self : BasePaginator) : BasePaginator :=
  {| request_data := request_data self; objects := objects self; limit := l |}.

(** The two base-class methods reached through [super]. *)
Variable super_get_limit : BasePaginator → outcome Z.
Variable super_get_count : BasePaginator → Z.

Definition get_limit : M BasePaginator Z := λ self,
  match super_get_limit self with
  | Return l => (Return l, set_limit (Some l) self)
  | Raise e => (Raise e, self)
  end.

Definition get_slice (self : BasePaginator) (limit offset : Z) : list A :=
  if (limit =? 0)%Z then []
  else Py.slice (objects self) offset (offset + limit).

Definition get_count (self : BasePaginator) : Z :=
  match limit self with
  | Some 0%Z => 0%Z
  | _ => super_get_count self
  end.

(** The pages a client reads at the offsets 0, [limit], 2 [limit], ... *)
Definition pages (self : BasePaginator) (limit : Z) (n : nat)
    : list (list A) :=
  (λ k, get_slice self limit (Z.of_nat k * limit)%Z) <$> seq 0 n.

End BasePaginator.
Arguments BasePaginator A : clear implicits.
End Paginator.

(** ** [api/fields.py] *)
Module Fields.
Local Open Scope Z_scope.

(** A naive [datetime] is kept as its count of seconds from
    0001-01-01T00:00:00 on the proleptic Gregorian time line, which is
    what [datetime] arithmetic computes with. As in Python, the values go
    from [datetime.min] to the last second of the year 9999, and
    arithmetic that leaves this range is an [OverflowError]. A fraction
    of a second, which every operation here would carry along unchanged,
    is left out. *)
Definition days_before_year (y : Z) : Z :=
  let p := y - 1 in p * 365 + p / 4 - p / 100 + p / 400.

Definition max_seconds : Z := days_before_year 10000 * 86400 - 1.

Definition in_range (count : Z) : bool :=
  (0 <=? count) && negb (max_seconds <? count).

Definition datetime : Type := { count : Z | Is_true (in_range count) }.

Definition seconds (dt : datetime) : Z := proj1_sig dt.

Definition datetime_min : datetime := exist _ 0 I.

Definition of_seconds (count : Z) : option datetime :=
  match decide (Is_true (in_range count)) with
  | left H => Some (exist _ count H)
  | right _ => None
  end.

(** [dt + timedelta(seconds=delta)]. *)
Definition add_seconds (dt : datetime) (delta : Z) : outcome datetime :=
  match of_seconds (seconds dt + delta) with
  | Some r => Return r
  | None => Raise OverflowError
  end.

Definition is_leap (y : Z) : bool :=
  ((y mod 4 =? 0) && negb (y mod 100 =? 0)) || (y mod 400 =? 0).

Definition days_before_month (y m : Z) : Z :=
  nth (Z.to_nat (m - 1))
      [0; 31; 59; 90; 120; 151; 181; 212; 243; 273; 304; 334] 0
  + (if (2 <? m) && is_leap y then 1 else 0).

Definition days_in_month (y m : Z) : Z :=
  nth (Z.to_nat (m - 1)) [31; 28; 31; 30; 31; 30; 31; 31; 30; 31; 30; 31] 0
  + (if (m =? 2) && is_leap y then 1 else 0).

(** The count of seconds of a calendar date and time of day. *)
Definition civil_seconds (y m d H Mi S : Z) : Z :=
  (days_before_year y + days_before_month y m + (d - 1)) * 86400
  + H * 3600 + Mi * 60 + S.

(** [datetime(y, m, d, H, Mi, S)]: a field out of its range is a
    [ValueError]. *)
Definition of_civil (y m d H Mi S : Z) : outcome datetime :=
  if negb ((1 <=? y) && (y <=? 9999)) then
    Raise (ValueError "year is out of range")
  else if negb ((1 <=? m) && (m <=? 12)) then
    Raise (ValueError "month must be in 1..12")
  else if negb ((1 <=? d) && (d <=? days_in_month y m)) then
    Raise (ValueError "day is out of range for month")
  else if negb ((0 <=? H) && (H <=? 23)) then
    Raise (ValueError "hour must be in 0..23")
  else if negb ((0 <=? Mi) && (Mi <=? 59)) then
    Raise (ValueError "minute must be in 0..59")
  else if negb ((0 <=? S) && (S <=? 59)) then
    Raise (ValueError "second must be in 0..59")
  else
    match of_seconds (civil_seconds y m d H Mi S) with
    | Some dt => Return dt
    | None => Raise (ValueError "year is out of range")
    end.

(** The [days] and [seconds] attributes of a normalised [timedelta]. *)
Definition timedelta_days (d : Z) : Z := d / 86400.
Definition timedelta_seconds (d : Z) : Z := d mod 86400.

(** What [clean] observes of the [tzinfo] the parser attached: whether it
    compares equal to [tzlocal()], its [_offset] attribute when it has one
    (in seconds) and its UTC offset. *)
Record tzinfo := {
  equals_tzlocal : bool;
  offset_attr : option Z;
  utcoffset : Z
}.

(** [dateutil.tz.tzoffset(None, o)]. *)
Definition tzoffset (o : Z) : tzinfo :=
  {| equals_tzlocal := false; offset_attr := Some o; utcoffset := o |}.

(** [dateutil.tz.tzutc()], which the parser attaches for an offset of
    zero: its UTC offset is 0 and it has no [_offset] attribute. *)
Definition tzutc : tzinfo :=
  {| equals_tzlocal := false; offset_attr := None; utcoffset := 0 |}.

(** The cleaned value: [{'timezone': ..., 'utc_time': ...}]. *)
Record cleaned_datetime := {
  timezone : string;
  utc_time : datetime
}.

Definition invalid_error_message : string :=
  "Enter a valid ISO 8601 format time string. " +:+
  "Form is YYYY-MM-DDTHH:MM:SS+hh:mm".

Definition malformed_timezone_message : string :=
  "The timezone offset was malformed. Examples of proper timezone strings " +:+
  "are +01:30 or -06:00".

Section ISODateTimeField.

(** [timezones.zones.AMERICA_FIRST_TIMEZONE_CHOICES]: pairs of a zone name
    and its label. *)
Variable AMERICA_FIRST_TIMEZONE_CHOICES : list (string * string).

(** [pytz.timezone(name).localize(dt)]: the UTC offset, in seconds, that
    the zone attaches to the wall-clock time [dt], or the exception of
    pytz (a name it does not know; an [OverflowError] of its own
    arithmetic next to the ends of the range). *)
Variable localize : string → datetime → outcome Z.

(** [dateutil.parser.parse]: the wall-clock time and the [tzinfo] read
    from the string, or the exception it raises (a [ValueError] for a
    string it cannot read). *)
Variable parse : string → outcome (datetime * option tzinfo).

Record ISODateTimeField := { required : bool }.

Fixpoint first_matching_zone (choices : list (string * string))
    (wall : datetime) (offset_of_value : Z) : outcome (option string) :=
  match choices with
  | [] => Return None
  | tz_choice :: rest =>
      match localize tz_choice.1 wall with
      | Raise e => Raise e
      | Return offset_of_zone =>
          (* both operands are aware: the difference is taken on UTC
             instants, as a [timedelta] *)
          let datetime_to_compare := seconds wall - offset_of_zone in
          let datetime_with_tz := seconds wall - offset_of_value in
          let difference := datetime_to_compare - datetime_with_tz in
          if (timedelta_seconds difference =? 0)
             && (timedelta_days difference =? 0)
          then Return (Some tz_choice.1)
          else first_matching_zone rest wall offset_of_value
      end
  end.

(** [get_timezone_string(datetime_with_tz, offset)]: the aware datetime is
    given by its wall-clock time and its UTC offset; [offset] is accepted
    and not used. *)
Definition get_timezone_string (wall : datetime) (utcoff : Z) (offset : Z)
    : outcome (option string) :=
  first_matching_zone AMERICA_FIRST_TIMEZONE_CHOICES wall utcoff.

(** [datetime_with_tz.astimezone(pytz.utc).replace(tzinfo=None)]:
    [astimezone] subtracts the UTC offset of the value from its
    wall-clock time. *)
Definition astimezone_utc (wall : datetime) (utcoff : Z) : outcome datetime :=
  add_seconds wall (- utcoff).

(** The body of [clean] under the [try]. *)
Definition clean_body (self : ISODateTimeField) (value : option string)
    : outcome (option cleaned_datetime) :=
  match value with
  | Some v =>
      if negb (String.eqb v "") then
        match parse v with
        | Raise e => Raise e
        | Return (wall, tz) =>
            let aware :=
              match tz with
              | None => Return (0, 0)
              | Some t =>
                  if equals_tzlocal t then Return (0, 0)
                  else match offset_attr t with
                       | None => Raise AttributeError
                       | Some o =>
                           Return (utcoffset t,
                                   timedelta_seconds o
                                   + timedelta_days o * 24 * 60 * 60)
                       end
              end in
            match aware with
            | Raise e => Raise e
            | Return (utcoff, offset_in_seconds) =>
                match get_timezone_string wall utcoff offset_in_seconds with
                | Raise e => Raise e
                | Return None =>
                    Raise (ValidationError [malformed_timezone_message])
                | Return (Some timezone_string) =>
                    if String.eqb timezone_string "" then
                      Raise (ValidationError [malformed_timezone_message])
                    else
                      match astimezone_utc wall utcoff with
                      | Raise e => Raise e
                      | Return native_datetime_in_utc =>
                          Return (Some {| timezone := timezone_string;
                                          utc_time := native_datetime_in_utc |})
                      end
                end
            end
        end
      else if required self
           then Raise (ValidationError ["This field is required"])
           else Return None
  | None =>
      if required self
      then Raise (ValidationError ["This field is required"])
      else Return None
  end.

(** [clean]: a [ValueError] from the body becomes a validation error. *)
Definition clean (self : ISODateTimeField) (value : option string)
    : outcome (option cleaned_datetime) :=
  match clean_body self value with
  | Raise (ValueError a) =>
      Raise (ValidationError [a +:+ ". " +:+ invalid_error_message])
  | r => r
  end.

End ISODateTimeField.

(** *** [ListField] *)
Section ListField.

Record ListField := {
  regex_string : string;
  list_required : bool;
  max_length : option Z
}.

(** [forms.RegexField.clean] for the pattern built by [__init__] from
    [regex_string]: the stripped text, the empty string for an empty value
    of an optional field, or a [ValidationError]. *)
Variable regex_field_clean : ListField → value → outcome string.

Definition _string_to_list (s : string) : option (list string) :=
  if negb (String.eqb s "") then
    let strings := Py.split "," (Py.rstrip (Py.lstrip s "[") "]") in
    if negb (String.eqb (hd "" strings) "")
    then Some (Py.strip <$> strings)
    else Some []
  else None.

Definition ListField_clean (self : ListField) (v : value) : outcome value :=
  match regex_field_clean self v with
  | Raise e => Raise e
  | Return cleaned_value =>
      match _string_to_list cleaned_value with
      | None => Return VNone
      | Some cleaned_list => Return (VList (VStr <$> cleaned_list))
      end
  end.

(** *** [IntegerListField]

    The constructor fixes the pattern of one element to [\d+] and pops
    [max_items] from the keyword arguments. *)
Record IntegerListField := {
  list_field : ListField;
  max_items : option Z
}.

Definition IntegerListField_init (max_items : option Z) (required : bool)
    (max_length : option Z) : IntegerListField :=
  {| list_field := {| regex_string := "\d+"; list_required := required;
                      max_length := max_length |};
     max_items := max_items |}.

Definition too_many_message (max_items : Z) : string :=
  "Too many elements supplied to the list. The max number for this " +:+
  "list is " +:+ pretty max_items.

(** [[int(x) for x in cleaned_list]]: the first conversion that fails
    ends the comprehension. *)
Fixpoint ints (cleaned_list : list value) : outcome (list value) :=
  match cleaned_list with
  | [] => Return []
  | x :: rest =>
      match Py.int x with
      | Raise e => Raise e
      | Return n =>
          match ints rest with
          | Raise e => Raise e
          | Return r => Return (VInt n :: r)
          end
      end
  end.

(** [IntegerListField.clean]: [max_items] counts only when it is true,
    that is, neither [None] nor 0. *)
Definition IntegerListField_clean (self : IntegerListField) (v : value)
    : outcome value :=
  match ListField_clean (list_field self) v with
  | Raise e => Raise e
  | Return VNone => Return VNone
  | Return (VList cleaned_list) =>
      let converted :=
        match ints cleaned_list with
        | Raise e => Raise e
        | Return l => Return (VList l)
        end in
      match max_items self with
      | Some m =>
          if negb (m =? 0) && (m <? Z.of_nat (length cleaned_list))
          then Raise (ValidationError [too_many_message m])
          else converted
      | None => converted
      end
  | Return _ => Raise TypeError
  end.

End ListField.
End Fields.

(** ** [api/forms.py] *)
Module Forms.
Local Open Scope Z_scope.

(** A bound form: the submitted data, the flag popped by
    [BaseForm.__init__], and the two mappings [full_clean] fills. *)
Record BaseForm := {
  data : gmap string value;
  ignore_limit : bool;
  cleaned_data : gmap string value;
  errors : gmap string (list string)
}.

Definition set_cleaned_data (c : gmap string value) (self : BaseForm) :=
  {| data := data self; ignore_limit := ignore_limit self;
     cleaned_data := c; errors := errors self |}.
Definition set_errors (e : gmap string (list string)) (self : BaseForm) :=
  {| data := data self; ignore_limit := ignore_limit self;
     cleaned_data := cleaned_data self; errors := e |}.

(** [BaseForm.__init__]: [ignore_limit] is popped from the keyword
    arguments and defaults to [False]. *)
Definition BaseForm_init (data : gmap string value)
    (kw_ignore_limit : option bool) : BaseForm :=
  {| data := data; ignore_limit := default false kw_ignore_limit;
     cleaned_data := ∅; errors := ∅ |}.

(** A form class: its fields in declaration order with their [clean], its
    [clean] method and [Meta.defaults]. *)
Record FormClass := {
  base_fields : list (string * (value → outcome value));
  clean_method : BaseForm → outcome (gmap string value);
  defaults : list (string * value)
}.

Definition NON_FIELD_ERRORS : string := "__all__".

(** [BaseForm._post_clean]. *)
Definition _post_clean (defaults : list (string * value)) (self : BaseForm)
    : BaseForm :=
  foldl (λ self d,
           match cleaned_data self !! d.1 with
           | Some v =>
               if negb (truthy v)
               then set_cleaned_data (<[d.1 := d.2]> (cleaned_data self)) self
               else self
           | None => self
           end) self defaults.

(** The form framework's [full_clean]: every field is cleaned and its
    error recorded, then [clean] runs and its [ValidationError] is recorded
    under [__all__], then [_post_clean]. *)
Definition _clean_fields (cls : FormClass) (self : BaseForm) : outcome BaseForm :=
  foldl (λ acc fld,
           match acc with
           | Raise e => Raise e
           | Return self =>
               match fld.2 (default VNone (data self !! fld.1)) with
               | Return v =>
                   Return (set_cleaned_data (<[fld.1 := v]> (cleaned_data self)) self)
               | Raise (ValidationError m) =>
                   Return (set_errors (<[fld.1 := m]> (errors self))
                             (set_cleaned_data (delete fld.1 (cleaned_data self)) self))
               | Raise e => Raise e
               end
           end) (Return self) (base_fields cls).

Definition _clean_form (cls : FormClass) (self : BaseForm) : outcome BaseForm :=
  match clean_method cls self with
  | Return c => Return (set_cleaned_data c self)
  | Raise (ValidationError m) =>
      Return (set_errors (<[NON_FIELD_ERRORS := m]> (errors self)) self)
  | Raise e => Raise e
  end.

Definition full_clean (cls : FormClass) (self : BaseForm) : outcome BaseForm :=
  match _clean_fields cls self with
  | Raise e => Raise e
  | Return self =>
      match _clean_form cls self with
      | Raise e => Raise e
      | Return self => Return (_post_clean (defaults cls) self)
      end
  end.

(** [form.is_valid()] on a cleaned form. *)
Definition is_valid (self : BaseForm) : bool := bool_decide (errors self = ∅).

(** [forms.Form.clean]: the default. *)
Definition Form_clean (self : BaseForm) : outcome (gmap string value) :=
  Return (cleaned_data self).

Section Forms.

(** [settings.GET_LIMIT_MAX]. *)
Variable GET_LIMIT_MAX : Z.

Variable regex_field_clean : Fields.ListField → value → outcome string.

Definition regex : string := "[a-z_0-9-]+".

Definition limit_message : string :=
  "The requested limit is above the maximum of " +:+ pretty GET_LIMIT_MAX +:+ ".".

(** [BaseModelResourceListForm.clean]: the bare [except] swallows whatever
    [int] raises. *)
Definition BaseModelResourceListForm_clean (self : BaseForm)
    : outcome (gmap string value) :=
  match Py.int (default VNone (data self !! "limit")) with
  | Raise _ => Return (cleaned_data self)
  | Return limit =>
      if (limit >? GET_LIMIT_MAX) && negb (ignore_limit self)
      then Raise (ValidationError [limit_message])
      else Return (cleaned_data self)
  end.

Definition list_field : Fields.ListField :=
  {| Fields.regex_string := regex; Fields.list_required := false;
     Fields.max_length := Some 5000 |}.

Definition BaseModelResourceForm : FormClass :=
  {| base_fields := [("fields", Fields.ListField_clean regex_field_clean list_field)];
     clean_method := Form_clean;
     defaults := [] |}.

Definition BaseModelResourceListForm : FormClass :=
  {| base_fields :=
       [("fields", Fields.ListField_clean regex_field_clean list_field);
        ("order_by", Fields.ListField_clean regex_field_clean list_field)];
     clean_method := BaseModelResourceListForm_clean;
     defaults := [] |}.

End Forms.
End Forms.

(** ** [api/utils.py] *)
Module Utils.

(** *** The parameters of [access_resource]

    A parameter of a local call is a text, a number, or a list of
    these. *)
Inductive atom :=
| AInt (n : Z)
| AStr (s : string).

Inductive param :=
| PAtom (a : atom)
| PList (l : list atom).

(** [str(x)]. *)
Definition str_of (a : atom) : string :=
  match a with
  | AInt n => pretty n
  | AStr s => s
  end.

(** ["[{0}]".format(','.join(value))]. *)
Definition list_parameter (value : list string) : string :=
  "[" +:+ Py.join "," value +:+ "]".

(** The first step of [access_resource]: a missing parameter dict is the
    empty one, and every list among the parameters is turned into a
    text. *)
Definition stringify_params (params : option (gmap string param))
    : gmap string atom :=
  (λ value,
     match value with
     | PList l => AStr (list_parameter (str_of <$> l))
     | PAtom a => a
     end) <$> default ∅ params.

(** The parse tree of the HTML parser: text (and whatever else is not a
    tag) and tags with their attribute list and contents. *)
Inductive node :=
| Text (s : string)
| Tag (name : string) (attrs : list (string * string)) (contents : list node).

(** Induction on parse trees, with the hypothesis on every tag of the
    contents. *)
Fixpoint node_nested_ind (P : node → Prop)
    (HText : ∀ s, P (Text s))
    (HTag : ∀ name attrs contents,
        Forall P contents → P (Tag name attrs contents))
    (n : node) : P n :=
  match n with
  | Text s => HText s
  | Tag name attrs contents =>
      HTag name attrs contents
        ((fix go (l : list node) : Forall P l :=
            match l with
            | [] => @List.Forall_nil _ P
            | x :: l' =>
                @List.Forall_cons _ P x l'
                  (node_nested_ind P HText HTag x) (go l')
            end) contents)
  end.

(** [soup.findAll(True)]: every tag of the tree, in document order. *)
Fixpoint findAll (n : node) : list node :=
  match n with
  | Text _ => []
  | Tag _ _ contents => n :: flat_map findAll contents
  end.

(** [tag.name]. *)
Definition tag_name (n : node) : string :=
  match n with
  | Text _ => ""
  | Tag name _ _ => name
  end.

Definition default_acceptable_elements : list string :=
  ["p"; "h2"; "h3"; "h4"; "b"; "strong"; "i"; "u"; "ul"; "ol";
   "span"; "li"; "a"; "em"].
Definition default_acceptable_attributes : list string :=
  ["alt"; "width"; "href"; "height"; "title"; "value"; "style"].

Section clean_html.

(** [BeautifulSoup(fragment)] and [unicode(soup)]. *)
Variable parse : string → list node.
Variable render : list node → string.

Variable acceptable_elements : list string.
Variable acceptable_attributes : list string.

Definition acceptable_element (name : string) : bool :=
  bool_decide (name ∈ acceptable_elements).
Definition acceptable_attribute (a : string * string) : bool :=
  bool_decide (a.1 ∈ acceptable_attributes).

(** [removed]: [soup.findAll(True)] lists every tag of the tree, and the
    flag is raised as soon as one of them has a name outside the list. *)
Fixpoint finds_bad_tag (n : node) : bool :=
  match n with
  | Text _ => false
  | Tag name _ contents =>
      negb (acceptable_element name) || existsb finds_bad_tag contents
  end.

(** What is left of the soup after the [for] loop: a tag with a name
    outside the list is extracted with all its contents, a tag that stays
    loses the attributes outside the list. *)
Fixpoint scrub (n : node) : list node :=
  match n with
  | Text s => [Text s]
  | Tag name attrs contents =>
      if acceptable_element name
      then [Tag name (filter (λ a, acceptable_attribute a = true) attrs)
                (flat_map scrub contents)]
      else []
  end.

(** One round of the [while] loop: the flag and the new fragment. *)
Definition round (fragment : string) : bool * string :=
  let soup := parse fragment in
  (existsb finds_bad_tag soup, render (flat_map scrub soup)).

(** [clean_html]: [while True] is unrolled at most [fuel] times; [None]
    when the loop has not returned by then. *)
Fixpoint clean_html (fuel : nat) (fragment : string) : option string :=
  match fuel with
  | O => None
  | S fuel' =>
      let '(removed, fragment') := round fragment in
      if removed then clean_html fuel' fragment' else Some fragment'
  end.

(** A soup that the [for] loop leaves as it is. *)
Definition untouched (soup : list node) : Prop :=
  existsb finds_bad_tag soup = false ∧ flat_map scrub soup = soup.

(** A soup in which a pass of the [for] loop extracts a tag: one of its
    tags has a name outside the list. *)
Definition strips_a_tag (soup : list node) : Prop :=
  ∃ tag, tag ∈ flat_map findAll soup ∧ tag_name tag ∉ acceptable_elements.

(** The fragment that one pass of the loop makes of a fragment. *)
Definition pass (fragment : string) : string :=
  render (flat_map scrub (parse fragment)).

(** A tree in which every tag and every attribute is of the lists. *)
Fixpoint acceptable_tree (n : node) : bool :=
  match n with
  | Text _ => true
  | Tag name attrs contents =>
      acceptable_element name && forallb acceptable_attribute attrs
      && forallb acceptable_tree contents
  end.

End clean_html.

(** The texts of a tree, in document order. *)
Fixpoint texts (n : node) : list string :=
  match n with
  | Text s => [s]
  | Tag _ _ contents => flat_map texts contents
  end.

Definition is_text (n : node) : bool :=
  match n with Text _ => true | Tag _ _ _ => false end.

End Utils.

(** ** [api/resources/generic.py] *)
Module Generic.

(** The field classes the resource tells apart with [isinstance]. *)
Inductive field_class :=
| ApiField            (* any other tastypie field *)
| IntegerField
| BaseForeignKey
| BaseRelatedField.

#[global] Instance field_class_eq_dec : EqDecision field_class.
Proof. solve_decision. Defined.

Record field := {
  cls : field_class;
  full : bool
}.

(** What [getattr(self, name, None)] finds on a resource: a field, or
    something else with its truth value. *)
Inductive attr :=
| AttrField (c : field_class)
| AttrOther (truth : bool).

(** A queryset, as far as sorting shapes it: the columns of its model,
    the computed columns added by [extra(select=...)] and the ordering
    set by [order_by]. *)
Record QuerySet := {
  model_fields : list string;
  select : gmap string string;
  ordering : list string
}.

Definition extra (sel : gmap string string) (qs : QuerySet) : QuerySet :=
  {| model_fields := model_fields qs; select := sel ∪ select qs;
     ordering := ordering qs |}.
Definition order_by (l : list string) (qs : QuerySet) : QuerySet :=
  {| model_fields := model_fields qs; select := select qs; ordering := l |}.

(** The characters stripped from an ordering string: the apostrophe and
    the double quote. *)
Definition quotes : string :=
  String "'" (String (ascii_of_nat 34) EmptyString).

(** [re.match('[a-z_0-9]+$', s)]: one or more characters of the class,
    up to the end of [s] or to its final newline. *)
Definition simple_char (c : ascii) : bool :=
  let n := nat_of_ascii c in
  ((97 <=? n) && (n <=? 122) || (48 <=? n) && (n <=? 57) || (n =? 95))%nat.

Definition simple_mapping (s : string) : bool :=
  let l := Py.chars s in
  let core := match rev l with
              | c :: r => if Ascii.eqb c (ascii_of_nat 10) then rev r else l
              | [] => l
              end in
  match core with [] => false | _ => forallb simple_char core end.

Section Resource.

(** ** Collaborators *)
Context {Obj User World : Type}.

(** The methods of a trackable object and of a user that the resource
    calls. *)
Variable has_view_perm : Obj → User → bool.
Variable is_hidden : Obj → bool.
Variable is_removed : Obj → bool.
Variable getattr : Obj → string → option value.
Variable is_authenticated : User → bool.

Record Request := {
  user : User;
  REQUEST_METHOD : string
}.

(** [object.<action>(request)]: a domain action, which may change the
    world and may raise. *)
Variable perform : string → Obj → Request → World → outcome (option Obj) * World.

(** [queryset.get_from_id(id, select_related=...)]. *)
Variable get_from_id : World → value → outcome (option Obj).

(** [settings.BASE_API_URL]. *)
Variable BASE_API_URL : string.

(** [api.utils.clean_html(fragment, acceptable_elements,
    acceptable_attributes)], see [Utils]. *)
Variable clean_html : list string → list string → value → outcome value.

Record Bundle := {
  obj : option Obj;
  data : gmap string value
}.

Definition set_data (d : gmap string value) (b : Bundle) : Bundle :=
  {| obj := obj b; data := d |}.
Definition set_obj (o : option Obj) (b : Bundle) : Bundle :=
  {| obj := o; data := data b |}.
Definition empty_bundle : Bundle := {| obj := None; data := ∅ |}.

(** [field_object.dehydrate(bundle)] for the fields of [self.fields],
    given the name the field is declared under. *)
Variable field_dehydrate : string → field → Bundle → outcome value.

(** [ModelResource.full_hydrate]. *)
Variable full_hydrate : Bundle → World → outcome Bundle * World.

(** ** The resource class: what [Meta], the declared fields and the
    methods of a subclass fix once and for all. *)
Record Resource := {
  fields : list (string * field);
  declared_fields : list (string * field);
  Meta_fields : list string;
  dont_escape : list string;
  maps_to : gmap string string;
  num_resource_ids : Z;
  attribute : string → option attr;
  dehydrate_method : string → option (Bundle → outcome value);
  get_validation_form : option Forms.FormClass;
  list_validation_form : option Forms.FormClass;
  update_validation_form : option Forms.FormClass;
  create_validation_form : option Forms.FormClass
}.

(** ** The resource instance: the attributes the methods assign, the list
    [Meta.api_uri_keys] (extended in place), the world the domain actions
    act on, and the ghost list of the field dehydrations performed (most
    recent first). *)
Record Self := {
  request : Request;
  request_type : string;
  method : string;
  request_kwargs : gmap string value;
  bundle : Bundle;
  ignore_fields : option (list string);
  locally_accessed : bool;
  api_uri_keys : list string;
  world : World;
  calls : list (string * field_class)
}.

Definition set_method (m : string) (s : Self) : Self :=
  {| request := request s; request_type := request_type s; method := m;
     request_kwargs := request_kwargs s; bundle := bundle s;
     ignore_fields := ignore_fields s; locally_accessed := locally_accessed s;
     api_uri_keys := api_uri_keys s; world := world s; calls := calls s |}.
Definition set_bundle (b : Bundle) (s : Self) : Self :=
  {| request := request s; request_type := request_type s; method := method s;
     request_kwargs := request_kwargs s; bundle := b;
     ignore_fields := ignore_fields s; locally_accessed := locally_accessed s;
     api_uri_keys := api_uri_keys s; world := world s; calls := calls s |}.
Definition set_ignore_fields (l : option (list string)) (s : Self) : Self :=
  {| request := request s; request_type := request_type s; method := method s;
     request_kwargs := request_kwargs s; bundle := bundle s;
     ignore_fields := l; locally_accessed := locally_accessed s;
     api_uri_keys := api_uri_keys s; world := world s; calls := calls s |}.
Definition set_api_uri_keys (l : list string) (s : Self) : Self :=
  {| request := request s; request_type := request_type s; method := method s;
     request_kwargs := request_kwargs s; bundle := bundle s;
     ignore_fields := ignore_fields s; locally_accessed := locally_accessed s;
     api_uri_keys := l; world := world s; calls := calls s |}.
Definition set_world (w : World) (s : Self) : Self :=
  {| request := request s; request_type := request_type s; method := method s;
     request_kwargs := request_kwargs s; bundle := bundle s;
     ignore_fields := ignore_fields s; locally_accessed := locally_accessed s;
     api_uri_keys := api_uri_keys s; world := w; calls := calls s |}.
Definition set_calls (l : list (string * field_class)) (s : Self) : Self :=
  {| request := request s; request_type := request_type s; method := method s;
     request_kwargs := request_kwargs s; bundle := bundle s;
     ignore_fields := ignore_fields s; locally_accessed := locally_accessed s;
     api_uri_keys := api_uri_keys s; world := world s; calls := l |}.

Variable R : Resource.

(** [raise_error]: [create_response] stores the error mapping on
    [self.bundle] before the response is raised. *)
Definition raise_error {A} (response_message : string)
    (response_class : response_class) : M Self A :=
  Py.modify (λ s, set_bundle
               (set_data {[ "error_message" := VStr response_message ]} (bundle s)) s);;
  Py.raise (refused response_class response_message).

(** The state in which [raise_error] leaves the resource. *)
Definition after_error (m : string) (s : Self) : Self :=
  set_bundle (set_data {[ "error_message" := VStr m ]} (bundle s)) s.

(** *** URI formatting *)

(** What [_format_uri] makes of the value under one of its keys. *)
Definition prefixed (base_url : string) (v : value) : value :=
  match v with
  | VStr t =>
      if truthy v then VStr (base_url +:+ "/" +:+ Py.lstrip t "/") else v
  | _ => v
  end.

(** [_format_uri]: a value that is true and has no [lstrip] raises. *)
Fixpoint _format_uri (object_data : gmap string value) (keys : list string)
    (base_url : string) : outcome (gmap string value) :=
  match keys with
  | [] => Return object_data
  | key :: keys' =>
      if Py.get_truthy object_data key then
        match object_data !! key with
        | Some (VStr s) =>
            _format_uri
              (<[key := VStr (base_url +:+ "/" +:+ Py.lstrip s "/")]> object_data)
              keys' base_url
        | _ => Raise AttributeError
        end
      else _format_uri object_data keys' base_url
  end.

(** The keys that [keys += [...]] appends. *)
Definition new_uri_keys (object_data : gmap string value) (keys : list string)
    : list string :=
  filter (λ x, Py.endswith x "_uri" = true ∧ x ∉ keys)
         (map_to_list object_data).*1.

(** [_format_api_uri]: every caller passes [self._meta.api_uri_keys], and
    [+=] extends that very list. *)
Definition _format_api_uri (object_data : gmap string value)
    : M Self (gmap string value) :=
  s ← Py.get;
  let keys := api_uri_keys s ++ new_uri_keys object_data (api_uri_keys s) in
  Py.modify (set_api_uri_keys keys);;
  Py.lift (_format_uri object_data keys BASE_API_URL).

(** *** Identifier fields *)

(** [self.fields.get(key)]. *)
Definition fields_get (key : string) : option field :=
  snd <$> List.find (λ p, String.eqb p.1 key) (fields R).

Definition is_relation (f : option field) : bool :=
  match f with
  | Some f =>
      match cls f with
      | BaseForeignKey | BaseRelatedField => true
      | _ => false
      end
  | None => false
  end.

Fixpoint _format_id_fields_loop (keys : list string)
    (object_data : gmap string value) : gmap string value :=
  match keys with
  | [] => object_data
  | key :: keys' =>
      _format_id_fields_loop keys'
        match object_data !! key with
        | Some (VBundle d) =>
            <[key +:+ "_id" := default VNone (d !! "id")]> object_data
        | _ =>
            if is_relation (fields_get key)
            then <[key +:+ "_id" := VNone]> object_data
            else object_data
        end
  end.

Definition _format_id_fields (object_data : gmap string value)
    : gmap string value :=
  _format_id_fields_loop (map_to_list object_data).*1 object_data.

(** *** Escaping *)
Fixpoint _escape_fields_loop (keys : list string) (html_fields : list string)
    (object_data : gmap string value) : outcome (gmap string value) :=
  match keys with
  | [] => Return object_data
  | key :: keys' =>
      if bool_decide (key ∈ dont_escape R) then
        _escape_fields_loop keys' html_fields object_data
      else if bool_decide (key ∈ html_fields) then
        match clean_html Utils.default_acceptable_elements
                Utils.default_acceptable_attributes
                (default VNone (object_data !! key)) with
        | Return v => _escape_fields_loop keys' html_fields (<[key := v]> object_data)
        | Raise e => Raise e
        end
      else
        match object_data !! key with
        | Some (VStr s) =>
            match clean_html [] Utils.default_acceptable_attributes (VStr s) with
            | Return v =>
                _escape_fields_loop keys' html_fields (<[key := v]> object_data)
            | Raise e => Raise e
            end
        | _ => _escape_fields_loop keys' html_fields object_data
        end
  end.

Definition _escape_fields (object_data : gmap string value)
    (html_fields : list string) : outcome (gmap string value) :=
  _escape_fields_loop (map_to_list object_data).*1 html_fields object_data.

(** What [_escape_fields] makes of the value under a key. *)
Definition escaped (html_fields : list string) (key : string) (v : value)
    : outcome value :=
  if bool_decide (key ∈ dont_escape R) then Return v
  else if bool_decide (key ∈ html_fields) then
    clean_html Utils.default_acceptable_elements
      Utils.default_acceptable_attributes v
  else
    match v with
    | VStr _ => clean_html [] Utils.default_acceptable_attributes v
    | _ => Return v
    end.

(** [dehydrate]: the three passes over the data of the bundle. *)
Definition dehydrate (bundle : Bundle) : M Self Bundle :=
  object_data ← _format_api_uri (data bundle);
  let object_data := _format_id_fields object_data in
  object_data ← Py.lift (_escape_fields object_data ["info"]);
  mret (set_data object_data bundle).

(** *** Field projection *)

Definition permanent_fields : list string := ["resource_uri"].

Definition id_fields : list string :=
  (λ p, p.1 +:+ "_id") <$>
    filter (λ p, cls p.2 = BaseForeignKey) (declared_fields R ++ fields R).

Definition initial_fields : list string :=
  (fields R).*1 ++ (declared_fields R).*1 ++ Meta_fields R ++ id_fields.

Definition valid_fields : list string := initial_fields ++ permanent_fields.

Definition invalid_field_message (field : string) : string :=
  "Field '" +:+ field +:+ "' is not a valid field.".

Definition append_ignore_field (field : string) (s : Self) : Self :=
  set_ignore_fields (Some (default [] (ignore_fields s) ++ [field])) s.

(** [filter_fields(fields)]: [fields] is [None] or the cleaned list. *)
Definition filter_fields (requested : option (list string)) : M Self unit :=
  Py.modify (set_ignore_fields (Some []));;
  match requested with
  | Some ((_ :: _) as requested) =>
      Py.for_each requested (λ field,
        if bool_decide (field ∈ valid_fields) then mret tt
        else raise_error (invalid_field_message field) HttpBadRequest);;
      Py.for_each initial_fields (λ field,
        if bool_decide (field ∉ requested)
           && bool_decide (field ∉ permanent_fields)
        then Py.modify (append_ignore_field field)
        else mret tt)
  | _ => mret tt
  end.

(** *** Full dehydration *)

(** A value that is not a text. *)
Definition not_text (o : option value) : Prop :=
  match o with Some (VStr _) => False | _ => True end.

(** [fields.IntegerField(attribute, null=True).dehydrate(bundle)]: the
    attribute of the object, converted with [int] unless it is [None]. *)
Definition IntegerField_dehydrate (attribute : string) (bundle : Bundle)
    : outcome value :=
  match obj bundle with
  | None => Return VNone
  | Some o =>
      match getattr o attribute with
      | None | Some VNone => Return VNone
      | Some v =>
          match Py.int v with
          | Return n => Return (VInt n)
          | Raise e => Raise e
          end
      end
  end.

Definition ignored (s : Self) (field_name : string) : bool :=
  match ignore_fields s with
  | Some l => bool_decide (field_name ∈ l)
  | None => false
  end.

(** The end of the loop body: the field is dehydrated into
    [bundle.data], then the [dehydrate_<name>] method, if the resource has
    one, overrides the value. *)
Definition dehydrate_field (field_name : string) (c : field_class)
    (run : Bundle → outcome value) (bundle : Bundle) : M Self Bundle :=
  Py.modify (λ s, set_calls ((field_name, c) :: calls s) s);;
  v ← Py.lift (run bundle);
  let bundle := set_data (<[field_name := v]> (data bundle)) bundle in
  match dehydrate_method R ("dehydrate_" +:+ field_name) with
  | Some method =>
      v ← Py.lift (method bundle);
      mret (set_data (<[field_name := v]> (data bundle)) bundle)
  | None => mret bundle
  end.

Fixpoint dehydrate_fields (l : list (string * field)) (bundle : Bundle)
    : M Self Bundle :=
  match l with
  | [] => mret bundle
  | (field_name, field_object) :: l' =>
      s ← Py.get;
      bundle ←
        (if ignored s field_name then
           if bool_decide (cls field_object = BaseForeignKey) then
             let id_field := field_name +:+ "_id" in
             if ignored s id_field then mret bundle
             else dehydrate_field id_field IntegerField
                    (IntegerField_dehydrate id_field) bundle
           else mret bundle
         else dehydrate_field field_name (cls field_object)
                (field_dehydrate field_name field_object) bundle);
      dehydrate_fields l' bundle
  end.

Definition full_dehydrate (bundle : Bundle) : M Self Bundle :=
  bundle ← dehydrate_fields (fields R) bundle;
  dehydrate bundle.

(** The body of the loop of [full_dehydrate], as one state transformer. *)
Definition field_step (n : string) (fo : field) (b : Bundle) (s : Self)
    : outcome Bundle * Self :=
  if ignored s n then
    if bool_decide (cls fo = BaseForeignKey) then
      if ignored s (n +:+ "_id") then (Return b, s)
      else dehydrate_field (n +:+ "_id") IntegerField
             (IntegerField_dehydrate (n +:+ "_id")) b s
    else (Return b, s)
  else dehydrate_field n (cls fo) (field_dehydrate n fo) b s.

(** [f] is the name of a foreign key of the list. *)
Definition foreign_key_in (f : string) (l : list (string * field)) : Prop :=
  ∃ fo, (f, fo) ∈ l ∧ cls fo = BaseForeignKey.

(** *** Sorting *)

(** The values a [for] loop draws from [v]. *)
Definition iterate (v : value) : outcome (list value) :=
  match v with
  | VList l => Return l
  | VStr s => Return ((λ c, VStr (String c EmptyString)) <$> Py.chars s)
  | _ => Raise TypeError
  end.

Definition no_attribute_message (ordering_string : string) : string :=
  "The attribute '" +:+ ordering_string +:+ "' does not exist on this resource.".
Definition cannot_order_message (ordering_string : string) : string :=
  "Cannot order on '" +:+ ordering_string +:+ "'.".

Definition attribute_is_missing (a : option attr) (suffix : string) : bool :=
  negb match a with
       | Some (AttrField _) => true
       | Some (AttrOther t) => t
       | None => false
       end
  || (String.eqb suffix "_id"
      && negb match a with
              | Some (AttrField BaseForeignKey)
              | Some (AttrField BaseRelatedField) => true
              | _ => false
              end).

(** One turn of the loop over the ordering strings. *)
Definition add_ordering (obj_list : QuerySet)
    (acc : list string * gmap string string) (ordering_value : value)
    : M Self (list string * gmap string string) :=
  let '(final_ordering_list, select) := acc in
  match ordering_value with
  | VStr ordering_string =>
      let positive_ordering_string :=
        Py.rstrip (Py.lstrip ordering_string quotes) quotes in
      let '(positive_ordering_string, prefix) :=
        if Py.startswith positive_ordering_string "-"
        then (Py.drop_prefix 1 positive_ordering_string, "-")
        else (positive_ordering_string, EmptyString) in
      let '(positive_ordering_string, suffix) :=
        if Py.endswith positive_ordering_string "_id"
        then (Py.drop_suffix 3 positive_ordering_string, "_id")
        else (positive_ordering_string, EmptyString) in
      (if attribute_is_missing (attribute R positive_ordering_string) suffix
       then raise_error (no_attribute_message ordering_string) HttpBadRequest
       else mret tt);;
      match maps_to R !! positive_ordering_string with
      | Some target =>
          if simple_mapping target
          then mret (final_ordering_list ++ [prefix +:+ target], select)
          else mret (final_ordering_list
                       ++ [prefix +:+ positive_ordering_string +:+ "_for_api_ordering"],
                     <[positive_ordering_string +:+ "_for_api_ordering" := target]> select)
      | None =>
          if bool_decide (positive_ordering_string ∈ model_fields obj_list)
          then mret (final_ordering_list ++ [prefix +:+ positive_ordering_string], select)
          else raise_error (cannot_order_message ordering_string) HttpBadRequest
      end
  | _ => Py.raise AttributeError
  end.

Fixpoint add_orderings (obj_list : QuerySet)
    (acc : list string * gmap string string) (l : list value)
    : M Self (list string * gmap string string) :=
  match l with
  | [] => mret acc
  | v :: l' => acc ← add_ordering obj_list acc v; add_orderings obj_list acc l'
  end.

(** [apply_sorting]: the [options] argument is replaced at once by
    [self.bundle.data]. *)
Definition apply_sorting (obj_list : QuerySet) : M Self QuerySet :=
  s ← Py.get;
  let options := data (bundle s) in
  match options !! "order_by" with
  | None => mret obj_list
  | Some ordering_string_list =>
      acc ←
        (if truthy ordering_string_list then
           l ← Py.lift (iterate ordering_string_list);
           add_orderings obj_list ([], ∅) l
         else mret (["-id"], ∅));
      let '(final_ordering_list, select) := acc in
      let obj_list :=
        if bool_decide (select = ∅) then obj_list else extra select obj_list in
      mret (order_by final_ordering_list obj_list)
  end.

(** The ordering string without its quotes. *)
Definition unquoted (ordering_string : string) : string :=
  Py.rstrip (Py.lstrip ordering_string quotes) quotes.

(** A key of the final ordering that is descending when the ordering
    string asked for it. *)
Definition keeps_direction (ordering_value : value) (key : string) : Prop :=
  ∀ ordering_string, ordering_value = VStr ordering_string →
    Py.startswith (unquoted ordering_string) "-" = true →
    Py.startswith key "-" = true.

(** The two ways in which [apply_sorting] refuses an ordering string. *)
Definition sorting_refusal (ordering_string : string) (e : exn)
    (s s' : Self) : Prop :=
  ∃ m, (m = no_attribute_message ordering_string ∨
        m = cannot_order_message ordering_string) ∧
       e = refused HttpBadRequest m ∧ s' = after_error m s.

(** *** Lookup and authorization *)

Definition is_minus_one (v : value) : bool :=
  match v with VInt n => (n =? -1)%Z | _ => false end.

Definition invalid_id_message : string :=
  "Invalid resource lookup data provided. Please provide a valid resource_id (positive integer) that matches the id of an existing resource.".
Definition invalid_ids_message : string :=
  "Invalid resource lookup data provided. Please provide valid resource_ids (positive integers) that match the ids of existing resources.".

Definition _get_resource_ids (num : option Z) : M Self (list value) :=
  let num_resource_ids :=
    match num with
    | Some n => if (n =? 0)%Z then num_resource_ids R else n
    | None => num_resource_ids R
    end in
  s ← Py.get;
  if (num_resource_ids =? 1)%Z then
    let resource_id := default (VInt (-1)) (request_kwargs s !! "resource_id") in
    (if is_minus_one resource_id
     then raise_error invalid_id_message HttpBadRequest
     else mret tt);;
    mret [resource_id]
  else if (num_resource_ids =? 2)%Z then
    let resource_id_1 := default (VInt (-1)) (request_kwargs s !! "resource_id_1") in
    let resource_id_2 := default (VInt (-1)) (request_kwargs s !! "resource_id_2") in
    (if is_minus_one resource_id_1 || is_minus_one resource_id_2
     then raise_error invalid_ids_message HttpBadRequest
     else mret tt);;
    mret [resource_id_1; resource_id_2]
  else mret [].

(** [_get_obj_from_ids]: the lookup reads [ids[0]]. *)
Definition _get_obj_from_ids (ids : list value) (w : World)
    : outcome (option Obj) :=
  match ids with
  | id :: _ => get_from_id w id
  | [] => Raise IndexError
  end.

Definition hidden_message : string :=
  "You are not authorized to access this resource "
  +:+ "                                    "
  +:+ "because the owner has marked it as hidden.".
Definition removed_message : string :=
  "This resource has been removed and is no longer accessible.".
Definition forbidden_message : string :=
  "You are not authorized to access this resource.".
Definition not_found_message : string :=
  "A resource with this id could not be found.".
Definition already_removed_message : string :=
  "This resource has already been removed and is no longer accessible.".

(** The [try] block of [_lookup_obj]: the object to return, or the message
    and the class of the response to raise, or an exception. *)
Definition lookup_decision (ids : list value) (s : Self)
    : outcome (Obj + string * response_class) :=
  match _get_obj_from_ids ids (world s) with
  | Raise e => Raise e
  | Return None => Raise Http404
  | Return (Some object) =>
      if has_view_perm object (user (request s)) then Return (inl object)
      else if is_hidden object then Return (inr (hidden_message, HttpForbidden))
      else if is_removed object then Return (inr (removed_message, HttpGone))
      else Return (inr (forbidden_message, HttpForbidden))
  end.

(** [_lookup_obj(resource_ids=...)], on the queryset of [Meta]. *)
Definition _lookup_obj (resource_ids : list value) : M Self Obj :=
  resource_ids ←
    match resource_ids with
    | [] => _get_resource_ids None
    | _ => mret resource_ids
    end;
  s ← Py.get;
  match lookup_decision resource_ids s with
  | Return (inl object) => mret object
  | Return (inr (response_message, response_class)) =>
      Py.modify (set_bundle empty_bundle);;
      raise_error response_message response_class
  | Raise Http404 =>
      Py.modify (set_bundle empty_bundle);;
      raise_error not_found_message HttpNotFound
  | Raise Http410 =>
      Py.modify (set_bundle empty_bundle);;
      raise_error already_removed_message HttpGone
  | Raise e => Py.raise e
  end.

(** [is_authorized(request, object)]. *)
Definition is_authorized (request : Request) (object : option Obj)
    : M Self bool :=
  match object with
  | None => mret true
  | Some _ =>
      let request_method := REQUEST_METHOD request in
      if String.eqb request_method "GET" then mret true
      else if String.eqb request_method "POST"
      then mret (is_authenticated (user request))
      else if String.eqb request_method "PUT"
      then mret (is_authenticated (user request))
      else if String.eqb request_method "DELETE"
      then mret (is_authenticated (user request))
      else Py.modify (set_method request_method);; mret false
  end.

(** [object.__getattribute__(action)(self.request)]. *)
Definition call_action (action : string) (o : Obj) : M Self (option Obj) :=
  λ s, let '(r, w) := perform action o (request s) (world s) in
       (r, set_world w s).

Definition call_full_hydrate (bundle : Bundle) : M Self Bundle :=
  λ s, let '(r, w) := full_hydrate bundle (world s) in (r, set_world w s).

(** [do_if_authorized(object, action)]: falls off the end, and so returns
    [None], when the check fails. *)
Definition do_if_authorized (object : option Obj) (action : string)
    : M Self (option Obj) :=
  s ← Py.get;
  authorized ← is_authorized (request s) object;
  if authorized : bool then
    match object with
    | Some o => call_action action o
    | None => Py.raise AttributeError
    end
  else mret None.

Definition obj_delete : M Self (option Obj) :=
  obj ← _lookup_obj [];
  do_if_authorized (Some obj) "remove".

Definition not_authorized_to_edit_message : string :=
  "You are not authorized to edit this object".

Definition obj_update (bundle : Bundle) : M Self Bundle :=
  match obj bundle with
  | None => Py.raise AttributeError
  | Some _ =>
      bundle ← call_full_hydrate bundle;
      o ← do_if_authorized (obj bundle) "edit";
      let bundle := set_obj o bundle in
      match o with
      | None =>
          Py.modify (set_bundle bundle);;
          raise_error not_authorized_to_edit_message HttpUnauthorized
      | Some _ =>
          Py.modify (set_bundle bundle);;
          mret bundle
      end
  end.

(** *** Validation *)

(** The chain that chooses the validation form. *)
Definition choose_form (s : Self) : option Forms.FormClass :=
  let method := REQUEST_METHOD (request s) in
  let kind t := String.eqb (request_type s) t in
  let verb m := String.eqb method m in
  if kind "detail" && verb "GET" && bool_decide (is_Some (get_validation_form R))
  then get_validation_form R
  else if kind "list" && verb "GET" && bool_decide (is_Some (list_validation_form R))
  then list_validation_form R
  else if kind "detail" && verb "PUT" && bool_decide (is_Some (update_validation_form R))
  then update_validation_form R
  else if kind "list" && verb "POST" && bool_decide (is_Some (create_validation_form R))
  then create_validation_form R
  else None.

(** [is_valid(bundle, request)]: the bundle comes back with the cleaned
    data, or the errors are raised as a bad request. *)
Definition is_valid (bundle : Bundle) : M Self Bundle :=
  s ← Py.get;
  let method := REQUEST_METHOD (request s) in
  bundle ←
    (if String.eqb (request_type s) "detail"
        && (String.eqb method "PUT" || String.eqb method "DELETE")
     then
       resource_ids ← _get_resource_ids None;
       let bundle :=
         match resource_ids with
         | [id] => set_data (<["id" := id]> (data bundle)) bundle
         | _ => bundle
         end in
       o ← _lookup_obj [];
       mret (set_obj (Some o) bundle)
     else mret bundle);
  s ← Py.get;
  let kw_ignore_limit := if locally_accessed s then Some true else None in
  match choose_form s with
  | Some form_class =>
      form ← Py.lift (Forms.full_clean form_class
                        (Forms.BaseForm_init (data bundle) kw_ignore_limit));
      if Forms.is_valid form
      then mret (set_data (Forms.cleaned_data form) bundle)
      else Py.raise (ImmediateHttpResponse HttpBadRequest
                       (Errors (Forms.errors form)))
  | None => mret bundle
  end.

(** *** Creation *)

(** [object.is_live()], and the object after [object.id = None]. *)
Variable is_live : Obj → bool.
Variable without_id : Obj → Obj.

(** [obj_create]: the hydrated object loses its identifier and is
    submitted according to its status; an object that is neither live
    nor hidden is left alone. *)
Definition obj_create (bundle : Bundle) : M Self Bundle :=
  bundle ← call_full_hydrate bundle;
  match obj bundle with
  | None => Py.raise AttributeError
  | Some o =>
      let o := without_id o in
      let bundle := set_obj (Some o) bundle in
      bundle ←
        (if is_live o then
           submitted ← do_if_authorized (Some o) "submit";
           mret (set_obj submitted bundle)
         else if is_hidden o then
           submitted ← do_if_authorized (Some o) "submit_hidden";
           mret (set_obj submitted bundle)
         else mret bundle);
      Py.modify (set_bundle bundle);;
      mret bundle
  end.

(** *** Authentication *)

(** [get_acceptable_scopes(request)] reads the universal access range
    from the database; [AnonymousUser()]. *)
Context {Scope : Type}.
Variable get_acceptable_scopes : outcome (list Scope).
Variable AnonymousUser : User.

(** The method [is_authenticated(request)] of the resource. The request
    is given by its user ([None] when it has none) and by what
    [Authenticator(scope=scopes).validate(request)] does of it: it
    returns, and [authenticator.user] is the owner of the access token,
    or it raises an exception whose first argument is a message. The
    result is the value returned and the user the request has then. *)
Definition resource_is_authenticated (request_user : option User)
    (validate : list Scope → string + User) : M Self (bool * option User) :=
  let logged_in :=
    match request_user with
    | Some u => is_authenticated u
    | None => false
    end in
  if logged_in then mret (true, request_user)
  else
    scopes ← Py.lift get_acceptable_scopes;
    match validate scopes with
    | inr owner => mret (true, Some owner)
    | inl message =>
        s ← Py.get;
        if String.eqb (method s) "GET"
        then mret (true, Some AnonymousUser)
        else raise_error message HttpUnauthorized
    end.

(** *** The partial representation *)

(** [Resource.dehydrate_resource_uri(bundle)]. *)
Variable dehydrate_resource_uri : Bundle → outcome value.

(** [hasattr(bundle.obj, name)]. *)
Definition obj_hasattr (bundle : Bundle) (name : string) : bool :=
  match obj bundle with
  | Some o => bool_decide (is_Some (getattr o name))
  | None => false
  end.

(** [bundle.obj.<name>]. *)
Definition obj_attribute (bundle : Bundle) (name : string) : outcome value :=
  match obj bundle with
  | Some o =>
      match getattr o name with
      | Some v => Return v
      | None => Raise AttributeError
      end
  | None => Raise AttributeError
  end.

(** [self.dehydrate_id(bundle)]: the method of [BaseModelResource],
    unless the resource has one of its own. *)
Definition dehydrate_id (bundle : Bundle) : outcome value :=
  match dehydrate_method R "dehydrate_id" with
  | Some method => method bundle
  | None => obj_attribute bundle "id"
  end.

Definition partial_dehydrate (bundle : Bundle) : M Self Bundle :=
  v ← Py.lift (dehydrate_id bundle);
  let bundle := set_data (<["id" := v]> (data bundle)) bundle in
  v ← Py.lift (dehydrate_resource_uri bundle);
  let bundle := set_data (<["resource_uri" := v]> (data bundle)) bundle in
  bundle ←
    match dehydrate_method R "dehydrate_name" with
    | Some method =>
        v ← Py.lift (method bundle);
        mret (set_data (<["name" := v]> (data bundle)) bundle)
    | None =>
        if bool_decide (is_Some (attribute R "name"))
           && obj_hasattr bundle "name"
        then
          v ← Py.lift (obj_attribute bundle "name");
          mret (set_data (<["name" := v]> (data bundle)) bundle)
        else mret bundle
    end;
  bundle ←
    (if bool_decide (is_Some (attribute R "short_name"))
        && obj_hasattr bundle "short_name"
     then
       v ← Py.lift (obj_attribute bundle "short_name");
       mret (set_data (<["short_name" := v]> (data bundle)) bundle)
     else mret bundle);
  dehydrate bundle.

Definition set_request (r : Request) (s : Self) : Self :=
  {| request := r; request_type := request_type s; method := method s;
     request_kwargs := request_kwargs s; bundle := bundle s;
     ignore_fields := ignore_fields s; locally_accessed := locally_accessed s;
     api_uri_keys := api_uri_keys s; world := world s; calls := calls s |}.

(** [api.fields._dehydrate_related(bundle, related_resource, full)], as a
    method of the related resource: [bundle_request] is the request of
    the bundle of the referring resource, [instance] the attribute
    [related_resource.instance]. *)
Definition _dehydrate_related (bundle_request : Request)
    (instance : option Obj) (full : bool) : M Self (option Bundle) :=
  match instance with
  | None => mret None
  | Some o =>
      Py.modify (set_request bundle_request);;
      let bundle := {| obj := Some o; data := ∅ |} in
      if negb full
      then b ← partial_dehydrate bundle; mret (Some b)
      else b ← full_dehydrate bundle; mret (Some b)
  end.

End Resource.

(** *** The fields a resource inherits

    [BaseModelResource.__init__] walks the classes of the method
    resolution order, the class itself first, and copies into the
    [base_fields] of the class every field of a class that has
    [base_fields] and that the class does not have yet. *)
Definition inherit_from {F : Type} (own base_fields : gmap string F)
    : gmap string F :=
  foldl (λ own p, match own !! p.1 with
                  | Some _ => own
                  | None => <[p.1 := p.2]> own
                  end)
        own (map_to_list base_fields).

Definition inherit_base_fields {F : Type} (own : gmap string F)
    (parent_classes : list (option (gmap string F))) : gmap string F :=
  foldl (λ own parent,
           match parent with
           | Some base_fields => inherit_from own base_fields
           | None => own
           end) own parent_classes.

(** The field that the first class of a list to have one has under a
    name. *)
Fixpoint first_field {F : Type} (name : string)
    (classes : list (option (gmap string F))) : option F :=
  match classes with
  | [] => None
  | class :: rest =>
      match class ≫= (λ base_fields, base_fields !! name) with
      | Some f => Some f
      | None => first_field name rest
      end
  end.

End Generic.

(** ** [api/middleware.py] *)
Module Middleware.

(** The three constants of the module, which are read from the project
    settings, and the values that the [except] branch gives them when
    the settings cannot be read. *)
Record Sharing := {
  XS_SHARING_ALLOWED_ORIGINS : string;
  XS_SHARING_ALLOWED_METHODS : list string;
  XS_SHARING_ALLOWED_HEADERS : list string
}.

Definition default_sharing : Sharing :=
  {| XS_SHARING_ALLOWED_ORIGINS := "*";
     XS_SHARING_ALLOWED_METHODS := ["POST"; "GET"; "OPTIONS"; "PUT"; "DELETE"];
     XS_SHARING_ALLOWED_HEADERS :=
       ["Origin"; "Content-Type"; "Accept"; "Authorization"] |}.

Section CrossDomainSharingMiddleware.
Context {User Content : Type}.

(** The request attributes the middleware reads and writes; [subdomain]
    is [None] when the request has no such attribute. *)
Record HttpRequest := {
  subdomain : option string;
  META : gmap string string;
  user : option User;
  COOKIES : gmap string string
}.

(** A response: its headers, kept as the framework keeps them, under
    the lower-case name, with the name as it was given; and the rest. *)
Record HttpResponse := {
  _headers : gmap string (string * string);
  content : Content
}.

(** [response.has_header(header)] and [response[header] = value]. *)
Definition has_header (response : HttpResponse) (header : string) : bool :=
  bool_decide (is_Some (_headers response !! Py.lower header)).

Definition set_header (header value : string) (response : HttpResponse)
    : HttpResponse :=
  {| _headers := <[Py.lower header := (header, value)]> (_headers response);
     content := content response |}.

Variable sharing : Sharing.

(** [http.HttpResponse()]. *)
Variable new_response : HttpResponse.

Definition is_api (request : HttpRequest) : bool :=
  match subdomain request with
  | Some name => String.eqb name "api"
  | None => false
  end.

Definition add_sharing_headers (response : HttpResponse) : HttpResponse :=
  set_header "Access-Control-Allow-Headers"
    (Py.join "," (XS_SHARING_ALLOWED_HEADERS sharing))
    (set_header "Access-Control-Allow-Methods"
       (Py.join "," (XS_SHARING_ALLOWED_METHODS sharing))
       (set_header "Access-Control-Allow-Origin"
          (XS_SHARING_ALLOWED_ORIGINS sharing) response)).

(** [process_request]: the response to send at once, if any, and the
    request as the middleware leaves it. *)
Definition process_request (request : HttpRequest)
    : option HttpResponse * HttpRequest :=
  if is_api request
     && bool_decide
          (is_Some (META request !! "HTTP_ACCESS_CONTROL_REQUEST_METHOD"))
  then (Some (add_sharing_headers new_response), request)
  else if is_api request
  then (None, {| subdomain := subdomain request; META := META request;
                 user := None; COOKIES := ∅ |})
  else (None, request).

Definition process_response (request : HttpRequest)
    (response : HttpResponse) : HttpResponse :=
  if has_header response "Access-Control-Allow-Origin" then response
  else if is_api request then add_sharing_headers response
  else response.

End CrossDomainSharingMiddleware.
End Middleware.

(** ** A sample deployment

    Concrete collaborators, on which the statements below are exercised:
    jobs that belong to an organization, accounts that may view them. *)
Module Sample.
Local Open Scope Z_scope.

Inductive status := live | hidden | removed.

Record job := {
  job_id : Z;
  job_status : status;
  viewers : list string;
  organization_id : option Z
}.

Record account := {
  login : string;
  authenticated : bool
}.

Definition has_view_perm (o : job) (u : account) : bool :=
  bool_decide (login u ∈ viewers o).
Definition is_hidden (o : job) : bool :=
  match job_status o with hidden => true | _ => false end.
Definition is_removed (o : job) : bool :=
  match job_status o with removed => true | _ => false end.

Definition getattr (o : job) (a : string) : option value :=
  if String.eqb a "id" then Some (VInt (job_id o))
  else if String.eqb a "organization_id"
  then Some (match organization_id o with Some n => VInt n | None => VNone end)
  else None.

(** The world is the table of jobs. *)
Definition table := list job.

Definition get_from_id (w : table) (id : value) : outcome (option job) :=
  match Py.int id with
  | Return n =>
      match List.find (λ o, job_id o =? n) w with
      | Some o => Return (Some o)
      | None => Raise Http404
      end
  | Raise _ => Raise Http404
  end.

Definition with_status (st : status) (o : job) : job :=
  {| job_id := job_id o; job_status := st; viewers := viewers o;
     organization_id := organization_id o |}.

(** [remove] marks the job removed in the table; the other actions leave
    it as it is. *)
Definition perform (action : string) (o : job)
    (r : @Generic.Request account) (w : table)
    : outcome (option job) * table :=
  if String.eqb action "remove" then
    (Return (Some (with_status removed o)),
     (λ x, if job_id x =? job_id o then with_status removed x else x) <$> w)
  else (Return (Some o), w).

Definition full_hydrate (b : @Generic.Bundle job) (w : table)
    : outcome (@Generic.Bundle job) * table := (Return b, w).

Definition alice : account := {| login := "alice"; authenticated := true |}.
Definition anonymous : account := {| login := EmptyString; authenticated := false |}.

Definition job1 : job :=
  {| job_id := 1; job_status := live; viewers := ["alice"; EmptyString];
     organization_id := Some 7 |}.
Definition job2 : job :=
  {| job_id := 2; job_status := hidden; viewers := ["alice"];
     organization_id := None |}.
Definition job3 : job :=
  {| job_id := 3; job_status := removed; viewers := ["alice"];
     organization_id := Some 7 |}.
Definition job4 : job :=
  {| job_id := 4; job_status := removed; viewers := [];
     organization_id := Some 7 |}.
Definition job5 : job :=
  {| job_id := 5; job_status := live; viewers := ["alice"];
     organization_id := Some 7 |}.

Definition jobs : table := [job1; job2; job3; job4; job5].

Definition foreign_key : Generic.field :=
  {| Generic.cls := Generic.BaseForeignKey; Generic.full := false |}.
Definition plain : Generic.field :=
  {| Generic.cls := Generic.ApiField; Generic.full := false |}.

(** [getattr(self, name, None)] on the job resource. *)
Definition job_attribute (name : string) : option Generic.attr :=
  if String.eqb name "organization" then Some (Generic.AttrField Generic.BaseForeignKey)
  else if String.eqb name "id" then Some (Generic.AttrField Generic.ApiField)
  else if String.eqb name "title" then Some (Generic.AttrField Generic.ApiField)
  else if String.eqb name "locally_accessed" then Some (Generic.AttrOther false)
  else None.

Definition job_resource (list_form : option Forms.FormClass)
    : @Generic.Resource job :=
  {| Generic.fields :=
       [("id", plain); ("title", plain); ("organization", foreign_key);
        ("resource_uri", plain)];
     Generic.declared_fields :=
       [("title", plain); ("organization", foreign_key)];
     Generic.Meta_fields := ["id"];
     Generic.dont_escape := [];
     Generic.maps_to := ∅;
     Generic.num_resource_ids := 1;
     Generic.attribute := job_attribute;
     Generic.dehydrate_method := λ name,
       if String.eqb name "dehydrate_id"
       then Some (λ b, Return (default VNone
                                 (o ← Generic.obj b; getattr o "id")))
       else None;
     Generic.get_validation_form := None;
     Generic.list_validation_form := list_form;
     Generic.update_validation_form := None;
     Generic.create_validation_form := None |}.

(** A request of [who] with verb [verb] on the job [id] (or on the list
    when there is none), carrying [params]. *)
Definition self_on (who : account) (verb type : string) (id : option Z)
    (params : gmap string value) (local : bool)
    : @Generic.Self job account table :=
  {| Generic.request :=
       {| Generic.user := who; Generic.REQUEST_METHOD := verb |};
     Generic.request_type := type;
     Generic.method := verb;
     Generic.request_kwargs :=
       match id with
       | Some n => {[ "resource_id" := VInt n ]}
       | None => ∅
       end;
     Generic.bundle := {| Generic.obj := None; Generic.data := params |};
     Generic.ignore_fields := None;
     Generic.locally_accessed := local;
     Generic.api_uri_keys := ["resource_uri"; "next"; "previous"];
     Generic.world := jobs;
     Generic.calls := [] |}.


(** The base paginator reads the limit from the request, 20 by default. *)
Definition requested_limit (p : Paginator.BasePaginator Z) : outcome Z :=
  Py.int (default (VInt 20) (Paginator.request_data p !! "limit")).

Definition page_request : Paginator.BasePaginator Z :=
  {| Paginator.request_data := {[ "limit" := VStr "0" ]};
     Paginator.objects := [10; 20; 30];
     Paginator.limit := Some 100 |}.

(** A table of zones with the offsets of the year 2023: daylight saving
    time runs from March 12th to November 5th, 2 o'clock. *)
Definition zones : list (string * string) :=
  [("US/Eastern", "Eastern"); ("US/Central", "Central");
   ("US/Mountain", "Mountain"); ("US/Pacific", "Pacific"); ("UTC", "UTC")].

Definition summer (wall : Fields.datetime) : bool :=
  (Fields.civil_seconds 2023 3 12 2 0 0 <=? Fields.seconds wall)
  && (Fields.seconds wall <? Fields.civil_seconds 2023 11 5 2 0 0).

Definition offset_at (name : string) (wall : Fields.datetime) : Z :=
  let standard :=
    if String.eqb name "US/Eastern" then -5
    else if String.eqb name "US/Central" then -6
    else if String.eqb name "US/Mountain" then -7
    else if String.eqb name "US/Pacific" then -8
    else 0 in
  if String.eqb name "UTC" then 0
  else (standard + (if summer wall then 1 else 0)) * 3600.

Definition localize (name : string) (wall : Fields.datetime) : outcome Z :=
  Return (offset_at name wall).

(** The datetime of a calendar date and time of day ([datetime.min] when
    there is none). *)
Definition moment (y m d H Mi S : Z) : Fields.datetime :=
  match Fields.of_civil y m d H Mi S with
  | Return dt => dt
  | Raise _ => Fields.datetime_min
  end.

(** A reader of the form YYYY-MM-DDTHH:MM:SS+hh:mm. As
    [dateutil.parser.parse] does, it attaches [tzutc()] for an offset of
    zero and a [tzoffset] for any other. *)
Definition digits_at (s : string) (start len : nat) : option Z :=
  Py.numeral (Py.chars (substring start len s)).

Definition parse_iso (s : string)
    : outcome (Fields.datetime * option Fields.tzinfo) :=
  match digits_at s 0 4, digits_at s 5 2, digits_at s 8 2, digits_at s 11 2,
        digits_at s 14 2, digits_at s 17 2, digits_at s 20 2, digits_at s 23 2
  with
  | Some y, Some m, Some d, Some H, Some Mi, Some Se, Some oh, Some om =>
      let sign := if String.eqb (substring 19 1 s) "-" then -1 else 1 in
      let offset := sign * (oh * 3600 + om * 60) in
      match Fields.of_civil y m d H Mi Se with
      | Raise e => Raise e
      | Return wall =>
          Return (wall,
                  Some (if offset =? 0 then Fields.tzutc
                        else Fields.tzoffset offset))
      end
  | _, _, _, _, _, _, _, _ => Raise (ValueError "unknown string format")
  end.

(** A job is live, hidden or removed; one that is not saved yet has the
    identifier 0. *)
Definition is_live (o : job) : bool :=
  match job_status o with live => true | _ => false end.
Definition without_id (o : job) : job :=
  {| job_id := 0; job_status := job_status o; viewers := viewers o;
     organization_id := organization_id o |}.

(** The URI of a job, as the URL configuration reverses it. *)
Definition resource_uri (b : @Generic.Bundle job) : outcome value :=
  match Generic.obj b with
  | Some o => Return (VStr ("/jobs/" +:+ pretty (job_id o) +:+ "/"))
  | None => Return (VStr EmptyString)
  end.

(** A reader of the form YYYY-MM-DDTHH:MM:SS, which attaches no zone. *)
Definition parse_naive (s : string)
    : outcome (Fields.datetime * option Fields.tzinfo) :=
  match parse_iso (s +:+ "+00:00") with
  | Return (wall, _) => Return (wall, None)
  | Raise e => Raise e
  end.

(** The ceiling of the page size, and a regular-expression field that
    accepts every text. *)
Definition GET_LIMIT_MAX : Z := 200.

Definition accept_all (f : Fields.ListField) (v : value) : outcome string :=
  match v with
  | VStr s => Return (Py.strip s)
  | _ => Return EmptyString
  end.

Definition list_form : Forms.FormClass :=
  Forms.BaseModelResourceListForm GET_LIMIT_MAX accept_all.

(** A serializer of parse trees, a parser that reads every text as one
    text node, and a parser that knows the markup of two fragments. *)
Fixpoint render_node (n : Utils.node) : string :=
  match n with
  | Utils.Text t => t
  | Utils.Tag name attrs contents =>
      "<" +:+ name
      +:+ fold_right (λ a acc, " " +:+ a.1 +:+ "='" +:+ a.2 +:+ "'" +:+ acc)
            EmptyString attrs
      +:+ ">"
      +:+ fold_right (λ c acc, render_node c +:+ acc) EmptyString contents
      +:+ "</" +:+ name +:+ ">"
  end.

Definition render (soup : list Utils.node) : string :=
  fold_right (λ c acc, render_node c +:+ acc) EmptyString soup.

Definition parse_text (fragment : string) : list Utils.node :=
  [Utils.Text fragment].

Definition parse_known (fragment : string) : list Utils.node :=
  if String.eqb fragment "<b class='x'>Plumber</b><script>track()</script>"
  then [Utils.Tag "b" [("class", "x")] [Utils.Text "Plumber"];
        Utils.Tag "script" [] [Utils.Text "track()"]]
  else if String.eqb fragment "<b>Plumber</b>"
  then [Utils.Tag "b" [] [Utils.Text "Plumber"]]
  else [Utils.Text fragment].

(** A parser that finds a tag inside what looks like the opening of
    another. *)
Definition parse_nested (fragment : string) : list Utils.node :=
  if String.eqb fragment "<scr<script></script>ipt>track()</script>"
  then [Utils.Text "<scr"; Utils.Tag "script" [] [];
        Utils.Text "ipt>track()</script>"]
  else if String.eqb fragment "<script>track()</script>"
  then [Utils.Tag "script" [] [Utils.Text "track()"]]
  else [Utils.Text fragment].

Definition clean_html (elements attributes : list string) (v : value)
    : outcome value :=
  match v with
  | VStr t =>
      match Utils.clean_html parse_text render elements attributes 8 t with
      | Some r => Return (VStr r)
      | None => Raise TypeError
      end
  | _ => Return v
  end.

(** The dehydration of the fields of a job; the organization is resolved
    to its partial representation. *)
Definition field_dehydrate (name : string) (fo : Generic.field)
    (b : @Generic.Bundle job) : outcome value :=
  match Generic.obj b with
  | None => Return VNone
  | Some o =>
      if String.eqb name "id" then Return (VInt (job_id o))
      else if String.eqb name "title" then Return (VStr "Plumber")
      else if String.eqb name "organization" then
        Return match organization_id o with
               | Some n =>
                   VBundle {[ "id" := VInt n;
                              "resource_uri" :=
                                VStr ("/organizations/" +:+ pretty n +:+ "/") ]}
               | None => VNone
               end
      else if String.eqb name "resource_uri"
      then Return (VStr ("/jobs/" +:+ pretty (job_id o) +:+ "/"))
      else Return VNone
  end.

End Sample.

(** * Proofs *)

(** Unfolds the monad of a method down to its state transformer. *)
Ltac run :=
  repeat (unfold mbind, M_bind, mret, M_ret, Py.get, Py.modify, Py.raise,
          Py.lift, Generic.raise_error; simpl).

Tactic Notation "run_in" hyp(H) :=
  repeat (unfold mbind, M_bind, mret, M_ret, Py.get, Py.modify, Py.raise,
          Py.lift, Generic.raise_error in H; simpl in H).

#[local] Arguments Generic.is_authorized : simpl never.
#[local] Arguments Generic._get_resource_ids : simpl never.
#[local] Arguments Generic._lookup_obj : simpl never.
#[local] Arguments Generic.lookup_decision : simpl never.


(** Splits the conjunctions of the goal, and nothing else. *)
Ltac splits := repeat match goal with |- _ ∧ _ => split end.

(** ** The paginator *)

(** C10: when the effective limit computed by [get_limit] is 0, the page
    slice is empty whatever the offset, and the count reported afterwards
    is 0, whatever the size of the collection. *)
Theorem zero_limit_empty_page {A : Type}
    (super_get_limit : Paginator.BasePaginator A → outcome Z)
    (super_get_count : Paginator.BasePaginator A → Z)
    (self self' : Paginator.BasePaginator A) (offset : Z) :
  Paginator.get_limit super_get_limit self = (Return 0%Z, self') →
  Paginator.get_slice self' 0 offset = [] ∧
  Paginator.get_count super_get_count self' = 0%Z.
Proof.
  unfold Paginator.get_limit. intros Hl.
  destruct (super_get_limit self) as [l|e]; [|discriminate].
  injection Hl as -> <-. split; reflexivity.
Qed.

Lemma zero_limit_empty_page_witness :
  let p' := Paginator.set_limit (Some 0%Z) Sample.page_request in
  Paginator.get_limit Sample.requested_limit Sample.page_request
    = (Return 0%Z, p') ∧
  Paginator.get_slice p' 0 1 = [] ∧
  Paginator.get_count (λ q, Z.of_nat (length (Paginator.objects q))) p' = 0%Z.
Proof.
  simpl. split; [reflexivity|].
  apply (zero_limit_empty_page Sample.requested_limit _ Sample.page_request).
  reflexivity.
Defined.

(** ** Lookup and authorization *)
Section Gate.
Context {Obj User World : Type}.
Variable has_view_perm : Obj → User → bool.
Variable is_hidden is_removed : Obj → bool.
Variable is_authenticated : User → bool.
Variable perform :
  string → Obj → @Generic.Request User → World → outcome (option Obj) * World.
Variable get_from_id : World → value → outcome (option Obj).
Variable full_hydrate :
  @Generic.Bundle Obj → World → outcome (@Generic.Bundle Obj) * World.
Variable R : @Generic.Resource Obj.

Abbreviation Self := (@Generic.Self Obj User World).
Abbreviation _lookup_obj :=
  (Generic._lookup_obj has_view_perm is_hidden is_removed get_from_id R).
Abbreviation obj_delete :=
  (Generic.obj_delete has_view_perm is_hidden is_removed is_authenticated
     perform get_from_id R).
Abbreviation obj_update := (Generic.obj_update is_authenticated perform full_hydrate).
Abbreviation is_authorized := (Generic.is_authorized (World:=World) is_authenticated).




(** A lookup that returns leaves the resource as it was. *)
Lemma get_resource_ids_returns (num : option Z) (s s1 : Self) (ids : list value) :
  Generic._get_resource_ids R num s = (Return ids, s1) → s1 = s.
Proof.
  unfold Generic._get_resource_ids. run.
  repeat (case_match; run); congruence.
Qed.

Lemma lookup_obj_returns (ids : list value) (s s1 : Self) (o : Obj) :
  _lookup_obj ids s = (Return o, s1) → s1 = s.
Proof.
  unfold Generic._lookup_obj. run.
  destruct ids as [|id rest].
  - destruct (Generic._get_resource_ids R None s) as [[ids|e] s0] eqn:Hids;
      [|discriminate].
    apply get_resource_ids_returns in Hids as ->.
    repeat (case_match; run); congruence.
  - run. repeat (case_match; run); congruence.
Qed.

Lemma is_authorized_world (r : @Generic.Request User) (o : option Obj)
    (s s' : Self) (b : bool) :
  is_authorized r o s = (Return b, s') → Generic.world s' = Generic.world s.
Proof.
  unfold Generic.is_authorized. run.
  repeat (case_match; run); intros [= <- <-]; reflexivity.
Qed.

(** C9: when the authorization check on the object found fails,
    [obj_delete] returns [None] without raising and without performing any
    action on the world; [obj_update], in the same situation after
    hydration, raises the unauthorized response, again without any
    action. *)
Theorem unauthorized_delete_is_silent (s : Self) :
  (∀ (o : Obj) (s1 s2 : Self),
     _lookup_obj [] s = (Return o, s1) →
     is_authorized (Generic.request s1) (Some o) s1 = (Return false, s2) →
     obj_delete s = (Return None, s2) ∧ Generic.world s2 = Generic.world s) ∧
  (∀ (bundle bundle1 : @Generic.Bundle Obj) (o1 : Obj) (s1 s2 : Self),
     Generic.obj bundle ≠ None →
     Generic.call_full_hydrate full_hydrate bundle s = (Return bundle1, s1) →
     Generic.obj bundle1 = Some o1 →
     is_authorized (Generic.request s1) (Some o1) s1 = (Return false, s2) →
     (obj_update bundle s).1 =
       Raise (refused HttpUnauthorized Generic.not_authorized_to_edit_message) ∧
     Generic.world (obj_update bundle s).2 = Generic.world s1).
Proof.
  split.
  - intros o s1 s2 Hlook Hauth.
    pose proof (lookup_obj_returns _ _ _ _ Hlook) as ->.
    pose proof (is_authorized_world _ _ _ _ _ Hauth) as Hw.
    split; [|exact Hw].
    unfold Generic.obj_delete, Generic.do_if_authorized. run.
    rewrite Hlook. run. rewrite Hauth. reflexivity.
  - intros bundle bundle1 o1 s1 s2 Hobj Hhyd Ho1 Hauth.
    pose proof (is_authorized_world _ _ _ _ _ Hauth) as Hw.
    unfold Generic.obj_update, Generic.do_if_authorized.
    destruct (Generic.obj bundle) as [o|]; [|done]. run.
    rewrite Hhyd. run. rewrite Ho1, Hauth. run. split; [reflexivity|exact Hw].
Qed.
End Gate.


(** C2: a removed job is served to a requester who holds view permission
    on it, because [_lookup_obj] tests the permission before the state of
    the object; its docstring has every object that is neither live nor a
    hidden one of the user's own end in an error. *)
Lemma removed_object_served_to_permitted_viewer :
  Sample.is_removed Sample.job3 = true ∧
  (Generic._lookup_obj Sample.has_view_perm Sample.is_hidden Sample.is_removed
     Sample.get_from_id (Sample.job_resource None) []
     (Sample.self_on Sample.alice "GET" "detail" (Some 3%Z) ∅ false)).1
  = Return Sample.job3.
Proof. split; reflexivity. Qed.

Lemma unauthorized_delete_is_silent_witness :
  let s := Sample.self_on Sample.anonymous "DELETE" "detail" (Some 1%Z) ∅ false in
  let u := Sample.self_on Sample.anonymous "PUT" "detail" (Some 1%Z) ∅ false in
  let b := {| Generic.obj := Some Sample.job1; Generic.data := ∅ |} in
  (Generic.obj_delete Sample.has_view_perm Sample.is_hidden Sample.is_removed
     Sample.authenticated Sample.perform Sample.get_from_id
     (Sample.job_resource None) s = (Return None, s) ∧
   Generic.world s = Sample.jobs) ∧
  (Generic.obj_update Sample.authenticated Sample.perform Sample.full_hydrate b u).1
    = Raise (refused HttpUnauthorized Generic.not_authorized_to_edit_message) ∧
  Generic.world
    (Generic.obj_update Sample.authenticated Sample.perform Sample.full_hydrate b u).2
    = Sample.jobs.
Proof.
  intros s u b. split.
  - apply (proj1 (unauthorized_delete_is_silent Sample.has_view_perm
             Sample.is_hidden Sample.is_removed Sample.authenticated
             Sample.perform Sample.get_from_id Sample.full_hydrate
             (Sample.job_resource None) s) Sample.job1 s s); reflexivity.
  - apply (proj2 (unauthorized_delete_is_silent Sample.has_view_perm
             Sample.is_hidden Sample.is_removed Sample.authenticated
             Sample.perform Sample.get_from_id Sample.full_hydrate
             (Sample.job_resource None) u) b b Sample.job1 u u);
      [discriminate | reflexivity..].
Defined.

(** ** The date-time field *)

(** Two datetimes with the same count of seconds are the same. *)
Lemma datetime_eq (a b : Fields.datetime) :
  Fields.seconds a = Fields.seconds b → a = b.
Proof.
  destruct a as [x Hx], b as [y Hy]. simpl. intros ->.
  f_equal. destruct (Fields.in_range y); [|destruct Hx].
  destruct Hx, Hy. reflexivity.
Qed.

Lemma datetime_in_range (dt : Fields.datetime) :
  Fields.in_range (Fields.seconds dt) = true.
Proof. destruct dt as [x Hx]. simpl. apply Is_true_eq_true, Hx. Qed.

Lemma of_seconds_Some (count : Z) (dt : Fields.datetime) :
  Fields.of_seconds count = Some dt ↔ Fields.seconds dt = count.
Proof.
  unfold Fields.of_seconds. split.
  - destruct (decide _) as [H|_]; [|discriminate]. intros [= <-]. reflexivity.
  - intros <-. destruct dt as [x Hx]. simpl.
    destruct (decide _) as [H|H]; [|contradiction].
    f_equal. apply datetime_eq. reflexivity.
Qed.

Lemma of_seconds_None (count : Z) :
  Fields.of_seconds count = None ↔ Fields.in_range count = false.
Proof.
  unfold Fields.of_seconds. destruct (decide _) as [H|H].
  - split; [discriminate|]. intros Hr. exfalso.
    destruct (Fields.in_range count); [discriminate|destruct H].
  - split; [|reflexivity]. intros _.
    destruct (Fields.in_range count); [destruct H; exact I|reflexivity].
Qed.

(** Adding seconds gives the datetime that many seconds away when there is
    one, and overflows otherwise. *)
Lemma add_seconds_spec (dt : Fields.datetime) (delta : Z) :
  match Fields.add_seconds dt delta with
  | Return r =>
      Fields.in_range (Fields.seconds dt + delta) = true ∧
      Fields.seconds r = (Fields.seconds dt + delta)%Z
  | Raise e =>
      Fields.in_range (Fields.seconds dt + delta) = false ∧ e = OverflowError
  end.
Proof.
  unfold Fields.add_seconds.
  destruct (Fields.of_seconds _) as [r|] eqn:Hr.
  - apply of_seconds_Some in Hr. split; [|exact Hr].
    rewrite <- Hr. apply datetime_in_range.
  - apply of_seconds_None in Hr. split; [exact Hr|reflexivity].
Qed.

Lemma astimezone_utc_zero (wall : Fields.datetime) :
  Fields.astimezone_utc wall 0 = Return wall.
Proof.
  unfold Fields.astimezone_utc.
  pose proof (add_seconds_spec wall (- 0)) as H.
  destruct (Fields.add_seconds wall (- 0)) as [r|e].
  - destruct H as [_ H]. f_equal. apply datetime_eq. rewrite H. simpl. lia.
  - destruct H as [H _]. exfalso.
    replace (Fields.seconds wall + - 0)%Z with (Fields.seconds wall) in H
      by (simpl; lia).
    rewrite datetime_in_range in H. discriminate.
Qed.

Section ISODateTime.
Local Open Scope Z_scope.
Variable choices : list (string * string).
Variable localize : string → Fields.datetime → outcome Z.
Variable parse : string → outcome (Fields.datetime * option Fields.tzinfo).

Abbreviation clean := (Fields.clean choices localize parse).

(** A normalised [timedelta] has no days and no seconds exactly when it
    is zero. *)
Lemma timedelta_is_zero (d : Z) :
  (Fields.timedelta_seconds d =? 0) && (Fields.timedelta_days d =? 0) = true
  ↔ d = 0.
Proof.
  unfold Fields.timedelta_seconds, Fields.timedelta_days.
  rewrite andb_true_iff, !Z.eqb_eq. split.
  - intros [Hm Hd]. pose proof (Z.div_mod d 86400). lia.
  - intros ->. split; reflexivity.
Qed.

(** One turn of the loop of [get_timezone_string]: the zone is taken
    exactly when its offset at the wall-clock time is that of the
    value. *)
Lemma first_matching_zone_cons (c : string * string)
    (l : list (string * string)) (wall : Fields.datetime) (o : Z) :
  Fields.first_matching_zone localize (c :: l) wall o
  = match localize c.1 wall with
    | Raise e => Raise e
    | Return off =>
        if off =? o then Return (Some c.1)
        else Fields.first_matching_zone localize l wall o
    end.
Proof.
  simpl. destruct (localize c.1 wall) as [off|e]; [|reflexivity].
  destruct (off =? o) eqn:Hc.
  - apply Z.eqb_eq in Hc. subst off.
    replace (Fields.seconds wall - o - (Fields.seconds wall - o)) with 0
      by lia.
    reflexivity.
  - apply Z.eqb_neq in Hc.
    destruct ((Fields.timedelta_seconds _ =? 0) && _) eqn:Hd; [|reflexivity].
    apply timedelta_is_zero in Hd. lia.
Qed.

(** The zones that come before the first match are passed over. *)
Lemma first_matching_zone_skip (before l : list (string * string))
    (wall : Fields.datetime) (o : Z) :
  (∀ b, b ∈ before → ∃ off, localize b.1 wall = Return off ∧ off ≠ o) →
  Fields.first_matching_zone localize (before ++ l) wall o
  = Fields.first_matching_zone localize l wall o.
Proof.
  induction before as [|b before IH]; intros Hbefore; [reflexivity|].
  rewrite <- app_comm_cons, first_matching_zone_cons.
  destruct (Hbefore b) as (off & -> & Hoff); [left|].
  apply Z.eqb_neq in Hoff. rewrite Hoff.
  apply IH. intros b' Hb'. apply Hbefore. right. exact Hb'.
Qed.

Lemma timedelta_roundtrip (o : Z) :
  Fields.timedelta_seconds o + Fields.timedelta_days o * 24 * 60 * 60 = o.
Proof.
  unfold Fields.timedelta_seconds, Fields.timedelta_days.
  pose proof (Z.div_mod o 86400). lia.
Qed.

(** What [clean] does with a value that the parser reads with an aware
    zone: the exception of reading [_offset], or the search of the table
    and the conversion. *)
Lemma clean_aware (self : Fields.ISODateTimeField) (v : string)
    (wall : Fields.datetime) (t : Fields.tzinfo) :
  v ≠ EmptyString →
  parse v = Return (wall, Some t) →
  Fields.equals_tzlocal t = false →
  Fields.clean_body choices localize parse self (Some v)
  = match Fields.offset_attr t with
    | None => Raise AttributeError
    | Some _ =>
        match Fields.first_matching_zone localize choices wall
                (Fields.utcoffset t) with
        | Raise e => Raise e
        | Return None =>
            Raise (ValidationError [Fields.malformed_timezone_message])
        | Return (Some name) =>
            if String.eqb name EmptyString
            then Raise (ValidationError [Fields.malformed_timezone_message])
            else
              match Fields.astimezone_utc wall (Fields.utcoffset t) with
              | Raise e => Raise e
              | Return utc =>
                  Return (Some {| Fields.timezone := name;
                                  Fields.utc_time := utc |})
              end
        end
    end.
Proof.
  intros Hv Hparse Hlocal.
  unfold Fields.clean_body, Fields.get_timezone_string.
  apply String.eqb_neq in Hv. rewrite Hv, Hparse, Hlocal. simpl.
  destruct (Fields.offset_attr t); reflexivity.
Qed.

(** C5: a value whose offset is zero, for which the parser attaches
    [tzutc()] (or any zone without an [_offset] attribute that is not the
    local one), is not cleaned: reading [_offset] raises an
    [AttributeError], which [clean] does not turn into a validation
    error. *)
Theorem zero_offset_raises_attribute_error (self : Fields.ISODateTimeField)
    (v : string) (wall : Fields.datetime) (t : Fields.tzinfo) :
  v ≠ EmptyString →
  parse v = Return (wall, Some t) →
  Fields.equals_tzlocal t = false →
  Fields.offset_attr t = None →
  clean self (Some v) = Raise AttributeError.
Proof.
  intros Hv Hparse Hlocal Hattr. unfold Fields.clean.
  rewrite (clean_aware self v wall t Hv Hparse Hlocal), Hattr.
  reflexivity.
Qed.
End ISODateTime.

Lemma zero_offset_raises_attribute_error_witness :
  Sample.parse_iso "2023-06-01T10:00:00+00:00"
  = Return (Sample.moment 2023 6 1 10 0 0, Some Fields.tzutc) ∧
  Fields.clean Sample.zones Sample.localize Sample.parse_iso
    {| Fields.required := true |} (Some "2023-06-01T10:00:00+00:00")
  = Raise AttributeError.
Proof.
  split; [vm_compute; reflexivity|].
  apply (zero_offset_raises_attribute_error Sample.zones Sample.localize
           Sample.parse_iso {| Fields.required := true |}
           "2023-06-01T10:00:00+00:00" (Sample.moment 2023 6 1 10 0 0)
           Fields.tzutc).
  - discriminate.
  - vm_compute. reflexivity.
  - reflexivity.
  - reflexivity.
Defined.

(** The example of a value five hours behind: the zone found is
    US/Central, and the time on the UTC line is five hours later. *)
Example clean_june_first :
  Fields.clean Sample.zones Sample.localize Sample.parse_iso
    {| Fields.required := true |} (Some "2023-06-01T10:00:00-05:00")
  = Return (Some {| Fields.timezone := "US/Central";
                    Fields.utc_time := Sample.moment 2023 6 1 15 0 0 |}).
Proof. vm_compute. reflexivity. Qed.

(** ** Validation of a list request *)
Section Validation.
Context {Obj User World : Type}.
Variable has_view_perm : Obj → User → bool.
Variable is_hidden is_removed : Obj → bool.
Variable get_from_id : World → value → outcome (option Obj).
Variable GET_LIMIT_MAX : Z.
Variable regex_field_clean : Fields.ListField → value → outcome string.
Variable R : @Generic.Resource Obj.

Abbreviation Self := (@Generic.Self Obj User World).
Abbreviation is_valid :=
  (Generic.is_valid has_view_perm is_hidden is_removed get_from_id R).
Abbreviation ListForm :=
  (Forms.BaseModelResourceListForm GET_LIMIT_MAX regex_field_clean).
Abbreviation field_clean :=
  (Fields.ListField_clean regex_field_clean Forms.list_field).

(** On a GET of the list the form chosen is the list form. *)
Lemma choose_form_list (s : Self) (form : Forms.FormClass) :
  Generic.request_type s = "list" →
  Generic.REQUEST_METHOD (Generic.request s) = "GET" →
  Generic.list_validation_form R = Some form →
  Generic.choose_form R s = Some form.
Proof.
  intros Ht Hm Hf. unfold Generic.choose_form. rewrite Ht, Hm, Hf.
  reflexivity.
Qed.

(** C6 (amended): on a GET of the list of a resource that declares the
    list form as its list validation form, with field values that clean
    and a limit that reads as an integer above the ceiling, validation
    raises a bad request whose only error is the limit message when the
    resource is accessed from outside, and returns the cleaned data, for
    the same parameters, when it is accessed locally. *)
Theorem limit_above_ceiling (s : Self) (bundle : @Generic.Bundle Obj)
    (limit : Z) (v1 v2 : value) :
  Generic.request_type s = "list" →
  Generic.REQUEST_METHOD (Generic.request s) = "GET" →
  Generic.list_validation_form R = Some ListForm →
  Py.int (default VNone (Generic.data bundle !! "limit")) = Return limit →
  (GET_LIMIT_MAX < limit)%Z →
  field_clean (default VNone (Generic.data bundle !! "fields")) = Return v1 →
  field_clean (default VNone (Generic.data bundle !! "order_by")) = Return v2 →
  (Generic.locally_accessed s = false →
     is_valid bundle s
     = (Raise (ImmediateHttpResponse HttpBadRequest
                 (Errors {[ Forms.NON_FIELD_ERRORS :=
                              [Forms.limit_message GET_LIMIT_MAX] ]})), s)) ∧
  (Generic.locally_accessed s = true →
     is_valid bundle s
     = (Return (Generic.set_data (<["order_by" := v2]> (<["fields" := v1]> ∅))
                  bundle), s)).
Proof.
  intros Ht Hm Hf Hint Hlim Hv1 Hv2.
  assert (Hgt : (limit >? GET_LIMIT_MAX)%Z = true) by (apply Z.gtb_lt; lia).
  pose proof (choose_form_list s ListForm Ht Hm Hf) as Hform.
  split; intros Hlocal.
  - unfold Generic.is_valid. run. rewrite Ht. simpl. rewrite Hform, Hlocal.
    unfold Forms.full_clean, Forms._clean_fields, Forms._clean_form. simpl.
    rewrite Hv1. simpl. rewrite Hv2. simpl.
    unfold Forms.BaseModelResourceListForm_clean. simpl.
    rewrite Hint, Hgt. simpl. unfold Forms.is_valid. simpl.
    rewrite bool_decide_false; [reflexivity|].
    apply insert_non_empty.
  - unfold Generic.is_valid. run. rewrite Ht. simpl. rewrite Hform, Hlocal.
    unfold Forms.full_clean, Forms._clean_fields, Forms._clean_form. simpl.
    rewrite Hv1. simpl. rewrite Hv2. simpl.
    unfold Forms.BaseModelResourceListForm_clean. simpl.
    rewrite Hint, Hgt. reflexivity.
Qed.
End Validation.

Lemma limit_above_ceiling_witness :
  let params : gmap string value := {[ "limit" := VStr "500" ]} in
  let R := Sample.job_resource (Some Sample.list_form) in
  let b := {| Generic.obj := None; Generic.data := params |} in
  let outside := Sample.self_on Sample.alice "GET" "list" None params false in
  let inside := Sample.self_on Sample.alice "GET" "list" None params true in
  Generic.is_valid Sample.has_view_perm Sample.is_hidden Sample.is_removed
    Sample.get_from_id R b outside
  = (Raise (ImmediateHttpResponse HttpBadRequest
              (Errors {[ "__all__" :=
                ["The requested limit is above the maximum of 200."] ]})),
     outside) ∧
  Generic.is_valid Sample.has_view_perm Sample.is_hidden Sample.is_removed
    Sample.get_from_id R b inside
  = (Return (Generic.set_data
               (<["order_by" := VNone]> (<["fields" := VNone]> ∅)) b), inside).
Proof.
  intros params R b outside inside. split.
  - apply (limit_above_ceiling Sample.has_view_perm Sample.is_hidden
             Sample.is_removed Sample.get_from_id Sample.GET_LIMIT_MAX
             Sample.accept_all R outside b 500%Z VNone VNone);
      try reflexivity.
  - apply (limit_above_ceiling Sample.has_view_perm Sample.is_hidden
             Sample.is_removed Sample.get_from_id Sample.GET_LIMIT_MAX
             Sample.accept_all R inside b 500%Z VNone VNone);
      try reflexivity.
Defined.

(** C6, as stated, fails: on a resource that declares no list validation
    form, as [BaseModelResource.Meta] itself, [is_valid] applies no form to
    a list request, and a limit above the ceiling passes validation when
    the resource is accessed from outside. *)
Lemma limit_above_ceiling_passes_without_list_form :
  let params : gmap string value := {[ "limit" := VStr "500" ]} in
  let R := Sample.job_resource None in
  let b := {| Generic.obj := None; Generic.data := params |} in
  let outside := Sample.self_on Sample.alice "GET" "list" None params false in
  Generic.list_validation_form R = None ∧
  Py.int (default VNone (Generic.data b !! "limit")) = Return 500%Z ∧
  (Sample.GET_LIMIT_MAX < 500)%Z ∧
  Generic.locally_accessed outside = false ∧
  Generic.is_valid Sample.has_view_perm Sample.is_hidden Sample.is_removed
    Sample.get_from_id R b outside
  = (Return b, outside).
Proof.
  intros params R b outside. splits; reflexivity.
Qed.

(** ** Field projection *)
Section Projection.
Context {Obj User World : Type}.
Variable R : @Generic.Resource Obj.

Abbreviation Self := (@Generic.Self Obj User World).
Abbreviation filter_fields := (Generic.filter_fields (User:=User) (World:=World) R).

(** The first loop of [filter_fields] stops at the first requested name
    that is not valid. *)
Lemma validity_loop (requested : list string) (s : Self) :
  Py.for_each requested (λ field,
    if bool_decide (field ∈ Generic.valid_fields R) then mret tt
    else Generic.raise_error (Generic.invalid_field_message field) HttpBadRequest) s
  = match List.find (λ f, bool_decide (f ∉ Generic.valid_fields R)) requested with
    | Some f =>
        (Raise (refused HttpBadRequest (Generic.invalid_field_message f)),
         Generic.after_error (Generic.invalid_field_message f) s)
    | None => (Return tt, s)
    end.
Proof.
  induction requested as [|f l IH]; simpl; [reflexivity|]. run.
  destruct (decide (f ∈ Generic.valid_fields R)) as [Hin|Hout].
  - rewrite (bool_decide_true _ Hin). rewrite bool_decide_false by tauto.
    run. apply IH.
  - rewrite (bool_decide_false _ Hout). rewrite (bool_decide_true _ Hout).
    reflexivity.
Qed.

(** The second loop appends, in order, the names to exclude. *)
Lemma exclusion_loop (requested l acc : list string) (s : Self) :
  Py.for_each l (λ field,
    if bool_decide (field ∉ requested)
       && bool_decide (field ∉ Generic.permanent_fields)
    then Py.modify (Generic.append_ignore_field field)
    else mret tt) (Generic.set_ignore_fields (Some acc) s)
  = (Return tt,
     Generic.set_ignore_fields
       (Some (acc ++ filter (λ x, (x ∉ requested) ∧ (x ∉ Generic.permanent_fields)) l))
       s).
Proof.
  revert acc. induction l as [|f l IH]; intros acc; simpl.
  - rewrite app_nil_r. reflexivity.
  - run. rewrite filter_cons.
    destruct (decide ((f ∉ requested) ∧ (f ∉ Generic.permanent_fields))) as [[H1 H2]|Hn].
    + rewrite (bool_decide_true _ H1), (bool_decide_true _ H2). run.
      unfold Generic.append_ignore_field. simpl.
      change (Generic.set_ignore_fields (Some (acc ++ [f]))
                (Generic.set_ignore_fields (Some acc) s))
        with (Generic.set_ignore_fields (Some (acc ++ [f])) s).
      rewrite IH, <- app_assoc. reflexivity.
    + destruct (bool_decide (f ∉ requested)) eqn:E1;
        destruct (bool_decide (f ∉ Generic.permanent_fields)) eqn:E2; simpl;
        try apply IH.
      apply bool_decide_eq_true in E1, E2. tauto.
Qed.

(** C3: for a non-empty requested list, the first requested name outside
    the valid fields (the names of [fields], of [declared_fields] and of
    [Meta.fields], the [_id] names of the foreign keys, and
    [resource_uri]) is reported in a bad request and nothing is excluded;
    it is the offending name itself when there is only one. When every
    requested name is valid, the excluded names are exactly the initial
    names that are neither requested nor permanent. *)
Theorem filter_fields_projection (s : Self) (requested : list string) :
  requested ≠ [] →
  (∀ f, f ∈ requested → f ∉ Generic.valid_fields R →
     ∃ g, g ∈ requested ∧ (g ∉ Generic.valid_fields R) ∧
       ((∀ h, h ∈ requested → h ∉ Generic.valid_fields R → h = f) → g = f) ∧
       (filter_fields (Some requested) s).1
         = Raise (refused HttpBadRequest (Generic.invalid_field_message g)) ∧
       Generic.ignore_fields (filter_fields (Some requested) s).2 = Some [] ∧
       Generic.data (Generic.bundle (filter_fields (Some requested) s).2)
         = {[ "error_message" := VStr (Generic.invalid_field_message g) ]}) ∧
  ((∀ f, f ∈ requested → f ∈ Generic.valid_fields R) →
     ∃ excluded,
       filter_fields (Some requested) s
         = (Return tt, Generic.set_ignore_fields (Some excluded) s) ∧
       ∀ x, x ∈ excluded ↔
            x ∈ Generic.initial_fields R ∧ (x ∉ requested) ∧
            (x ∉ Generic.permanent_fields)).
Proof.
  intros Hne.
  assert (Hrun : filter_fields (Some requested) s =
    match List.find (λ f, bool_decide (f ∉ Generic.valid_fields R)) requested with
    | Some f =>
        (Raise (refused HttpBadRequest (Generic.invalid_field_message f)),
         Generic.after_error (Generic.invalid_field_message f)
           (Generic.set_ignore_fields (Some []) s))
    | None =>
        (Return tt,
         Generic.set_ignore_fields
           (Some (filter (λ x, (x ∉ requested) ∧ (x ∉ Generic.permanent_fields))
                    (Generic.initial_fields R))) s)
    end).
  { unfold Generic.filter_fields. destruct requested as [|r0 rq]; [done|].
    unfold mbind, M_bind, Py.modify. cbv beta iota.
    rewrite (validity_loop (r0 :: rq)).
    destruct (List.find _ (r0 :: rq)); [reflexivity|].
    apply (exclusion_loop (r0 :: rq) _ []). }
  rewrite Hrun. split.
  - intros f Hf Hbad.
    destruct (List.find _ requested) as [g|] eqn:Hfind.
    + apply find_some in Hfind as [Hg Hgbad].
      apply list_elem_of_In in Hg. apply bool_decide_eq_true in Hgbad.
      exists g. repeat split; auto.
    + exfalso. apply list_elem_of_In in Hf.
      pose proof (find_none _ _ Hfind f Hf) as Hn. simpl in Hn.
      apply bool_decide_eq_false in Hn. tauto.
  - intros Hall.
    destruct (List.find _ requested) as [g|] eqn:Hfind.
    + apply find_some in Hfind as [Hg Hgbad].
      apply list_elem_of_In in Hg. apply bool_decide_eq_true in Hgbad.
      exfalso. exact (Hgbad (Hall g Hg)).
    + eexists. split; [reflexivity|].
      intros x. rewrite list_elem_of_filter. tauto.
Qed.
End Projection.

Lemma filter_fields_projection_witness :
  let R := Sample.job_resource None in
  let s := Sample.self_on Sample.alice "GET" "detail" (Some 1%Z) ∅ false in
  (Generic.filter_fields R (Some ["title"; "salary"]) s).1
    = Raise (refused HttpBadRequest "Field 'salary' is not a valid field.") ∧
  ∃ excluded,
    Generic.filter_fields R (Some ["title"; "organization_id"]) s
      = (Return tt, Generic.set_ignore_fields (Some excluded) s) ∧
    "organization" ∈ excluded ∧ ("resource_uri" ∉ excluded) ∧ ("title" ∉ excluded).
Proof.
  intros R s. split.
  - destruct (proj1 (filter_fields_projection R s ["title"; "salary"]
                       ltac:(discriminate)) "salary")
      as (g & _ & _ & Hg & Hrun & _).
    + apply list_elem_of_In. simpl. tauto.
    + intros Hin. apply list_elem_of_In in Hin. vm_compute in Hin.
      intuition discriminate.
    + rewrite Hrun, Hg; [reflexivity|].
      intros h Hh Hbad. apply list_elem_of_In in Hh. simpl in Hh.
      destruct Hh as [<-|[<-|[]]]; [|reflexivity].
      exfalso. apply Hbad. apply list_elem_of_In. vm_compute. tauto.
  - destruct (proj2 (filter_fields_projection R s ["title"; "organization_id"]
                       ltac:(discriminate))) as (excluded & Hrun & Hex).
    + intros f Hf. apply list_elem_of_In in Hf. apply list_elem_of_In.
      simpl in Hf. destruct Hf as [<-|[<-|[]]]; vm_compute; tauto.
    + exists excluded. split; [exact Hrun|]. rewrite !Hex.
      rewrite !list_elem_of_In. vm_compute.
      split; [|split]; intuition discriminate.
Defined.

(** ** Sorting *)
Section Sorting.
Context {Obj User World : Type}.
Variable has_view_perm : Obj → User → bool.
Variable is_hidden is_removed : Obj → bool.
Variable get_from_id : World → value → outcome (option Obj).
Variable GET_LIMIT_MAX : Z.
Variable regex_field_clean : Fields.ListField → value → outcome string.
Variable R : @Generic.Resource Obj.

Abbreviation Self := (@Generic.Self Obj User World).
Abbreviation apply_sorting :=
  (Generic.apply_sorting (User:=User) (World:=World) R).
Abbreviation is_valid :=
  (Generic.is_valid has_view_perm is_hidden is_removed get_from_id R).
Abbreviation ListForm :=
  (Forms.BaseModelResourceListForm GET_LIMIT_MAX regex_field_clean).
Abbreviation field_clean :=
  (Fields.ListField_clean regex_field_clean Forms.list_field).

(** The default branch of [apply_sorting]. *)
Lemma apply_sorting_without_keys (s : Self) (obj_list : Generic.QuerySet)
    (v : value) :
  Generic.data (Generic.bundle s) !! "order_by" = Some v →
  truthy v = false →
  apply_sorting obj_list s = (Return (Generic.order_by ["-id"] obj_list), s).
Proof.
  intros Hv Hfalse. unfold Generic.apply_sorting. run.
  rewrite Hv, Hfalse. reflexivity.
Qed.

(** C1 (amended): when the options hold an [order_by] entry with no key
    in it ([None], an empty list, an empty text), the collection is
    ordered by the single key [-id] and no computed column is added; when
    the options hold no [order_by] entry at all, the collection is
    returned as it came. *)
Theorem default_ordering (s : Self) (obj_list : Generic.QuerySet) :
  (∀ v, Generic.data (Generic.bundle s) !! "order_by" = Some v →
        truthy v = false →
        apply_sorting obj_list s
        = (Return (Generic.order_by ["-id"] obj_list), s)) ∧
  (Generic.data (Generic.bundle s) !! "order_by" = None →
     apply_sorting obj_list s = (Return obj_list, s)).
Proof.
  split.
  - intros v. apply apply_sorting_without_keys.
  - intros Hnone. unfold Generic.apply_sorting. run.
    rewrite Hnone. reflexivity.
Qed.

(** The list form always binds [order_by]: a GET of the list that carries
    neither [order_by] nor [limit] is validated to data in which
    [order_by] is [None], and is then sorted by [-id]. *)
Lemma validated_list_is_sorted_by_id (s : Self) (bundle : @Generic.Bundle Obj)
    (v1 : value) (obj_list : Generic.QuerySet) :
  Generic.request_type s = "list" →
  Generic.REQUEST_METHOD (Generic.request s) = "GET" →
  Generic.list_validation_form R = Some ListForm →
  Generic.data bundle !! "order_by" = None →
  Generic.data bundle !! "limit" = None →
  regex_field_clean Forms.list_field VNone = Return EmptyString →
  field_clean (default VNone (Generic.data bundle !! "fields")) = Return v1 →
  ∃ bundle',
    is_valid bundle s = (Return bundle', s) ∧
    Generic.data bundle' !! "order_by" = Some VNone ∧
    apply_sorting obj_list (Generic.set_bundle bundle' s)
    = (Return (Generic.order_by ["-id"] obj_list),
       Generic.set_bundle bundle' s).
Proof.
  intros Ht Hm Hf Hord Hlim Hempty Hv1.
  assert (Hform : Generic.choose_form R s = Some ListForm).
  { unfold Generic.choose_form. rewrite Ht, Hm, Hf. reflexivity. }
  eexists. split; [|split].
  - unfold Generic.is_valid. run. rewrite Ht. simpl. rewrite Hform.
    unfold Forms.full_clean, Forms._clean_fields, Forms._clean_form. simpl.
    rewrite Hv1. simpl. rewrite Hord. simpl.
    unfold Fields.ListField_clean at 1. rewrite Hempty. simpl.
    unfold Forms.BaseModelResourceListForm_clean. simpl. rewrite Hlim. simpl.
    reflexivity.
  - simpl. apply lookup_insert_eq.
  - apply (apply_sorting_without_keys _ _ VNone); [|reflexivity].
    simpl. apply lookup_insert_eq.
Qed.
End Sorting.

Lemma default_ordering_witness :
  let R := Sample.job_resource (Some Sample.list_form) in
  let qs := {| Generic.model_fields := ["id"; "title"; "organization"];
               Generic.select := ∅; Generic.ordering := [] |} in
  let cleaned := Sample.self_on Sample.alice "GET" "list" None
                   {[ "order_by" := VNone ]} false in
  let raw := Sample.self_on Sample.alice "GET" "list" None ∅ false in
  Generic.apply_sorting R qs cleaned
    = (Return (Generic.order_by ["-id"] qs), cleaned) ∧
  Generic.apply_sorting R qs raw = (Return qs, raw).
Proof.
  intros R qs cleaned raw. split.
  - apply (proj1 (default_ordering R cleaned qs) VNone); reflexivity.
  - apply (proj2 (default_ordering R raw qs)); reflexivity.
Defined.

(** C1, as stated, fails: with no [order_by] entry in the options (a list
    request on a resource that declares no list validation form), the
    sorting step gives back the collection with the ordering it had, which
    is not [-id]. *)
Lemma no_order_by_entry_leaves_list_unsorted :
  let R := Sample.job_resource None in
  let qs := {| Generic.model_fields := ["id"; "title"; "organization"];
               Generic.select := ∅; Generic.ordering := [] |} in
  let s := Sample.self_on Sample.alice "GET" "list" None ∅ false in
  Generic.data (Generic.bundle s) !! "order_by" = None ∧
  Generic.is_valid Sample.has_view_perm Sample.is_hidden Sample.is_removed
    Sample.get_from_id R (Generic.bundle s) s = (Return (Generic.bundle s), s) ∧
  ∃ sorted, Generic.apply_sorting R qs s = (Return sorted, s) ∧
            Generic.ordering sorted = [] ∧
            Generic.ordering sorted ≠ ["-id"].
Proof.
  intros R qs s. split; [reflexivity|]. split; [reflexivity|].
  exists qs. split; [reflexivity|]. split; [reflexivity|discriminate].
Qed.

(** ** URI formatting *)
Section Uri.
Context {Obj User World : Type}.
Variable BASE_API_URL : string.

Abbreviation Self := (@Generic.Self Obj User World).
Abbreviation _format_api_uri :=
  (Generic._format_api_uri (Obj:=Obj) (User:=User) (World:=World) BASE_API_URL).

Lemma format_uri_lookup (base_url : string) (keys : list string)
    (d : gmap string value) :
  NoDup keys →
  (∀ k v, k ∈ keys → d !! k = Some v → truthy v = true → ∃ t, v = VStr t) →
  ∃ d', Generic._format_uri d keys base_url = Return d' ∧
    ∀ k, d' !! k = if bool_decide (k ∈ keys)
                   then Generic.prefixed base_url <$> d !! k else d !! k.
Proof.
  revert d. induction keys as [|key keys IH]; intros d Hnd Hstr.
  - exists d. split; [reflexivity|]. intros k.
    rewrite bool_decide_false; [reflexivity|]. apply not_elem_of_nil.
  - apply NoDup_cons in Hnd as [Hkey Hnd]. simpl.
    unfold Py.get_truthy.
    destruct (d !! key) as [v|] eqn:Hd.
    + destruct (truthy v) eqn:Htv.
      * destruct (Hstr key v) as [t ->]; [left|exact Hd|exact Htv|].
        destruct (IH (<[key := VStr (base_url +:+ "/" +:+ Py.lstrip t "/")]> d)
                    Hnd) as (d' & Hrun & Hd').
        { intros k v Hk. rewrite lookup_insert_ne by (intros ->; contradiction).
          apply Hstr. by right. }
        exists d'. split; [exact Hrun|]. intros k. rewrite Hd'.
        destruct (decide (k = key)) as [->|Hne].
        -- rewrite (bool_decide_false _ Hkey), bool_decide_true by left.
           rewrite lookup_insert_eq, Hd. simpl. simpl in Htv. rewrite Htv.
           reflexivity.
        -- rewrite lookup_insert_ne by done.
           apply (f_equal (λ b : bool, if b then _ else _)).
           apply bool_decide_ext. rewrite elem_of_cons. tauto.
      * destruct (IH d Hnd) as (d' & Hrun & Hd').
        { intros k v' Hk. apply Hstr. by right. }
        exists d'. split; [exact Hrun|]. intros k. rewrite Hd'.
        destruct (decide (k = key)) as [->|Hne].
        -- rewrite (bool_decide_false _ Hkey), bool_decide_true by left.
           rewrite Hd. simpl. unfold Generic.prefixed. destruct v; try reflexivity.
           rewrite Htv. reflexivity.
        -- apply (f_equal (λ b : bool, if b then _ else _)).
           apply bool_decide_ext. rewrite elem_of_cons. tauto.
    + destruct (IH d Hnd) as (d' & Hrun & Hd').
      { intros k v' Hk. apply Hstr. by right. }
      exists d'. split; [exact Hrun|]. intros k. rewrite Hd'.
      destruct (decide (k = key)) as [->|Hne].
      -- rewrite (bool_decide_false _ Hkey), bool_decide_true by left.
         rewrite Hd. reflexivity.
      -- apply (f_equal (λ b : bool, if b then _ else _)).
         apply bool_decide_ext. rewrite elem_of_cons. tauto.
Qed.

(** The keys that [+=] appends are the keys of the data that end in
    [_uri] and are not in the list yet, each once. *)
Lemma elem_of_new_uri_keys (d : gmap string value) (keys : list string)
    (x : string) :
  x ∈ Generic.new_uri_keys d keys
  ↔ Py.endswith x "_uri" = true ∧ (x ∉ keys) ∧ is_Some (d !! x).
Proof.
  unfold Generic.new_uri_keys. rewrite list_elem_of_filter, list_elem_of_fmap.
  split.
  - intros [[He Hk] ([k v] & -> & Hin)]. apply elem_of_map_to_list in Hin.
    simpl in *. eauto.
  - intros (He & Hk & [v Hv]). split; [done|].
    exists (x, v). split; [done|]. by apply elem_of_map_to_list.
Qed.

Lemma NoDup_extended_keys (d : gmap string value) (keys : list string) :
  NoDup keys → NoDup (keys ++ Generic.new_uri_keys d keys).
Proof.
  intros Hnd. apply NoDup_app. split; [exact Hnd|]. split.
  - intros x Hx Hnew. apply elem_of_new_uri_keys in Hnew. tauto.
  - unfold Generic.new_uri_keys. apply NoDup_filter, NoDup_fst_map_to_list.
Qed.

(** C4 (amended): under every key of [api_uri_keys] and every key that
    ends in [_uri], a non-empty text is replaced by the base URL, a slash
    and the text without its leading slashes; an absent, empty or
    otherwise false value stays as it is, and so does every other key.
    No test is made for a value that is absolute already. The keys that
    end in [_uri] are added to [api_uri_keys], which stays free of
    repetitions. *)
Theorem format_api_uri_prefixes (s : Self) (d : gmap string value) :
  let uri_key k := k ∈ Generic.api_uri_keys s ∨ Py.endswith k "_uri" = true in
  NoDup (Generic.api_uri_keys s) →
  (∀ k v, uri_key k → d !! k = Some v → truthy v = true → ∃ t, v = VStr t) →
  ∃ d' s',
    _format_api_uri d s = (Return d', s') ∧
    (∀ k t, uri_key k → d !! k = Some (VStr t) → t ≠ EmptyString →
       d' !! k = Some (VStr (BASE_API_URL +:+ "/" +:+ Py.lstrip t "/"))) ∧
    (∀ k, ¬ uri_key k ∨ Py.get_truthy d k = false → d' !! k = d !! k) ∧
    Generic.api_uri_keys s'
      = Generic.api_uri_keys s ++ Generic.new_uri_keys d (Generic.api_uri_keys s) ∧
    NoDup (Generic.api_uri_keys s').
Proof.
  intros uri_key Hnd Hstr.
  set (keys := Generic.api_uri_keys s
               ++ Generic.new_uri_keys d (Generic.api_uri_keys s)).
  assert (Hkeys : ∀ k, is_Some (d !! k) → (k ∈ keys ↔ uri_key k)).
  { intros k Hk. unfold keys, uri_key.
    rewrite elem_of_app, elem_of_new_uri_keys.
    destruct (decide (k ∈ Generic.api_uri_keys s)); tauto. }
  destruct (format_uri_lookup BASE_API_URL keys d) as (d' & Hrun & Hd').
  { apply NoDup_extended_keys, Hnd. }
  { intros k v Hk Hv. apply (Hstr k v); [|exact Hv]. apply Hkeys; eauto. }
  exists d', (Generic.set_api_uri_keys keys s).
  split; [|split; [|split; [|split]]].
  - unfold Generic._format_api_uri. run. fold keys. rewrite Hrun. reflexivity.
  - intros k t Hk Hv Ht. rewrite Hd', bool_decide_true by (apply Hkeys; eauto).
    rewrite Hv. simpl. apply String.eqb_neq in Ht. rewrite Ht. reflexivity.
  - intros k Hk. rewrite Hd'. case_bool_decide as Hin; [|reflexivity].
    unfold Py.get_truthy in Hk.
    destruct (d !! k) as [v|] eqn:Hv; [|reflexivity].
    destruct Hk as [Hk|Hk].
    + exfalso. apply Hk. apply (Hkeys k); [eauto|exact Hin].
    + simpl. unfold Generic.prefixed. destruct v; try reflexivity.
      rewrite Hk. reflexivity.
  - reflexivity.
  - apply NoDup_extended_keys, Hnd.
Qed.
End Uri.

Lemma format_api_uri_prefixes_witness :
  let s := Sample.self_on Sample.alice "GET" "detail" (Some 1%Z) ∅ false in
  let d : gmap string value :=
    {[ "resource_uri" := VStr "/jobs/1/"; "logo_uri" := VStr "static/logo.png";
       "next" := VNone; "title" := VStr "/dev/null" ]} in
  ∃ d' s',
    Generic._format_api_uri "https://api.example.com" d s = (Return d', s') ∧
    d' !! "resource_uri" = Some (VStr "https://api.example.com/jobs/1/") ∧
    d' !! "logo_uri" = Some (VStr "https://api.example.com/static/logo.png") ∧
    d' !! "next" = Some VNone ∧
    d' !! "title" = Some (VStr "/dev/null").
Proof.
  intros s d.
  destruct (format_api_uri_prefixes "https://api.example.com" s d)
    as (d' & s' & Hrun & Hpre & Hkeep & _).
  - simpl. repeat constructor; rewrite ?list_elem_of_In; simpl; intuition discriminate.
  - intros k v Hk Hv Ht. subst d.
    destruct (decide (k = "resource_uri")) as [->|]; [vm_compute in Hv; injection Hv as <-; eauto|].
    destruct (decide (k = "logo_uri")) as [->|]; [vm_compute in Hv; injection Hv as <-; eauto|].
    destruct (decide (k = "next")) as [->|]; [vm_compute in Hv; injection Hv as <-; discriminate|].
    destruct (decide (k = "title")) as [->|]; [vm_compute in Hv; injection Hv as <-; eauto|].
    rewrite !lookup_insert_ne, lookup_singleton_ne in Hv by done. discriminate.
  - exists d', s'. split; [exact Hrun|]. split; [|split; [|split]].
    + apply (Hpre "resource_uri" "/jobs/1/"); [left; apply list_elem_of_In; simpl; tauto|reflexivity|discriminate].
    + apply (Hpre "logo_uri" "static/logo.png"); [right; reflexivity|reflexivity|discriminate].
    + rewrite (Hkeep "next"); [reflexivity|right; reflexivity].
    + rewrite (Hkeep "title"); [reflexivity|left].
      intros [Hin|He]; [|discriminate He].
      apply list_elem_of_In in Hin. simpl in Hin. intuition discriminate.
Defined.

(** C4, as stated, fails: a canonical link that is absolute already, and
    begins with the base URL itself, is prefixed once more. *)
Lemma absolute_uri_is_prefixed_again :
  let s := Sample.self_on Sample.alice "GET" "detail" (Some 1%Z) ∅ false in
  let d : gmap string value :=
    {[ "resource_uri" := VStr "https://api.example.com/jobs/1/" ]} in
  let formatted :=
    match (Generic._format_api_uri "https://api.example.com" d s).1 with
    | Return d' => d' !! "resource_uri"
    | Raise _ => None
    end in
  Py.startswith "https://api.example.com/jobs/1/" "https://api.example.com" = true ∧
  formatted
    = Some (VStr "https://api.example.com/https://api.example.com/jobs/1/") ∧
  formatted ≠ d !! "resource_uri".
Proof.
  intros s d formatted. split; [reflexivity|].
  split; [vm_compute; reflexivity|vm_compute; discriminate].
Qed.

(** ** Full dehydration *)

Lemma append_cons (c : ascii) (a b : string) :
  String c a +:+ b = String c (a +:+ b).
Proof. reflexivity. Qed.

Lemma append_empty (b : string) : EmptyString +:+ b = b.
Proof. reflexivity. Qed.

Lemma length_append (a b : string) :
  String.length (a +:+ b) = String.length a + String.length b.
Proof.
  induction a as [|c a IH]; [reflexivity|].
  rewrite append_cons. simpl. by rewrite IH.
Qed.

Lemma append_inv_tail (s x y : string) : x +:+ s = y +:+ s → x = y.
Proof.
  revert y. induction x as [|c x IH]; intros [|c' y] H.
  - reflexivity.
  - apply (f_equal String.length) in H.
    rewrite !length_append in H. simpl in H. lia.
  - apply (f_equal String.length) in H.
    rewrite !length_append in H. simpl in H. lia.
  - rewrite !append_cons in H. injection H as -> H. f_equal. by apply IH.
Qed.

Lemma id_name_is_not_info (x : string) : x +:+ "_id" ≠ "info".
Proof.
  intros H. pose proof (f_equal String.length H) as Hlen.
  rewrite length_append in Hlen. simpl in Hlen.
  destruct x as [|c [|c' x]]; simpl in Hlen; try lia.
  rewrite append_cons, append_empty in H. injection H as _ H. discriminate.
Qed.

Section Dehydration.
Context {Obj User World : Type}.
Variable getattr : Obj → string → option value.
Variable BASE_API_URL : string.
Variable clean_html : list string → list string → value → outcome value.
Variable field_dehydrate : string → Generic.field → @Generic.Bundle Obj → outcome value.
Variable R : @Generic.Resource Obj.

Abbreviation Self := (@Generic.Self Obj User World).
Abbreviation Bundle := (@Generic.Bundle Obj).
Abbreviation full_dehydrate :=
  (Generic.full_dehydrate (User:=User) (World:=World) getattr BASE_API_URL
     clean_html field_dehydrate R).
Abbreviation dehydrate_fields :=
  (Generic.dehydrate_fields (User:=User) (World:=World) getattr
     field_dehydrate R).
Abbreviation dehydrate_field :=
  (Generic.dehydrate_field (User:=User) (World:=World) R).
Abbreviation IntegerField_dehydrate := (Generic.IntegerField_dehydrate getattr).

Lemma IntegerField_dehydrate_value (a : string) (b : Bundle) (v : value) :
  IntegerField_dehydrate a b = Return v → Generic.not_text (Some v).
Proof.
  unfold Generic.IntegerField_dehydrate.
  repeat case_match; intros [= <-]; exact I.
Qed.

Lemma IntegerField_dehydrate_obj (a : string) (b b' : Bundle) :
  Generic.obj b' = Generic.obj b →
  IntegerField_dehydrate a b' = IntegerField_dehydrate a b.
Proof. unfold Generic.IntegerField_dehydrate. by intros ->. Qed.

(** One field: the entry written, the call recorded. *)
Lemma dehydrate_field_run (name : string) (c : Generic.field_class)
    (run_field : Bundle → outcome value) (b b' : Bundle) (s s' : Self) :
  dehydrate_field name c run_field b s = (Return b', s') →
  Generic.obj b' = Generic.obj b ∧
  Generic.ignore_fields s' = Generic.ignore_fields s ∧
  Generic.api_uri_keys s' = Generic.api_uri_keys s ∧
  Generic.calls s' = (name, c) :: Generic.calls s ∧
  (∀ k, k ≠ name → Generic.data b' !! k = Generic.data b !! k) ∧
  (Generic.dehydrate_method R ("dehydrate_" +:+ name) = None →
     ∃ v, run_field b = Return v ∧ Generic.data b' !! name = Some v).
Proof.
  unfold Generic.dehydrate_field. run.
  destruct (run_field b) as [v|e]; run; [|discriminate].
  destruct (Generic.dehydrate_method R _) as [m|]; run.
  - destruct (m _) as [v'|e]; run; [|discriminate].
    intros [= <- <-]. simpl. repeat split; try done.
    intros k Hk. by rewrite !lookup_insert_ne.
  - intros [= <- <-]. simpl. repeat split; try done.
    + intros k Hk. by rewrite lookup_insert_ne.
    + intros _. exists v. split; [done|]. apply lookup_insert_eq.
Qed.

Abbreviation field_step :=
  (Generic.field_step (User:=User) (World:=World) getattr field_dehydrate R).

(** The loop, one field at a time. *)
Lemma dehydrate_fields_cons (n : string) (fo : Generic.field)
    (l : list (string * Generic.field)) (b : Bundle) (s : Self) :
  dehydrate_fields ((n, fo) :: l) b s
  = match field_step n fo b s with
    | (Return b1, s1) => dehydrate_fields l b1 s1
    | (Raise e, s1) => (Raise e, s1)
    end.
Proof.
  unfold Generic.field_step. cbn [Generic.dehydrate_fields].
  unfold mbind, M_bind, Py.get. cbv beta iota.
  destruct (Generic.ignored s n); [|reflexivity].
  destruct (bool_decide _); [|reflexivity].
  destruct (Generic.ignored s _); reflexivity.
Qed.

Section Field.
Variable f : string.
Variable ign : list string.
Hypothesis Hf : f ∈ ign.
Hypothesis Hid : f +:+ "_id" ∉ ign.
Hypothesis Hhook :
  Generic.dehydrate_method R ("dehydrate_" +:+ f +:+ "_id") = None.

Abbreviation is_the_key := (Generic.foreign_key_in f).

(** The loop over the fields never dehydrates [f] itself, never writes
    under [f], and writes under [f_id] nothing but the integer
    conversion of the attribute [f_id]. *)
Lemma dehydrate_fields_run (l : list (string * Generic.field)) :
  ∀ (b b' : Bundle) (s s' : Self),
    Generic.ignore_fields s = Some ign →
    (f +:+ "_id" ∉ l.*1) →
    dehydrate_fields l b s = (Return b', s') →
    Generic.obj b' = Generic.obj b ∧
    Generic.ignore_fields s' = Some ign ∧
    Generic.api_uri_keys s' = Generic.api_uri_keys s ∧
    Generic.data b' !! f = Generic.data b !! f ∧
    (∃ new, Generic.calls s' = new ++ Generic.calls s ∧
            (∀ c, (f, c) ∉ new) ∧
            (is_the_key l → (f +:+ "_id", Generic.IntegerField) ∈ new)) ∧
    (is_the_key l →
       ∃ v, IntegerField_dehydrate (f +:+ "_id") b = Return v ∧
            Generic.data b' !! (f +:+ "_id") = Some v) ∧
    (∀ v, IntegerField_dehydrate (f +:+ "_id") b = Return v →
          Generic.data b !! (f +:+ "_id") = Some v →
          Generic.data b' !! (f +:+ "_id") = Some v).
Proof.
  induction l as [|[n fo] l IH]; intros b b' s s' Hign Hfresh Hrun.
  - simpl in Hrun. injection Hrun as <- <-.
    assert (Hno : ¬ is_the_key [])
      by (intros (fo & Hin & _); by apply not_elem_of_nil in Hin).
    splits; try done.
    exists []. splits; try done.
    intros c Hc. by apply not_elem_of_nil in Hc.
  - rewrite fmap_cons, not_elem_of_cons in Hfresh. simpl in Hfresh.
    destruct Hfresh as [Hn Hfresh].
    rewrite dehydrate_fields_cons in Hrun.
    (* the head of the list *)
    assert (Hhead : ∃ b1 s1,
      field_step n fo b s = (Return b1, s1) ∧
      Generic.obj b1 = Generic.obj b ∧
      Generic.ignore_fields s1 = Some ign ∧
      Generic.api_uri_keys s1 = Generic.api_uri_keys s ∧
      Generic.data b1 !! f = Generic.data b !! f ∧
      (∃ new, Generic.calls s1 = new ++ Generic.calls s ∧
              (∀ c, (f, c) ∉ new) ∧
              (n = f → Generic.cls fo = Generic.BaseForeignKey →
                 (f +:+ "_id", Generic.IntegerField) ∈ new)) ∧
      (n = f → Generic.cls fo = Generic.BaseForeignKey →
         ∃ v, IntegerField_dehydrate (f +:+ "_id") b = Return v ∧
              Generic.data b1 !! (f +:+ "_id") = Some v) ∧
      (∀ v, IntegerField_dehydrate (f +:+ "_id") b = Return v →
            Generic.data b !! (f +:+ "_id") = Some v →
            Generic.data b1 !! (f +:+ "_id") = Some v)).
    { unfold Generic.field_step, Generic.ignored in Hrun |- *.
      rewrite Hign in Hrun |- *.
      destruct (decide (n ∈ ign)) as [Hnin|Hnout].
      - rewrite (bool_decide_true _ Hnin) in Hrun |- *.
        destruct (decide (Generic.cls fo = Generic.BaseForeignKey)) as [Hfk|Hnfk].
        + rewrite (bool_decide_true _ Hfk) in Hrun |- *.
          destruct (decide (n +:+ "_id" ∈ ign)) as [Hidin|Hidout].
          * rewrite (bool_decide_true _ Hidin) in Hrun |- *.
            exists b, s. splits; try done; try (intros -> _; contradiction).
            exists []. splits; try done; try (intros -> _; contradiction).
            intros c Hc. by apply not_elem_of_nil in Hc.
          * rewrite (bool_decide_false _ Hidout) in Hrun |- *.
            destruct (dehydrate_field (n +:+ "_id") Generic.IntegerField
                        (IntegerField_dehydrate (n +:+ "_id")) b s)
              as [[b1|e] s1] eqn:Hfield; [|discriminate].
            apply dehydrate_field_run in Hfield
              as (Hobj & Hig & Hkeys & Hcalls & Hother & Hown).
            exists b1, s1. splits; try done.
            -- congruence.
            -- apply Hother. intros ->. contradiction.
            -- exists [(n +:+ "_id", Generic.IntegerField)].
               splits; try done.
               ++ intros c Hc. apply list_elem_of_singleton in Hc.
                  injection Hc as Hc _. rewrite Hc in Hf. contradiction.
               ++ intros -> _. apply list_elem_of_singleton. reflexivity.
            -- intros -> _. apply Hown. exact Hhook.
            -- intros v Hv Hd. destruct (decide (n = f)) as [->|Hnf].
               ++ destruct (Hown Hhook) as (v' & Hv' & Hd'). congruence.
               ++ rewrite Hother; [done|].
                  intros Heq. apply append_inv_tail in Heq. congruence.
        + rewrite (bool_decide_false _ Hnfk) in Hrun |- *.
          exists b, s. splits; try done; try (intros _ Hfk; contradiction).
          exists []. splits; try done; try (intros _ Hfk; contradiction).
          intros c Hc. by apply not_elem_of_nil in Hc.
      - rewrite (bool_decide_false _ Hnout) in Hrun |- *.
        destruct (dehydrate_field n (Generic.cls fo)
                    (field_dehydrate n fo) b s)
          as [[b1|e] s1] eqn:Hfield; [|discriminate].
        apply dehydrate_field_run in Hfield
          as (Hobj & Hig & Hkeys & Hcalls & Hother & Hown).
        assert (Hnf : n ≠ f) by (intros ->; contradiction).
        exists b1, s1. splits; try done.
        + congruence.
        + apply Hother. congruence.
        + exists [(n, Generic.cls fo)]. splits; try done.
          intros c Hc. apply list_elem_of_singleton in Hc.
          injection Hc as Hc _. congruence.
        + intros v Hv Hd. rewrite Hother; [done|]. congruence. }
    destruct Hhead as (b1 & s1 & Hstep & Hobj1 & Hig1 & Hkeys1 & Hf1
                       & (new1 & Hcalls1 & Hnew1 & Hin1) & Hkey1 & Hkeep1).
    rewrite Hstep in Hrun.
    destruct (IH b1 b' s1 s' Hig1 Hfresh Hrun)
      as (Hobj & Hig & Hkeys & Hfd & (new & Hcalls & Hnew & Hin) & Hkey & Hkeep).
    assert (Hint : IntegerField_dehydrate (f +:+ "_id") b1
                   = IntegerField_dehydrate (f +:+ "_id") b)
      by (by apply IntegerField_dehydrate_obj).
    rewrite Hint in Hkey, Hkeep.
    splits; try congruence.
    + exists (new ++ new1). rewrite Hcalls, Hcalls1, app_assoc. splits.
      * done.
      * intros c Hc.
        apply elem_of_app in Hc as [Hc|Hc]; [by eapply Hnew|by eapply Hnew1].
      * intros (fo' & Hfo & Hfk). apply elem_of_cons in Hfo as [Hfo|Hfo].
        -- injection Hfo as <- <-. apply elem_of_app. right. by apply Hin1.
        -- apply elem_of_app. left. apply Hin. by exists fo'.
    + intros (fo' & Hfo & Hfk). apply elem_of_cons in Hfo as [Hfo|Hfo].
      * injection Hfo as <- <-. destruct (Hkey1 eq_refl Hfk) as (v & Hv & Hd).
        exists v. split; [done|]. by apply Hkeep.
      * apply Hkey. by exists fo'.
    + intros v Hv Hd. apply Hkeep; [done|]. by apply Hkeep1.
Qed.
End Field.

(** The three passes of [dehydrate] leave alone a value that is not a
    text and an absent key. *)
Lemma format_uri_keeps (base_url : string) (keys : list string) :
  ∀ (d d' : gmap string value) (k : string),
    Generic._format_uri d keys base_url = Return d' →
    Generic.not_text (d !! k) → d' !! k = d !! k.
Proof.
  induction keys as [|key keys IH]; intros d d' k Hrun Hk.
  - by injection Hrun as <-.
  - simpl in Hrun. destruct (Py.get_truthy d key); [|by apply IH].
    destruct (d !! key) as [[| | |t| |]|] eqn:Hkey; try discriminate.
    assert (Hne : key ≠ k) by (intros ->; by rewrite Hkey in Hk).
    rewrite (IH _ _ k Hrun); rewrite lookup_insert_ne by done; done.
Qed.

Lemma format_id_fields_keeps (keys : list string) :
  ∀ (d : gmap string value) (k : string),
    (∀ key, key ∈ keys → key +:+ "_id" ≠ k) →
    Generic._format_id_fields_loop R keys d !! k = d !! k.
Proof.
  induction keys as [|key keys IH]; intros d k Hk; [reflexivity|].
  simpl. rewrite IH by (intros key' Hin; apply Hk; by right).
  assert (Hne : key +:+ "_id" ≠ k) by (apply Hk; by left).
  repeat case_match; by rewrite ?lookup_insert_ne.
Qed.

Lemma escape_fields_keeps (keys html_fields : list string) :
  ∀ (d d' : gmap string value) (k : string),
    Generic._escape_fields_loop clean_html R keys html_fields d = Return d' →
    (k ∉ html_fields) → Generic.not_text (d !! k) → d' !! k = d !! k.
Proof.
  induction keys as [|key keys IH]; intros d d' k Hrun Hhtml Hk.
  - by injection Hrun as <-.
  - simpl in Hrun. case_bool_decide; [by apply IH|].
    case_bool_decide as Hin.
    + destruct (clean_html _ _ _) as [v|e]; [|discriminate].
      assert (Hne : key ≠ k) by (intros ->; contradiction).
      rewrite (IH _ _ k Hrun Hhtml); rewrite lookup_insert_ne by done; done.
    + destruct (d !! key) as [[| | |t| |]|] eqn:Hkey; try (by apply IH).
      destruct (clean_html _ _ _) as [v|e]; [|discriminate].
      assert (Hne : key ≠ k) by (intros ->; by rewrite Hkey in Hk).
      rewrite (IH _ _ k Hrun Hhtml); rewrite lookup_insert_ne by done; done.
Qed.

Lemma dehydrate_keeps (b b' : Bundle) (s s' : Self) (x : string) (v : value) :
  Generic.dehydrate BASE_API_URL clean_html R b s = (Return b', s') →
  Generic.data b !! x = None →
  Generic.data b !! (x +:+ "_id") = Some v → Generic.not_text (Some v) →
  Generic.data b' !! (x +:+ "_id") = Some v ∧ Generic.calls s' = Generic.calls s.
Proof.
  intros Hrun Hx Hv Hnt. unfold Generic.dehydrate, Generic._format_api_uri in Hrun.
  run_in Hrun.
  destruct (Generic._format_uri _ _ _) as [d1|e] eqn:Huri; run_in Hrun;
    [|discriminate].
  destruct (Generic._escape_fields _ _ _ _) as [d3|e] eqn:Hesc; run_in Hrun;
    [|discriminate].
  injection Hrun as <- <-. simpl. split; [|reflexivity].
  unfold Generic._escape_fields in Hesc.
  rewrite (escape_fields_keeps _ _ _ _ _ Hesc).
  - unfold Generic._format_id_fields. rewrite format_id_fields_keeps.
    + rewrite (format_uri_keeps _ _ _ _ _ Huri); [done|by rewrite Hv].
    + intros key Hin Heq. apply append_inv_tail in Heq as ->.
      apply list_elem_of_fmap in Hin as ([k w] & -> & Hin).
      apply elem_of_map_to_list in Hin. simpl in *.
      rewrite (format_uri_keeps _ _ _ _ _ Huri) in Hin; [congruence|].
      by rewrite Hx.
  - intros Hin. apply list_elem_of_singleton in Hin.
    by apply id_name_is_not_info in Hin.
  - unfold Generic._format_id_fields. rewrite format_id_fields_keeps.
    + rewrite (format_uri_keeps _ _ _ _ _ Huri); by rewrite Hv.
    + intros key Hin Heq. apply append_inv_tail in Heq as ->.
      apply list_elem_of_fmap in Hin as ([k w] & -> & Hin).
      apply elem_of_map_to_list in Hin. simpl in *.
      rewrite (format_uri_keeps _ _ _ _ _ Huri) in Hin; [congruence|].
      by rewrite Hx.
Qed.

(** C7: a foreign key [f] that the projection excludes while [f_id] is
    not excluded is never dehydrated as a relationship: the integer field
    on the attribute [f_id] is dehydrated in its place, and the data that
    full dehydration returns hold its value, the bare identifier, under
    [f_id]. The name [f_id] is assumed free of a declared field and of a
    [dehydrate_] method of its own, and the bundle new. *)
Theorem excluded_foreign_key_yields_id (s s' : Self) (bundle bundle' : Bundle)
    (f : string) (fo : Generic.field) (ign : list string) :
  (f, fo) ∈ Generic.fields R →
  Generic.cls fo = Generic.BaseForeignKey →
  Generic.ignore_fields s = Some ign →
  f ∈ ign →
  (f +:+ "_id" ∉ ign) →
  (f +:+ "_id" ∉ (Generic.fields R).*1) →
  Generic.dehydrate_method R ("dehydrate_" +:+ f +:+ "_id") = None →
  Generic.data bundle !! f = None →
  full_dehydrate bundle s = (Return bundle', s') →
  ∃ v new,
    IntegerField_dehydrate (f +:+ "_id") bundle = Return v ∧
    Generic.data bundle' !! (f +:+ "_id") = Some v ∧
    (∀ o n, Generic.obj bundle = Some o →
            getattr o (f +:+ "_id") = Some (VInt n) → v = VInt n) ∧
    Generic.calls s' = new ++ Generic.calls s ∧
    (f +:+ "_id", Generic.IntegerField) ∈ new ∧
    ∀ c, (f, c) ∉ new.
Proof.
  intros Hin Hfk Hign Hf Hid Hfresh Hhook Hnew Hrun.
  unfold Generic.full_dehydrate in Hrun.
  unfold mbind, M_bind in Hrun.
  destruct (dehydrate_fields (Generic.fields R) bundle s)
    as [[b1|e] s1] eqn:Hloop; [|discriminate].
  destruct (dehydrate_fields_run f ign Hf Hid Hhook _ _ _ _ _ Hign Hfresh Hloop)
    as (Hobj & _ & _ & Hfd & (new & Hcalls & Hnof & Hcalled) & Hkey & _).
  assert (Hthe : Generic.foreign_key_in f (Generic.fields R)) by (by exists fo).
  destruct (Hkey Hthe) as (v & Hv & Hd).
  destruct (dehydrate_keeps b1 bundle' s1 s' f v Hrun) as [Hout Hsame].
  { by rewrite Hfd. }
  { exact Hd. }
  { by eapply IntegerField_dehydrate_value. }
  exists v, new. splits; try done.
  - intros o n Ho Ha. unfold Generic.IntegerField_dehydrate in Hv.
    rewrite Ho, Ha in Hv. simpl in Hv. by injection Hv as <-.
  - by rewrite Hsame.
  - by apply Hcalled.
Qed.
End Dehydration.

(** ** The sanitizer *)
Section Sanitizer.
Variable parse : string → list Utils.node.
Variable render : list Utils.node → string.
Variable acceptable_elements acceptable_attributes : list string.

Abbreviation clean_html :=
  (Utils.clean_html parse render acceptable_elements acceptable_attributes).
Abbreviation round :=
  (Utils.round parse render acceptable_elements acceptable_attributes).
Abbreviation scrub := (Utils.scrub acceptable_elements acceptable_attributes).
Abbreviation finds_bad_tag := (Utils.finds_bad_tag acceptable_elements).
Abbreviation untouched :=
  (Utils.untouched acceptable_elements acceptable_attributes).
Abbreviation pass :=
  (Utils.pass parse render acceptable_elements acceptable_attributes).

Lemma filter_acceptable_idempotent (attrs : list (string * string)) :
  filter (λ a, Utils.acceptable_attribute acceptable_attributes a = true)
    (filter (λ a, Utils.acceptable_attribute acceptable_attributes a = true) attrs)
  = filter (λ a, Utils.acceptable_attribute acceptable_attributes a = true) attrs.
Proof.
  induction attrs as [|a l IH]; [reflexivity|].
  rewrite filter_cons. case_decide as Ha; [|exact IH].
  rewrite filter_cons, decide_True by exact Ha. by rewrite IH.
Qed.

(** What the loop leaves has no tag left to extract, and the loop would
    leave it as it is. *)
Lemma scrub_node_untouched (n : Utils.node) : untouched (scrub n).
Proof.
  induction n as [s|name attrs contents IH] using Utils.node_nested_ind.
  - split; reflexivity.
  - assert (Hall : untouched (flat_map scrub contents)).
    { induction IH as [|x l [Hx1 Hx2] _ [IH1 IH2]]; [split; reflexivity|].
      split; simpl.
      - rewrite existsb_app, Hx1, IH1. reflexivity.
      - rewrite flat_map_app, Hx2, IH2. reflexivity. }
    destruct Hall as [H1 H2]. unfold Utils.untouched. simpl.
    destruct (Utils.acceptable_element acceptable_elements name) eqn:Hname;
      [|split; reflexivity].
    simpl. rewrite Hname, H1, H2, filter_acceptable_idempotent.
    split; reflexivity.
Qed.

Lemma scrub_untouched (soup : list Utils.node) :
  untouched (flat_map scrub soup).
Proof.
  induction soup as [|x l [IH1 IH2]]; [split; reflexivity|].
  destruct (scrub_node_untouched x) as [Hx1 Hx2]. split; simpl.
  - rewrite existsb_app, Hx1, IH1. reflexivity.
  - rewrite flat_map_app, Hx2, IH2. reflexivity.
Qed.

Lemma clean_html_unfold (fuel : nat) (x : string) :
  clean_html (S fuel) x
  = if (round x).1 then clean_html fuel (round x).2 else Some (round x).2.
Proof. reflexivity. Qed.

(** The rounds behind a result: each but the last extracted a tag. *)
Lemma clean_html_rounds (fuel : nat) :
  ∀ x y, clean_html fuel x = Some y →
    ∃ k, k < fuel ∧
      (∀ i, i < k → (round (Nat.iter i (λ f, (round f).2) x)).1 = true) ∧
      round (Nat.iter k (λ f, (round f).2) x) = (false, y).
Proof.
  induction fuel as [|fuel IH]; intros x y Hrun; [discriminate|].
  rewrite clean_html_unfold in Hrun.
  destruct (round x) as [removed x'] eqn:Hround. simpl in Hrun.
  destruct removed.
  - destruct (IH x' y Hrun) as (k & Hk & Hbefore & Hlast).
    exists (S k). split; [lia|]. split.
    + intros [|i] Hi.
      * change (Nat.iter 0 (λ f, (round f).2) x) with x. by rewrite Hround.
      * rewrite Nat.iter_succ_r, Hround. cbn [snd]. apply Hbefore. lia.
    + rewrite Nat.iter_succ_r, Hround. exact Hlast.
  - injection Hrun as <-.
    exists 0. split; [lia|]. split; [intros i Hi; lia|exact Hround].
Qed.

(** The flag of a pass is raised exactly when [findAll] lists a tag whose
    name is outside the list. *)
Lemma finds_bad_tag_spec (n : Utils.node) :
  finds_bad_tag n = true ↔
  ∃ tag, tag ∈ Utils.findAll n ∧
         Utils.tag_name tag ∉ acceptable_elements.
Proof.
  induction n as [s|name attrs contents IH] using Utils.node_nested_ind.
  - split; [discriminate|]. intros (tag & Hin & _). inversion Hin.
  - cbn [Utils.finds_bad_tag Utils.findAll].
    rewrite orb_true_iff, negb_true_iff, existsb_exists.
    unfold Utils.acceptable_element. rewrite bool_decide_eq_false.
    rewrite Forall_forall in IH. split.
    + intros [Hname|(x & Hx & Hbad)].
      * eexists. split; [left|exact Hname].
      * apply list_elem_of_In in Hx.
        apply (IH x Hx) in Hbad as (tag & Hin & Hname).
        exists tag. split; [|exact Hname]. right.
        apply list_elem_of_In, in_flat_map. exists x.
        split; apply list_elem_of_In; assumption.
    + intros (tag & Hin & Hname).
      apply elem_of_cons in Hin as [->|Hin]; [left; exact Hname|].
      right. apply list_elem_of_In, in_flat_map in Hin as (x & Hx & Hin).
      exists x. split; [exact Hx|].
      apply list_elem_of_In in Hx, Hin. apply (IH x Hx). eauto.
Qed.

Lemma strips_a_tag_spec (soup : list Utils.node) :
  existsb finds_bad_tag soup = true
  ↔ Utils.strips_a_tag acceptable_elements soup.
Proof.
  unfold Utils.strips_a_tag. rewrite existsb_exists. split.
  - intros (x & Hx & Hbad). apply finds_bad_tag_spec in Hbad
      as (tag & Hin & Hname).
    exists tag. split; [|exact Hname].
    apply list_elem_of_In, in_flat_map. exists x.
    split; [exact Hx|apply list_elem_of_In, Hin].
  - intros (tag & Hin & Hname).
    apply list_elem_of_In, in_flat_map in Hin as (x & Hx & Hin).
    exists x. split; [exact Hx|].
    apply finds_bad_tag_spec. exists tag.
    split; [apply list_elem_of_In, Hin|exact Hname].
Qed.

Lemma round_strips (x : string) :
  (round x).1 = true ↔ Utils.strips_a_tag acceptable_elements (parse x).
Proof. exact (strips_a_tag_spec (parse x)). Qed.

Lemma round_keeps (x : string) :
  (round x).1 = false ↔ ¬ Utils.strips_a_tag acceptable_elements (parse x).
Proof.
  rewrite <- round_strips. destruct (round x).1; split; congruence.
Qed.

(** With the fuel for it, the loop returns at the first round that
    extracts nothing. *)
Lemma clean_html_returns (k : nat) :
  ∀ fuel x, k < fuel →
    (∀ i, i < k → (round (Nat.iter i pass x)).1 = true) →
    (round (Nat.iter k pass x)).1 = false →
    clean_html fuel x = Some (pass (Nat.iter k pass x)).
Proof.
  induction k as [|k IH]; intros fuel x Hfuel Hbefore Hlast.
  - destruct fuel as [|fuel]; [lia|].
    rewrite clean_html_unfold.
    change (Nat.iter 0 pass x) with x in *. rewrite Hlast. reflexivity.
  - destruct fuel as [|fuel]; [lia|].
    rewrite clean_html_unfold.
    pose proof (Hbefore 0 ltac:(lia)) as H0.
    change (Nat.iter 0 pass x) with x in H0. rewrite H0.
    rewrite Nat.iter_succ_r in *.
    apply IH; [lia| |exact Hlast].
    intros i Hi. specialize (Hbefore (S i)).
    rewrite Nat.iter_succ_r in Hbefore. apply Hbefore. lia.
Qed.

(** C8: the [for] loop is idempotent on parse trees (what it leaves, it
    leaves alone). [clean_html] returns exactly when one of its passes
    finds no tag to extract, that is, no tag among those [findAll] lists
    with a name outside the list: with fuel for more than [k] passes it
    returns what the pass after [k] passes makes of the fragment, when
    each of the first [k] passes extracted a tag and that pass none; and
    it returns nothing else. So a result is what a pass has made of a
    fragment, the serialisation of a soup that the loop leaves alone;
    and whenever the parser reads what a pass has serialised back as the
    soup it was written from, cleaning it returns it unchanged, in a
    single pass. *)
Theorem clean_html_idempotent :
  (∀ soup, untouched (flat_map scrub soup)) ∧
  (∀ (fuel : nat) (x y : string),
     clean_html fuel x = Some y ↔
     ∃ k, k < fuel ∧
       (∀ i, i < k →
          Utils.strips_a_tag acceptable_elements (parse (Nat.iter i pass x))) ∧
       ¬ Utils.strips_a_tag acceptable_elements (parse (Nat.iter k pass x)) ∧
       y = pass (Nat.iter k pass x)) ∧
  (∀ x : string,
     parse (pass x) = flat_map scrub (parse x) →
     ∀ fuel, clean_html (S fuel) (pass x) = Some (pass x)).
Proof.
  split; [exact scrub_untouched|]. split.
  - intros fuel x y. split.
    + intros Hrun.
      destruct (clean_html_rounds fuel x y Hrun) as (k & Hk & Hbefore & Hlast).
      exists k. split; [exact Hk|]. split; [|split].
      * intros i Hi. apply round_strips, (Hbefore i Hi).
      * apply round_keeps. change (Nat.iter k pass x)
          with (Nat.iter k (λ f, (round f).2) x). by rewrite Hlast.
      * change (Nat.iter k pass x) with (Nat.iter k (λ f, (round f).2) x).
        change (pass ?f) with (round f).2. by rewrite Hlast.
    + intros (k & Hk & Hbefore & Hlast & ->).
      apply clean_html_returns; [exact Hk| |].
      * intros i Hi. apply round_strips, (Hbefore i Hi).
      * apply round_keeps, Hlast.
  - intros x Hback fuel.
    destruct (scrub_untouched (parse x)) as [Hu1 Hu2].
    rewrite clean_html_unfold. unfold Utils.round.
    rewrite Hback. cbv zeta. cbn [fst snd]. rewrite Hu1, Hu2.
    reflexivity.
Qed.
End Sanitizer.

Lemma excluded_foreign_key_yields_id_witness :
  let R := Sample.job_resource None in
  let s := Generic.set_ignore_fields
             (Some ["title"; "organization"; "title"; "organization"])
             (Sample.self_on Sample.alice "GET" "detail" (Some 1%Z) ∅ false) in
  let b := {| Generic.obj := Some Sample.job1; Generic.data := ∅ |} in
  ∃ b' s',
    Generic.full_dehydrate Sample.getattr "https://api.example.com"
      Sample.clean_html Sample.field_dehydrate R b s = (Return b', s') ∧
    Generic.data b' !! "organization_id" = Some (VInt 7) ∧
    ("organization_id", Generic.IntegerField) ∈ Generic.calls s' ∧
    ∀ c, ("organization", c) ∉ Generic.calls s'.
Proof.
  intros R s b.
  destruct (Generic.full_dehydrate Sample.getattr "https://api.example.com"
              Sample.clean_html Sample.field_dehydrate R b s)
    as [[b'|e] s'] eqn:Hrun; [|vm_compute in Hrun; discriminate].
  exists b', s'. split; [reflexivity|].
  destruct (excluded_foreign_key_yields_id Sample.getattr
              "https://api.example.com" Sample.clean_html Sample.field_dehydrate
              R s s' b b' "organization" Sample.foreign_key
              ["title"; "organization"; "title"; "organization"])
    as (v & new & Hv & Hd & _ & Hcalls & Hin & Hnot).
  - apply list_elem_of_In. simpl. tauto.
  - reflexivity.
  - reflexivity.
  - apply list_elem_of_In. simpl. tauto.
  - intros Hin. apply list_elem_of_In in Hin. simpl in Hin. intuition discriminate.
  - intros Hin. apply list_elem_of_In in Hin. simpl in Hin. intuition discriminate.
  - reflexivity.
  - reflexivity.
  - exact Hrun.
  - simpl in Hcalls. rewrite app_nil_r in Hcalls. rewrite Hcalls.
    split; [|split; [exact Hin|exact Hnot]].
    change ("organization" +:+ "_id") with "organization_id" in Hd.
    rewrite Hd. f_equal. vm_compute in Hv. by injection Hv as <-.
Defined.

(** The data that the sample returns for the first job. *)
Example dehydrated_job :
  let R := Sample.job_resource None in
  let s := Generic.set_ignore_fields
             (Some ["title"; "organization"; "title"; "organization"])
             (Sample.self_on Sample.alice "GET" "detail" (Some 1%Z) ∅ false) in
  let b := {| Generic.obj := Some Sample.job1; Generic.data := ∅ |} in
  match (Generic.full_dehydrate Sample.getattr "https://api.example.com"
           Sample.clean_html Sample.field_dehydrate R b s).1 with
  | Return b' =>
      map_to_list (Generic.data b')
      ≡ₚ [("id", VInt 1); ("organization_id", VInt 7);
          ("resource_uri", VStr "https://api.example.com/jobs/1/")]
  | Raise _ => False
  end.
Proof.
  vm_compute.
  repeat first [ apply Permutation_refl | apply perm_skip | apply perm_swap
               | etransitivity; [apply perm_swap|] ].
Qed.

Lemma render_single_text (t : string) : Sample.render [Utils.Text t] = t.
Proof.
  unfold Sample.render. simpl. induction t as [|c t IH]; [reflexivity|].
  rewrite append_cons. by rewrite IH.
Qed.

Lemma clean_html_idempotent_witness :
  let clean := Utils.clean_html Sample.parse_known Sample.render
                 Utils.default_acceptable_elements
                 Utils.default_acceptable_attributes in
  let x := "<b class='x'>Plumber</b><script>track()</script>" in
  clean 2 x = Some "<b>Plumber</b>" ∧
  ∀ fuel, clean (S fuel) "<b>Plumber</b>" = Some "<b>Plumber</b>".
Proof.
  intros clean x.
  destruct (clean_html_idempotent Sample.parse_known Sample.render
              Utils.default_acceptable_elements
              Utils.default_acceptable_attributes)
    as (_ & Hreturns & Hagain).
  split.
  - apply Hreturns. exists 1. split; [lia|]. split; [|split].
    + intros i Hi. assert (i = 0) as -> by lia.
      exists (Utils.Tag "script" [] [Utils.Text "track()"]). split.
      * apply list_elem_of_In. vm_compute. tauto.
      * intros Hin. apply list_elem_of_In in Hin. vm_compute in Hin.
        intuition discriminate.
    + intros (tag & Hin & Hname). apply list_elem_of_In in Hin.
      vm_compute in Hin. destruct Hin as [<-|[]]. apply Hname.
      apply list_elem_of_In. vm_compute. tauto.
    + vm_compute. reflexivity.
  - exact (Hagain "<b>Plumber</b>" eq_refl).
Defined.

(** On markup the loop goes round twice: the first round extracts the
    script and the attribute, the second finds nothing to extract. *)
Example clean_html_two_rounds :
  let clean := Utils.clean_html Sample.parse_known Sample.render
                 Utils.default_acceptable_elements
                 Utils.default_acceptable_attributes in
  clean 1 "<b class='x'>Plumber</b><script>track()</script>" = None ∧
  clean 2 "<b class='x'>Plumber</b><script>track()</script>"
    = Some "<b>Plumber</b>" ∧
  clean 1 "<b>Plumber</b>" = Some "<b>Plumber</b>".
Proof. vm_compute. repeat split. Qed.

(** On nested markup the loop goes round three times: extracting the inner
    tag leaves a text that reads as a tag in the second round, and the
    third round finds nothing to extract. *)
Example clean_html_nested_markup :
  let clean := Utils.clean_html Sample.parse_nested Sample.render
                 Utils.default_acceptable_elements
                 Utils.default_acceptable_attributes in
  let x := "<scr<script></script>ipt>track()</script>" in
  Utils.pass Sample.parse_nested Sample.render
    Utils.default_acceptable_elements Utils.default_acceptable_attributes x
  = "<script>track()</script>" ∧
  clean 2 x = None ∧
  clean 3 x = Some EmptyString.
Proof. vm_compute. repeat split. Qed.

(** ** Pages of the paginator *)
Section Pages.
Context {A : Type}.

(** A slice between two indices that are not negative and in order. *)
Lemma slice_window (l : list A) (i j : Z) :
  (0 ≤ i)%Z → (i ≤ j)%Z →
  Py.slice l i j = take (Z.to_nat (j - i)) (drop (Z.to_nat i) l).
Proof.
  intros Hi Hj. unfold Py.slice, Py.clamp_index.
  destruct (Z.ltb_spec i 0) as [?|_]; [lia|].
  destruct (Z.ltb_spec j 0) as [?|_]; [lia|].
  destruct (Z.le_gt_cases i (Z.of_nat (length l))) as [Hle|Hgt].
  - rewrite (Z.min_l i) by lia.
    destruct (Z.le_gt_cases j (Z.of_nat (length l))) as [Hle'|Hgt'].
    + rewrite Z.min_l by lia. reflexivity.
    + rewrite Z.min_r by lia.
      rewrite !take_ge; [reflexivity| |]; rewrite length_drop; lia.
  - rewrite !Z.min_r by lia. rewrite !drop_ge by lia. rewrite !take_nil.
    reflexivity.
Qed.

(** A page of a positive limit from an offset that is not negative. *)
Lemma get_slice_window (self : Paginator.BasePaginator A) (limit offset : Z) :
  (0 < limit)%Z → (0 ≤ offset)%Z →
  Paginator.get_slice self limit offset
  = take (Z.to_nat limit) (drop (Z.to_nat offset) (Paginator.objects self)).
Proof.
  intros Hl Ho. unfold Paginator.get_slice.
  destruct (Z.eqb_spec limit 0) as [?|_]; [lia|].
  rewrite slice_window by lia. f_equal. lia.
Qed.

Lemma pages_take (self : Paginator.BasePaginator A) (limit : Z) (n : nat) :
  (0 < limit)%Z →
  concat (Paginator.pages self limit n)
  = take (n * Z.to_nat limit) (Paginator.objects self).
Proof.
  intros Hl. unfold Paginator.pages. induction n as [|n IH]; [reflexivity|].
  rewrite seq_S, fmap_app, concat_app, IH. simpl. rewrite app_nil_r.
  rewrite get_slice_window by lia.
  replace (Z.to_nat (Z.of_nat n * limit)) with (n * Z.to_nat limit) by lia.
  rewrite take_take_drop. f_equal. lia.
Qed.

(** X1: with a positive limit, the pages read at the offsets 0, [limit],
    2 [limit], ... are consecutive segments of the collection: put end to
    end, the first [n] of them are its first [n * limit] objects, so they
    are the whole collection, each object once and in order, as soon as
    [n * limit] reaches its size; a page never holds more than [limit]
    objects, and a page read at or past the end is empty. *)
Theorem pages_cover_the_collection (self : Paginator.BasePaginator A)
    (limit : Z) (n : nat) :
  (0 < limit)%Z →
  concat (Paginator.pages self limit n)
    = take (n * Z.to_nat limit) (Paginator.objects self) ∧
  ((List.length (Paginator.objects self) ≤ n * Z.to_nat limit)%nat →
     concat (Paginator.pages self limit n) = Paginator.objects self) ∧
  (∀ offset, (0 ≤ offset)%Z →
     (Z.of_nat (List.length (Paginator.get_slice self limit offset)) ≤ limit)%Z) ∧
  (∀ offset, (Z.of_nat (List.length (Paginator.objects self)) ≤ offset)%Z →
     Paginator.get_slice self limit offset = []).
Proof.
  intros Hl. splits.
  - apply pages_take, Hl.
  - intros Hn. rewrite pages_take by exact Hl. apply take_ge. exact Hn.
  - intros offset Ho. rewrite get_slice_window by lia.
    rewrite length_take. lia.
  - intros offset Ho. rewrite get_slice_window by lia.
    rewrite drop_ge by lia. apply take_nil.
Qed.
End Pages.

Lemma pages_cover_the_collection_witness :
  concat (Paginator.pages Sample.page_request 2 2) = [10; 20; 30]%Z.
Proof.
  apply (pages_cover_the_collection Sample.page_request 2 2); simpl; lia.
Defined.

(** ** Texts and lists of texts *)

Lemma chars_append (a b : string) :
  Py.chars (a +:+ b) = Py.chars a ++ Py.chars b.
Proof.
  induction a as [|c a IH]; [reflexivity|].
  rewrite append_cons. simpl. f_equal. exact IH.
Qed.

Lemma chars_str (l : list ascii) : Py.chars (Py.str l) = l.
Proof. apply list_ascii_of_string_of_list_ascii. Qed.

Lemma str_chars (s : string) : Py.str (Py.chars s) = s.
Proof. apply string_of_list_ascii_of_string. Qed.

Lemma chars_nil (s : string) : Py.chars s = [] → s = EmptyString.
Proof. destruct s; [reflexivity|discriminate]. Qed.

(** Up to the next separator, [split] gathers the characters it reads. *)
Lemma split_chars_app (sep : ascii) (cur x rest : list ascii) :
  sep ∉ x →
  Py.split_chars sep cur (x ++ rest) = Py.split_chars sep (rev x ++ cur) rest.
Proof.
  revert cur. induction x as [|c x IH]; intros cur Hx; [reflexivity|].
  simpl. destruct (Ascii.eqb_spec c sep) as [->|_].
  - exfalso. apply Hx. left.
  - rewrite IH by (intros ?; apply Hx; right; assumption).
    rewrite <- app_assoc. reflexivity.
Qed.

(** Splitting what [join] has put together gives the pieces back. *)
Lemma split_join (sep : ascii) (l : list string) :
  l ≠ [] →
  Forall (λ x, sep ∉ Py.chars x) l →
  Py.split sep (Py.join (String sep EmptyString) l) = l.
Proof.
  unfold Py.split. intros Hl Hall.
  induction l as [|x l IH]; [contradiction|].
  apply Forall_cons in Hall as [Hx Hall].
  destruct l as [|y l].
  - simpl. rewrite <- (app_nil_r (Py.chars x)).
    rewrite split_chars_app by exact Hx. simpl.
    rewrite app_nil_r, rev_involutive, str_chars. reflexivity.
  - change (Py.join (String sep EmptyString) (x :: y :: l))
      with (x +:+ String sep EmptyString
              +:+ Py.join (String sep EmptyString) (y :: l)).
    rewrite !chars_append. rewrite split_chars_app by exact Hx.
    simpl. rewrite Ascii.eqb_refl.
    rewrite app_nil_r, rev_involutive, str_chars. f_equal.
    apply IH; [discriminate|exact Hall].
Qed.

(** The text that [join] builds begins as its first piece does. *)
Lemma join_head (sep : string) (x : string) (l : list string) :
  ∃ rest, Py.chars (Py.join sep (x :: l)) = Py.chars x ++ rest.
Proof.
  destruct l as [|y l].
  - exists []. simpl. rewrite app_nil_r. reflexivity.
  - change (Py.join sep (x :: y :: l))
      with (x +:+ sep +:+ Py.join sep (y :: l)).
    rewrite chars_append. eauto.
Qed.

(** ... and ends as its last piece does, after a separator when there are
    two pieces or more. *)
Lemma join_last (sep : string) (x : string) (l : list string) :
  Py.join sep (x :: l) = x ∧ l = [] ∨
  ∃ pre, Py.chars (Py.join sep (x :: l))
         = pre ++ Py.chars sep ++ Py.chars (List.last (x :: l) EmptyString).
Proof.
  revert x. induction l as [|y l IH]; intros x; [left; split; reflexivity|].
  right.
  change (Py.join sep (x :: y :: l)) with (x +:+ sep +:+ Py.join sep (y :: l)).
  change (List.last (x :: y :: l) EmptyString)
    with (List.last (y :: l) EmptyString).
  rewrite !chars_append.
  destruct (IH y) as [[Hj ->]|[pre Hpre]].
  - exists (Py.chars x). rewrite Hj. reflexivity.
  - exists (Py.chars x ++ Py.chars sep ++ pre). rewrite Hpre.
    rewrite <- !app_assoc. reflexivity.
Qed.

Lemma drop_while_stops {A} (p : A → bool) (x : A) (l : list A) :
  p x = false → Py.drop_while p (x :: l) = x :: l.
Proof. intros Hx. simpl. rewrite Hx. reflexivity. Qed.

Lemma drop_while_skips {A} (p : A → bool) (x : A) (l : list A) :
  p x = true → Py.drop_while p (x :: l) = Py.drop_while p l.
Proof. intros Hx. simpl. rewrite Hx. reflexivity. Qed.

Lemma startswith_cons (c d : ascii) (s : string) :
  Py.startswith (String c s) (String d EmptyString) = false → c ≠ d.
Proof.
  unfold Py.startswith. intros H ->.
  apply bool_decide_eq_false in H. apply H. simpl.
  exists (Py.chars s). reflexivity.
Qed.

Lemma endswith_snoc (c d : ascii) (l : list ascii) (s : string) :
  Py.chars s = l ++ [c] →
  Py.endswith s (String d EmptyString) = false → c ≠ d.
Proof.
  unfold Py.endswith. intros Hs H ->.
  apply bool_decide_eq_false in H. apply H. rewrite Hs. simpl.
  exists l. reflexivity.
Qed.

(** A bracketed, comma-separated text is read back by [_string_to_list] as
    its pieces, when these contain no comma, begin and end with no blank,
    the first is not empty and does not begin with an opening bracket, and
    the last does not end with a closing bracket. *)
Lemma string_to_list_of_list_parameter (l : list string) :
  Forall (λ x, (","%char ∉ Py.chars x) ∧ Py.strip x = x) l →
  hd EmptyString l ≠ EmptyString →
  Py.startswith (hd EmptyString l) "[" = false →
  Py.endswith (List.last l EmptyString) "]" = false →
  Fields._string_to_list (Utils.list_parameter l) = Some l.
Proof.
  intros Hall Hhd Hopen Hclose.
  destruct l as [|x xs]; [contradiction|].
  simpl in Hhd, Hopen.
  assert (Hsplit : Py.split "," (Py.join "," (x :: xs)) = x :: xs).
  { apply split_join; [discriminate|].
    eapply Forall_impl; [exact Hall|]. intros ? [? _]. assumption. }
  assert (Hstrip : Py.strip <$> (x :: xs) = x :: xs).
  { clear -Hall. induction Hall as [|y ys [_ Hy] _ IH]; [reflexivity|].
    rewrite fmap_cons, Hy, IH. reflexivity. }
  (* the brackets come off, and nothing else *)
  assert (Hbody : Py.rstrip (Py.lstrip (Utils.list_parameter (x :: xs)) "[") "]"
                  = Py.join "," (x :: xs)).
  { destruct x as [|c x]; [contradiction|]. apply startswith_cons in Hopen.
    destruct (join_head "," (String c x) xs) as [rest Hrest].
    assert (Hend : ∃ d r, rev (Py.chars (Py.join "," (String c x :: xs))) = d :: r
                          ∧ d ≠ "]"%char).
    { destruct (join_last "," (String c x) xs) as [[Hj ->]|[pre Hpre]].
      - rewrite Hj. simpl in Hclose.
        destruct (rev (Py.chars (String c x))) as [|d r] eqn:Hrev.
        + apply (f_equal (@rev _)) in Hrev. rewrite rev_involutive in Hrev.
          discriminate.
        + exists d, r. split; [reflexivity|].
          apply (endswith_snoc d "]" (rev r) (String c x)); [|exact Hclose].
          rewrite <- (rev_involutive (Py.chars (String c x))), Hrev.
          reflexivity.
      - rewrite Hpre. clear Hpre.
        remember (List.last (String c x :: xs) EmptyString) as z eqn:Hz.
        clear Hz.
        destruct (rev (Py.chars z)) as [|d r] eqn:Hrev.
        + apply (f_equal (@rev _)) in Hrev. rewrite rev_involutive in Hrev.
          simpl in Hrev. rewrite Hrev, app_nil_r, rev_app_distr. simpl.
          eexists _, _. split; [reflexivity|discriminate].
        + rewrite app_assoc, rev_app_distr, Hrev. simpl.
          eexists _, _. split; [reflexivity|].
          apply (endswith_snoc d "]" (rev r) z); [|exact Hclose].
          rewrite <- (rev_involutive (Py.chars z)), Hrev. reflexivity. }
    destruct Hend as (d & r & Hrev & Hd).
    unfold Utils.list_parameter.
    remember (Py.join "," (String c x :: xs)) as body eqn:Hb. clear Hb.
    unfold Py.lstrip, Py.rstrip.
    rewrite append_cons, append_empty.
    change (Py.chars (String "[" (body +:+ "]")))
      with ("["%char :: Py.chars (body +:+ "]")).
    rewrite drop_while_skips by reflexivity.
    rewrite chars_append, Hrest.
    change (Py.chars (String c x)) with (c :: Py.chars x).
    rewrite <- !app_comm_cons.
    rewrite drop_while_stops.
    2:{ unfold Py.mem_char. apply bool_decide_eq_false.
        change (Py.chars "[") with ["["%char].
        rewrite list_elem_of_singleton. exact Hopen. }
    rewrite chars_str.
    change (c :: (Py.chars x ++ rest) ++ Py.chars "]")
      with ((Py.chars (String c x) ++ rest) ++ ["]"%char]).
    rewrite <- Hrest. rewrite rev_app_distr.
    change (rev ["]"%char] ++ ?t) with ("]"%char :: t).
    rewrite drop_while_skips by reflexivity.
    rewrite Hrev. rewrite drop_while_stops.
    2:{ unfold Py.mem_char. apply bool_decide_eq_false.
        change (Py.chars "]") with ["]"%char].
        rewrite list_elem_of_singleton. exact Hd. }
    rewrite <- Hrev, rev_involutive, str_chars. reflexivity. }
  unfold Fields._string_to_list.
  replace (String.eqb (Utils.list_parameter (x :: xs)) EmptyString) with false
    by (unfold Utils.list_parameter; rewrite append_cons; reflexivity).
  simpl negb. cbv iota. rewrite Hbody, Hsplit. simpl hd.
  destruct (String.eqb_spec x EmptyString) as [->|_]; [contradiction|].
  simpl negb. cbv iota. rewrite Hstrip. reflexivity.
Qed.

(** X2: the text that [access_resource] makes of a list parameter is read
    back by [ListField._string_to_list] as the list of the texts of its
    elements, provided these contain no comma, begin and end with no
    blank, the first of them is not empty and does not begin with an
    opening bracket, and the last does not end with a closing bracket. *)
Theorem list_parameter_is_read_back (params : gmap string Utils.param)
    (key : string) (l : list Utils.atom) :
  params !! key = Some (Utils.PList l) →
  Forall (λ x, (","%char ∉ Py.chars x) ∧ Py.strip x = x) (Utils.str_of <$> l) →
  hd EmptyString (Utils.str_of <$> l) ≠ EmptyString →
  Py.startswith (hd EmptyString (Utils.str_of <$> l)) "[" = false →
  Py.endswith (List.last (Utils.str_of <$> l) EmptyString) "]" = false →
  ∃ text,
    Utils.stringify_params (Some params) !! key = Some (Utils.AStr text) ∧
    Fields._string_to_list text = Some (Utils.str_of <$> l).
Proof.
  intros Hkey Hall Hhd Hopen Hclose.
  exists (Utils.list_parameter (Utils.str_of <$> l)). split.
  - unfold Utils.stringify_params. simpl. rewrite lookup_fmap, Hkey.
    reflexivity.
  - apply string_to_list_of_list_parameter; assumption.
Qed.

Lemma list_parameter_is_read_back_witness :
  ∃ text,
    Utils.stringify_params
      (Some {[ "ids" := Utils.PList [Utils.AInt 3; Utils.AInt 12; Utils.AStr "x y"] ]})
      !! "ids" = Some (Utils.AStr text) ∧
    Fields._string_to_list text = Some ["3"; "12"; "x y"].
Proof.
  apply (list_parameter_is_read_back
           {[ "ids" := Utils.PList [Utils.AInt 3; Utils.AInt 12; Utils.AStr "x y"] ]}
           "ids" [Utils.AInt 3; Utils.AInt 12; Utils.AStr "x y"]).
  - vm_compute. reflexivity.
  - repeat (apply Forall_cons; split;
            [split; [apply (bool_decide_unpack _); vm_compute; exact I
                    |vm_compute; reflexivity]|]).
    apply Forall_nil. exact I.
  - discriminate.
  - vm_compute. reflexivity.
  - vm_compute. reflexivity.
Defined.

(** The text made of the list [3, 12, "x y"]. *)
Example stringified_identifiers :
  Utils.stringify_params
    (Some {[ "ids" := Utils.PList [Utils.AInt 3; Utils.AInt 12; Utils.AStr "x y"] ]})
  !! "ids" = Some (Utils.AStr "[3,12,x y]").
Proof. vm_compute. reflexivity. Qed.

(** ** The shape of a cleaned list *)
Section Stripping.
Context {A : Type} (p : A → bool).

Lemma drop_while_head (l : list A) :
  Py.drop_while p l = [] ∨
  ∃ x r, Py.drop_while p l = x :: r ∧ p x = false.
Proof.
  induction l as [|x l IH]; [left; reflexivity|].
  simpl. destruct (p x) eqn:Hx; [exact IH|]. right. eauto.
Qed.

Lemma drop_while_suffix (l : list A) : ∃ d, l = d ++ Py.drop_while p l.
Proof.
  induction l as [|x l [d IH]]; [exists []; reflexivity|].
  simpl. destruct (p x).
  - exists (x :: d). simpl. f_equal. exact IH.
  - exists []. reflexivity.
Qed.

Lemma drop_while_idempotent (l : list A) :
  Py.drop_while p (Py.drop_while p l) = Py.drop_while p l.
Proof.
  destruct (drop_while_head l) as [->|(x & r & -> & Hx)]; [reflexivity|].
  apply drop_while_stops, Hx.
Qed.

(** What is dropped satisfies the test, so the count of anything that
    does not is kept. *)
Lemma drop_while_keeps (q : A → Prop) `{∀ x, Decision (q x)} (l : list A) :
  (∀ x, q x → p x = false) →
  length (filter q (Py.drop_while p l)) = length (filter q l).
Proof.
  intros Hq. induction l as [|x l IH]; [reflexivity|].
  simpl. destruct (p x) eqn:Hx; [|reflexivity].
  rewrite IH, filter_cons_False; [reflexivity|].
  intros Hqx. apply Hq in Hqx. congruence.
Qed.

(** Dropping at both ends, as [strip] does. *)
Lemma strip_both_ends (l : list A) :
  let b := rev (Py.drop_while p (rev (Py.drop_while p l))) in
  Py.drop_while p b = b ∧ Py.drop_while p (rev b) = rev b.
Proof.
  intros b. subst b. split.
  - destruct (drop_while_suffix (rev (Py.drop_while p l))) as [d Hd].
    apply (f_equal (@rev _)) in Hd.
    rewrite rev_involutive, rev_app_distr in Hd.
    destruct (rev (Py.drop_while p (rev (Py.drop_while p l))))
      as [|x r] eqn:Hb; [reflexivity|].
    destruct (drop_while_head l) as [Hnil|(y & r' & Hy & Hpy)].
    + rewrite Hnil in Hd. discriminate.
    + rewrite Hy in Hd. injection Hd as -> _.
      apply drop_while_stops, Hpy.
  - rewrite rev_involutive. apply drop_while_idempotent.
Qed.
End Stripping.

Lemma strip_idempotent (s : string) : Py.strip (Py.strip s) = Py.strip s.
Proof.
  unfold Py.strip at 1. unfold Py.strip at 1. rewrite chars_str.
  destruct (strip_both_ends Py.is_space (Py.chars s)) as [H1 H2].
  rewrite H1, H2, rev_involutive. reflexivity.
Qed.

(** [split] returns one piece more than there are separators. *)
Lemma length_split_chars (sep : ascii) (cur l : list ascii) :
  length (Py.split_chars sep cur l) = S (length (filter (λ c, c = sep) l)).
Proof.
  revert cur. induction l as [|c l IH]; intros cur; [reflexivity|].
  simpl. destruct (Ascii.eqb_spec c sep) as [->|Hne].
  - rewrite filter_cons_True by reflexivity. simpl. rewrite IH. reflexivity.
  - rewrite filter_cons_False by exact Hne. apply IH.
Qed.

Lemma length_filter_rev {A} (q : A → Prop) `{∀ x, Decision (q x)} (l : list A) :
  length (filter q (rev l)) = length (filter q l).
Proof.
  induction l as [|x l IH]; [reflexivity|].
  simpl. rewrite filter_app, length_app, IH.
  rewrite (filter_cons q x l), (filter_cons q x []).
  destruct (decide (q x)); simpl; lia.
Qed.

(** X3: [ListField._string_to_list] returns [None] for the empty text
    only; the list it returns for any other text is empty, or has one
    element more than the text has commas, and none of its elements begins
    or ends with a blank. *)
Theorem string_to_list_shape (s : string) :
  (Fields._string_to_list s = None ↔ s = EmptyString) ∧
  ∀ l, Fields._string_to_list s = Some l →
    (l = [] ∨ length l = S (length (filter (λ c, c = ","%char) (Py.chars s)))) ∧
    Forall (λ x, Py.strip x = x) l.
Proof.
  unfold Fields._string_to_list. split.
  - destruct (String.eqb_spec s EmptyString) as [->|Hs]; simpl.
    + split; reflexivity.
    + split; [|contradiction].
      destruct (negb _); discriminate.
  - intros l. destruct (String.eqb_spec s EmptyString) as [->|Hs]; simpl;
      [discriminate|].
    destruct (negb _); intros [= <-]; [|split; [left; reflexivity|constructor]].
    split.
    + right. rewrite length_fmap. unfold Py.split.
      rewrite length_split_chars. f_equal.
      unfold Py.rstrip, Py.lstrip. rewrite !chars_str.
      rewrite length_filter_rev.
      rewrite drop_while_keeps.
      2:{ intros c ->. reflexivity. }
      rewrite length_filter_rev.
      apply drop_while_keeps. intros c ->. reflexivity.
    + apply Forall_fmap, Forall_forall. intros x _. simpl.
      apply strip_idempotent.
Qed.

Lemma string_to_list_shape_witness :
  Forall (λ x, Py.strip x = x) ["a"; "'b'"; "c d"].
Proof.
  apply (proj2 (string_to_list_shape "[ a ,'b', c d ]") ["a"; "'b'"; "c d"]).
  vm_compute. reflexivity.
Defined.

(** ** The list of integers *)
Section IntegerList.
Local Open Scope Z_scope.
Variable regex_field_clean : Fields.ListField → value → outcome string.

Abbreviation integer_list_clean :=
  (Fields.IntegerListField_clean regex_field_clean).

Lemma ints_of_numerals (l : list string) (ns : list Z) :
  Forall2 (λ x n, Py.int_of_string x = Some n) l ns →
  Fields.ints (VStr <$> l) = Return (VInt <$> ns).
Proof.
  induction 1 as [|x n l ns Hx _ IH]; [reflexivity|].
  rewrite !fmap_cons. cbn [Fields.ints Py.int]. rewrite Hx, IH. reflexivity.
Qed.

Lemma ints_of_other_text (l : list string) (x : string) :
  x ∈ l → Py.int_of_string x = None →
  ∃ a, Fields.ints (VStr <$> l) = Raise (ValueError a).
Proof.
  intros Hin Hx. induction l as [|y l IH]; [inversion Hin|].
  rewrite fmap_cons. cbn [Fields.ints Py.int].
  destruct (Py.int_of_string y) as [n|] eqn:Hy; [|eauto].
  apply elem_of_cons in Hin as [->|Hin]; [congruence|].
  destruct (IH Hin) as [a ->]. eauto.
Qed.

(** X4: [IntegerListField.clean], on a text that the pattern accepts and
    that reads as the list [l]: a [max_items] that is neither [None] nor
    0 and is below the length of [l] is a validation error, whatever the
    elements are; otherwise the result is the list of the integers the
    elements denote, and an element that denotes none (a quoted one, for
    instance, which the pattern lets through) ends [clean] with a
    [ValueError], which is no validation error. An empty text is cleaned
    to [None]. *)
Theorem integer_list_clean_outcomes (self : Fields.IntegerListField)
    (v : value) (s : string) (l : list string) :
  regex_field_clean (Fields.list_field self) v = Return s →
  Fields._string_to_list s = Some l →
  (∀ m, Fields.max_items self = Some m → m ≠ 0 → m < Z.of_nat (length l) →
     integer_list_clean self v
     = Raise (ValidationError [Fields.too_many_message m])) ∧
  (Fields.max_items self = None ∨ Fields.max_items self = Some 0 ∨
   (∃ m, Fields.max_items self = Some m ∧ Z.of_nat (length l) ≤ m) →
     (∀ ns, Forall2 (λ x n, Py.int_of_string x = Some n) l ns →
        integer_list_clean self v = Return (VList (VInt <$> ns))) ∧
     (∀ x, x ∈ l → Py.int_of_string x = None →
        ∃ a, integer_list_clean self v = Raise (ValueError a))).
Proof.
  intros Hs Hl.
  assert (Hrun : integer_list_clean self v =
    let converted :=
      match Fields.ints (VStr <$> l) with
      | Raise e => Raise e
      | Return r => Return (VList r)
      end in
    match Fields.max_items self with
    | Some m =>
        if negb (m =? 0) && (m <? Z.of_nat (length l))
        then Raise (ValidationError [Fields.too_many_message m])
        else converted
    | None => converted
    end).
  { unfold Fields.IntegerListField_clean, Fields.ListField_clean.
    rewrite Hs, Hl, length_fmap. reflexivity. }
  assert (Hfree :
    Fields.max_items self = None ∨ Fields.max_items self = Some 0 ∨
    (∃ m, Fields.max_items self = Some m ∧ Z.of_nat (length l) ≤ m) →
    integer_list_clean self v =
    match Fields.ints (VStr <$> l) with
    | Raise e => Raise e
    | Return r => Return (VList r)
    end).
  { rewrite Hrun. intros [->|[->|(m & -> & Hm)]]; try reflexivity.
    simpl. destruct (Z.ltb_spec m (Z.of_nat (length l))); [lia|].
    rewrite andb_false_r. reflexivity. }
  split; [|intros Hu; split].
  - intros m Hm Hne Hlt. rewrite Hrun, Hm. simpl.
    destruct (Z.eqb_spec m 0); [contradiction|].
    destruct (Z.ltb_spec m (Z.of_nat (length l))); [reflexivity|lia].
  - intros ns Hns. rewrite (Hfree Hu), (ints_of_numerals l ns Hns).
    reflexivity.
  - intros x Hin Hx. rewrite (Hfree Hu).
    destruct (ints_of_other_text l x Hin Hx) as [a ->]. eauto.
Qed.

(** An empty text is cleaned to [None], not to an empty list. *)
Lemma integer_list_clean_empty (self : Fields.IntegerListField) (v : value) :
  regex_field_clean (Fields.list_field self) v = Return EmptyString →
  integer_list_clean self v = Return VNone.
Proof.
  intros Hs. unfold Fields.IntegerListField_clean, Fields.ListField_clean.
  rewrite Hs. reflexivity.
Qed.
End IntegerList.

Lemma integer_list_clean_outcomes_witness :
  let clean := Fields.IntegerListField_clean Sample.accept_all in
  clean (Fields.IntegerListField_init (Some 2%Z) false None) (VStr "[4, 8,15]")
  = Raise (ValidationError [Fields.too_many_message 2]) ∧
  clean (Fields.IntegerListField_init (Some 0%Z) false None) (VStr "[4, 8,15]")
  = Return (VList [VInt 4; VInt 8; VInt 15]) ∧
  ∃ a, clean (Fields.IntegerListField_init None false None) (VStr "[4,'8']")
       = Raise (ValueError a).
Proof.
  intros clean. subst clean. splits.
  - apply (proj1 (integer_list_clean_outcomes Sample.accept_all
             (Fields.IntegerListField_init (Some 2%Z) false None)
             (VStr "[4, 8,15]") "[4, 8,15]" ["4"; "8"; "15"]
             eq_refl eq_refl) 2%Z); [reflexivity|lia|simpl; lia].
  - destruct (proj2 (integer_list_clean_outcomes Sample.accept_all
             (Fields.IntegerListField_init (Some 0%Z) false None)
             (VStr "[4, 8,15]") "[4, 8,15]" ["4"; "8"; "15"]
             eq_refl eq_refl)) as [H _]; [right; left; reflexivity|].
    apply (H [4; 8; 15]%Z). repeat constructor.
  - destruct (proj2 (integer_list_clean_outcomes Sample.accept_all
             (Fields.IntegerListField_init None false None)
             (VStr "[4,'8']") "[4,'8']" ["4"; "'8'"] eq_refl eq_refl))
      as [_ H]; [left; reflexivity|].
    apply (H "'8'"); [|reflexivity].
    apply list_elem_of_In. simpl. tauto.
Defined.

(** ** The date-time field: values without an offset, and errors *)
Section ISODateTimeEdges.
Local Open Scope Z_scope.
Variable choices : list (string * string).
(* the offsets of a zone table that pytz localizes without an exception *)
Variable localize : string → Fields.datetime → Z.
Variable parse : string → outcome (Fields.datetime * option Fields.tzinfo).

Abbreviation clean_value :=
  (Fields.clean choices (λ name dt, Return (localize name dt)) parse).

(** The loop of [get_timezone_string] stops at the first zone whose offset
    at the wall-clock time is the offset of the value. *)
Lemma first_matching_zone_find (l : list (string * string))
    (wall : Fields.datetime) (o : Z) :
  Fields.first_matching_zone (λ name dt, Return (localize name dt)) l wall o
  = Return (fst <$> List.find (λ c, localize c.1 wall =? o) l).
Proof.
  induction l as [|c l IH]; [reflexivity|].
  rewrite first_matching_zone_cons. simpl List.find.
  destruct (localize c.1 wall =? o); [reflexivity|exact IH].
Qed.

(** X5: a value that the parser reads with no zone at all, or with a zone
    equal to the local one, is taken to be on the UTC line as it stands:
    its wall-clock time is returned unchanged as the UTC time, with the
    first zone of the table whose offset at that time is 0; when the
    table has no such zone the value is rejected with the
    malformed-timezone message. *)
Theorem iso_datetime_without_offset_is_utc (self : Fields.ISODateTimeField)
    (v : string) (wall : Fields.datetime) (tz : option Fields.tzinfo) :
  v ≠ EmptyString →
  parse v = Return (wall, tz) →
  (tz = None ∨ ∃ t, tz = Some t ∧ Fields.equals_tzlocal t = true) →
  (∀ c, c ∈ choices → c.1 ≠ EmptyString) →
  clean_value self (Some v)
  = match List.find (λ c, localize c.1 wall =? 0) choices with
    | Some c => Return (Some {| Fields.timezone := c.1;
                                Fields.utc_time := wall |})
    | None => Raise (ValidationError [Fields.malformed_timezone_message])
    end.
Proof.
  intros Hv Hparse Htz Hnames.
  unfold Fields.clean, Fields.clean_body, Fields.get_timezone_string.
  apply String.eqb_neq in Hv. rewrite Hv, Hparse. simpl.
  assert (Haware :
    match tz with
    | None => Return (0, 0)
    | Some t =>
        if Fields.equals_tzlocal t then Return (0, 0)
        else match Fields.offset_attr t with
             | None => Raise AttributeError
             | Some o =>
                 Return (Fields.utcoffset t,
                         Fields.timedelta_seconds o
                         + Fields.timedelta_days o * 24 * 60 * 60)
             end
    end = Return (0, 0)).
  { destruct Htz as [->|(t & -> & ->)]; reflexivity. }
  rewrite Haware. rewrite first_matching_zone_find.
  destruct (List.find _ choices) as [c|] eqn:Hfind; simpl; [|reflexivity].
  apply find_some in Hfind as [Hin _]. apply list_elem_of_In in Hin.
  apply Hnames, String.eqb_neq in Hin. rewrite Hin.
  rewrite astimezone_utc_zero. reflexivity.
Qed.
End ISODateTimeEdges.

Section ISODateTimeOutcomes.
Local Open Scope Z_scope.
Variable choices : list (string * string).
Variable localize : string → Fields.datetime → outcome Z.
Variable parse : string → outcome (Fields.datetime * option Fields.tzinfo).

Abbreviation clean_outcome := (Fields.clean choices localize parse).

(** X6: what [clean] makes of a value that is not empty. An exception of
    the parser comes out as it is, except a [ValueError], which comes
    out as the validation error that quotes it before the format
    reminder. A value read with a zone that is not the local one and has
    no [_offset] attribute is an [AttributeError]. A value read with a
    zone that has one is searched in the table, by its UTC offset: when
    the zones before the first one with that offset are localized
    without an exception, the result is the name of that zone with the
    wall-clock time less the offset, or an [OverflowError] when that
    time is outside the range of [datetime]; a table that has no zone
    with that offset is the malformed-timezone error; and an exception
    of pytz on the way comes out as one of the parser does. *)
Theorem iso_datetime_clean_outcomes (self : Fields.ISODateTimeField) :
  (∀ c, c ∈ choices → c.1 ≠ EmptyString) →
  (∀ v e, v ≠ EmptyString → parse v = Raise e →
     clean_outcome self (Some v)
     = Raise match e with
             | ValueError a =>
                 ValidationError [a +:+ ". " +:+ Fields.invalid_error_message]
             | _ => e
             end) ∧
  (∀ v wall t, v ≠ EmptyString → parse v = Return (wall, Some t) →
     Fields.equals_tzlocal t = false →
     (Fields.offset_attr t = None →
        clean_outcome self (Some v) = Raise AttributeError) ∧
     (is_Some (Fields.offset_attr t) →
        (∀ before c after, choices = before ++ c :: after →
           (∀ b, b ∈ before →
              ∃ off, localize b.1 wall = Return off ∧
                     off ≠ Fields.utcoffset t) →
           (localize c.1 wall = Return (Fields.utcoffset t) →
              (Fields.in_range (Fields.seconds wall - Fields.utcoffset t)
               = true →
                 ∃ utc,
                   Fields.seconds utc
                   = Fields.seconds wall - Fields.utcoffset t ∧
                   clean_outcome self (Some v)
                   = Return (Some {| Fields.timezone := c.1;
                                     Fields.utc_time := utc |})) ∧
              (Fields.in_range (Fields.seconds wall - Fields.utcoffset t)
               = false →
                 clean_outcome self (Some v) = Raise OverflowError)) ∧
           (∀ e, localize c.1 wall = Raise e →
              clean_outcome self (Some v)
              = Raise match e with
                      | ValueError a =>
                          ValidationError
                            [a +:+ ". " +:+ Fields.invalid_error_message]
                      | _ => e
                      end)) ∧
        ((∀ b, b ∈ choices →
            ∃ off, localize b.1 wall = Return off ∧
                   off ≠ Fields.utcoffset t) →
           clean_outcome self (Some v)
           = Raise (ValidationError [Fields.malformed_timezone_message])))).
Proof.
  intros Hnames. split.
  { intros v e Hv Hparse. unfold Fields.clean, Fields.clean_body.
    apply String.eqb_neq in Hv. rewrite Hv, Hparse. simpl.
    destruct e; reflexivity. }
  intros v wall t Hv Hparse Hlocal.
  pose proof (clean_aware choices localize parse self v wall t Hv Hparse
                Hlocal) as Hbody.
  split.
  { intros Hattr. unfold Fields.clean. rewrite Hbody, Hattr. reflexivity. }
  intros [o Hattr]. rewrite Hattr in Hbody. split.
  - intros before c after Hchoices Hbefore.
    assert (Hin : c ∈ choices).
    { rewrite Hchoices. apply elem_of_app. right. left. }
    apply Hnames, String.eqb_neq in Hin.
    assert (Hsearch :
      Fields.first_matching_zone localize choices wall (Fields.utcoffset t)
      = match localize c.1 wall with
        | Raise e => Raise e
        | Return off =>
            if off =? Fields.utcoffset t then Return (Some c.1)
            else Fields.first_matching_zone localize after wall
                   (Fields.utcoffset t)
        end).
    { rewrite Hchoices,
        (first_matching_zone_skip localize before _ wall _ Hbefore).
      apply first_matching_zone_cons. }
    rewrite Hsearch in Hbody. clear Hsearch.
    split.
    + intros Hc. rewrite Hc, Z.eqb_refl, Hin in Hbody.
      unfold Fields.astimezone_utc in Hbody.
      pose proof (add_seconds_spec wall (- Fields.utcoffset t)) as Hadd.
      replace (Fields.seconds wall + - Fields.utcoffset t)
        with (Fields.seconds wall - Fields.utcoffset t) in Hadd by lia.
      unfold Fields.clean. rewrite Hbody.
      destruct (Fields.add_seconds wall (- Fields.utcoffset t)) as [utc|e].
      * destruct Hadd as [Hr Hutc]. split; [|congruence].
        intros _. exists utc. split; [exact Hutc|reflexivity].
      * destruct Hadd as [Hr ->]. split; [congruence|].
        intros _. reflexivity.
    + intros e He. rewrite He in Hbody. unfold Fields.clean.
      rewrite Hbody. destruct e; reflexivity.
  - intros Hnone.
    pose proof (first_matching_zone_skip localize choices [] wall _ Hnone)
      as Hsearch.
    rewrite app_nil_r in Hsearch. rewrite Hsearch in Hbody.
    unfold Fields.clean. rewrite Hbody. reflexivity.
Qed.
End ISODateTimeOutcomes.

Lemma iso_datetime_without_offset_is_utc_witness :
  Fields.clean Sample.zones Sample.localize Sample.parse_naive
    {| Fields.required := true |} (Some "2023-01-15T08:30:00")
  = Return (Some {| Fields.timezone := "UTC";
                    Fields.utc_time := Sample.moment 2023 1 15 8 30 0 |}).
Proof.
  apply (iso_datetime_without_offset_is_utc Sample.zones Sample.offset_at
           Sample.parse_naive {| Fields.required := true |}
           "2023-01-15T08:30:00" (Sample.moment 2023 1 15 8 30 0) None).
  - discriminate.
  - vm_compute. reflexivity.
  - left. reflexivity.
  - intros c Hc. apply list_elem_of_In in Hc. simpl in Hc.
    intuition (subst; discriminate).
Defined.

Lemma sample_zones_are_named (c : string * string) :
  c ∈ Sample.zones → c.1 ≠ EmptyString.
Proof.
  intros Hc. apply list_elem_of_In in Hc. simpl in Hc.
  intuition (subst; discriminate).
Qed.

Lemma iso_datetime_clean_outcomes_witness :
  let clean := Fields.clean Sample.zones Sample.localize Sample.parse_iso
                 {| Fields.required := true |} in
  clean (Some "yesterday")
  = Raise (ValidationError
             ["unknown string format" +:+ ". " +:+ Fields.invalid_error_message]) ∧
  clean (Some "9999-12-31T23:59:59-05:00") = Raise OverflowError ∧
  clean (Some "2023-06-01T10:00:00-05:17")
  = Raise (ValidationError [Fields.malformed_timezone_message]).
Proof.
  intros clean. subst clean.
  destruct (iso_datetime_clean_outcomes Sample.zones Sample.localize
              Sample.parse_iso {| Fields.required := true |}
              sample_zones_are_named) as [Hparser Haware].
  splits.
  - apply (Hparser "yesterday" (ValueError "unknown string format"));
      [discriminate|vm_compute; reflexivity].
  - destruct (Haware "9999-12-31T23:59:59-05:00"
                (Sample.moment 9999 12 31 23 59 59) (Fields.tzoffset (-18000)))
      as [_ Hoffset]; [discriminate|vm_compute; reflexivity|reflexivity|].
    destruct Hoffset as [Hfound _]; [eexists; reflexivity|].
    destruct (Hfound [] ("US/Eastern", "Eastern")
                [("US/Central", "Central"); ("US/Mountain", "Mountain");
                 ("US/Pacific", "Pacific"); ("UTC", "UTC")])
      as [Hzone _]; [reflexivity|intros b Hb; inversion Hb|].
    apply Hzone; vm_compute; reflexivity.
  - destruct (Haware "2023-06-01T10:00:00-05:17"
                (Sample.moment 2023 6 1 10 0 0) (Fields.tzoffset (-19020)))
      as [_ Hoffset]; [discriminate|vm_compute; reflexivity|reflexivity|].
    destruct Hoffset as [_ Hnone]; [eexists; reflexivity|].
    apply Hnone. intros b Hb. apply list_elem_of_In in Hb. simpl in Hb.
    eexists. split; [reflexivity|].
    intuition (subst; vm_compute; discriminate).
Defined.

(** ** Forms: default values and the limit of a list request *)
Section Defaults.

Lemma post_clean_keeps (defaults : list (string * value))
    (self : Forms.BaseForm) :
  Forms.data (Forms._post_clean defaults self) = Forms.data self ∧
  Forms.ignore_limit (Forms._post_clean defaults self)
    = Forms.ignore_limit self ∧
  Forms.errors (Forms._post_clean defaults self) = Forms.errors self.
Proof.
  unfold Forms._post_clean. revert self.
  induction defaults as [|d defaults IH]; intros self; [done|].
  simpl. destruct (IH
    match Forms.cleaned_data self !! d.1 with
    | Some v =>
        if negb (truthy v)
        then Forms.set_cleaned_data
               (<[d.1 := d.2]> (Forms.cleaned_data self)) self
        else self
    | None => self
    end) as (-> & -> & ->).
  destruct (Forms.cleaned_data self !! d.1) as [v|]; [|done].
  destruct (negb (truthy v)); done.
Qed.

(** X7: [BaseForm._post_clean], for defaults with distinct keys: a
    cleaned value that is true is kept; a cleaned value that is false
    ([None], an empty text or list, but also 0 and [False]) is replaced
    by the default of its key when there is one; a key that is not among
    the cleaned data is never added, whatever its default. The submitted
    data and the errors are left as they are. *)
Theorem post_clean_fills_defaults (defaults : list (string * value))
    (self : Forms.BaseForm) :
  NoDup defaults.*1 →
  (∀ k,
     Forms.cleaned_data (Forms._post_clean defaults self) !! k
     = match Forms.cleaned_data self !! k with
       | Some v =>
           if truthy v then Some v
           else Some (default v ((list_to_map defaults : gmap string value) !! k))
       | None => None
       end) ∧
  Forms.data (Forms._post_clean defaults self) = Forms.data self ∧
  Forms.errors (Forms._post_clean defaults self) = Forms.errors self.
Proof.
  intros Hnd. split; [|split; apply post_clean_keeps].
  unfold Forms._post_clean. revert self.
  induction defaults as [|[k0 d0] defaults IH]; intros self k.
  { simpl. destruct (Forms.cleaned_data self !! k) as [v|]; [|done].
    destruct (truthy v); done. }
  apply NoDup_cons in Hnd as [Hk0 Hnd]. simpl. rewrite (IH Hnd).
  destruct (decide (k = k0)) as [->|Hne].
  - rewrite lookup_insert_eq.
    assert (Hrest : (list_to_map defaults : gmap string value) !! k0 = None).
    { apply not_elem_of_list_to_map_1. exact Hk0. }
    rewrite Hrest.
    destruct (Forms.cleaned_data self !! k0) as [v|] eqn:Hv.
    + destruct (truthy v) eqn:Ht; simpl.
      * rewrite Hv, Ht. reflexivity.
      * rewrite lookup_insert_eq. destruct (truthy d0); reflexivity.
    + rewrite Hv. reflexivity.
  - rewrite lookup_insert_ne by congruence.
    destruct (Forms.cleaned_data self !! k0) as [v0|]; [|reflexivity].
    destruct (negb (truthy v0)); [|reflexivity].
    simpl. rewrite lookup_insert_ne by congruence. reflexivity.
Qed.
End Defaults.

Lemma post_clean_fills_defaults_witness :
  let form :=
    Forms.set_cleaned_data
      {[ "radius" := VInt 0; "unit" := VStr "km"; "name" := VNone ]}
      (Forms.BaseForm_init ∅ None) in
  let cleaned :=
    Forms.cleaned_data
      (Forms._post_clean [("radius", VInt 25); ("page", VInt 1)] form) in
  cleaned !! "radius" = Some (VInt 25) ∧
  cleaned !! "unit" = Some (VStr "km") ∧
  cleaned !! "name" = Some VNone ∧
  cleaned !! "page" = None.
Proof.
  intros form cleaned. subst cleaned.
  assert (Hnd : NoDup [("radius", VInt 25); ("page", VInt 1)].*1).
  { apply (bool_decide_unpack _). vm_compute. exact I. }
  pose proof (proj1 (post_clean_fills_defaults
                       [("radius", VInt 25); ("page", VInt 1)] form Hnd))
    as H.
  splits; rewrite H; vm_compute; reflexivity.
Defined.

Section ListFormLimit.
Local Open Scope Z_scope.
Variable GET_LIMIT_MAX : Z.
Variable regex_field_clean : Fields.ListField → value → outcome string.

Abbreviation TheListForm :=
  (Forms.BaseModelResourceListForm GET_LIMIT_MAX regex_field_clean).
Abbreviation TheDetailForm :=
  (Forms.BaseModelResourceForm regex_field_clean).

(** Whether [BaseModelResourceListForm.clean] objects to the limit. *)
Lemma list_form_clean_run (self : Forms.BaseForm) :
  Forms.BaseModelResourceListForm_clean GET_LIMIT_MAX self
  = match Py.int (default VNone (Forms.data self !! "limit")) with
    | Return n =>
        if (GET_LIMIT_MAX <? n) && negb (Forms.ignore_limit self)
        then Raise (ValidationError [Forms.limit_message GET_LIMIT_MAX])
        else Return (Forms.cleaned_data self)
    | Raise _ => Return (Forms.cleaned_data self)
    end.
Proof.
  unfold Forms.BaseModelResourceListForm_clean.
  destruct (Py.int _) as [n|e]; [|reflexivity].
  rewrite Z.gtb_ltb. reflexivity.
Qed.

(** What the cleaning of the fields leaves on a fresh form: values under
    the names of the fields that cleaned, messages under the names of
    those that did not, and nothing else. *)
Lemma clean_fields_names (cls : Forms.FormClass) (self self' : Forms.BaseForm) :
  Forms._clean_fields cls self = Return self' →
  Forms.data self' = Forms.data self ∧
  Forms.ignore_limit self' = Forms.ignore_limit self ∧
  (∀ k, k ∉ (Forms.base_fields cls).*1 →
     Forms.cleaned_data self' !! k = Forms.cleaned_data self !! k ∧
     Forms.errors self' !! k = Forms.errors self !! k).
Proof.
  unfold Forms._clean_fields.
  generalize (Forms.base_fields cls). intros l. revert self self'.
  induction l as [|fld l IH] using rev_ind; intros self self'.
  { simpl. intros [= <-]. done. }
  rewrite foldl_app. simpl.
  destruct (foldl _ (Return self) l) as [mid|e] eqn:Hmid; [|discriminate].
  destruct (IH self mid Hmid) as (Hd & Hi & Hk).
  intros Hstep.
  assert (Hself' :
    (∃ v, self' = Forms.set_cleaned_data
                    (<[fld.1 := v]> (Forms.cleaned_data mid)) mid) ∨
    (∃ m, self' = Forms.set_errors (<[fld.1 := m]> (Forms.errors mid))
                    (Forms.set_cleaned_data
                       (delete fld.1 (Forms.cleaned_data mid)) mid))).
  { destruct (fld.2 _) as [v|[]]; try discriminate;
      injection Hstep as <-; eauto. }
  rewrite fmap_app. simpl.
  destruct Hself' as [[v ->]|[m ->]]; simpl; (split; [exact Hd|]);
    (split; [exact Hi|]); intros k Hnot;
    apply not_elem_of_app in Hnot as [Hl Hf];
    apply not_elem_of_cons in Hf as [Hf _];
    destruct (Hk k Hl) as [<- <-].
  - rewrite lookup_insert_ne by congruence. done.
  - rewrite lookup_insert_ne, lookup_delete_ne by congruence. done.
Qed.

(** X8: on the list form, once every field has been cleaned (to a value
    or to a validation error), the form carries the limit message, under
    [__all__], exactly when the submitted [limit] reads as an integer
    above the ceiling and the form was not told to ignore the limit: a
    limit that is missing, or that is no number, is never an error, and a
    limit equal to the ceiling is accepted. *)
Theorem limit_error_exactly_above_ceiling (data : gmap string value)
    (kw_ignore_limit : option bool) (form : Forms.BaseForm) :
  Forms.full_clean TheListForm (Forms.BaseForm_init data kw_ignore_limit)
    = Return form →
  Forms.errors form !! Forms.NON_FIELD_ERRORS
  = match Py.int (default VNone (data !! "limit")) with
    | Return n =>
        if (GET_LIMIT_MAX <? n) && negb (default false kw_ignore_limit)
        then Some [Forms.limit_message GET_LIMIT_MAX]
        else None
    | Raise _ => None
    end.
Proof.
  unfold Forms.full_clean.
  destruct (Forms._clean_fields _ _) as [mid|e] eqn:Hmid; [|discriminate].
  apply clean_fields_names in Hmid as (Hd & Hi & Hk).
  destruct (Hk Forms.NON_FIELD_ERRORS) as [_ He].
  { apply (bool_decide_unpack _). vm_compute. exact I. }
  unfold Forms._clean_form. simpl Forms.clean_method.
  rewrite list_form_clean_run, Hd, Hi. simpl.
  destruct (Py.int _) as [n|e'].
  - destruct ((GET_LIMIT_MAX <? n) && _).
    + intros [= <-]. simpl. apply lookup_insert_eq.
    + intros [= <-]. simpl. rewrite He. reflexivity.
  - intros [= <-]. simpl. rewrite He. reflexivity.
Qed.
End ListFormLimit.

Lemma limit_error_exactly_above_ceiling_witness :
  ∃ form,
    Forms.full_clean Sample.list_form
      (Forms.BaseForm_init {[ "limit" := VStr "200" ]} None) = Return form ∧
    Forms.errors form !! Forms.NON_FIELD_ERRORS = None.
Proof.
  eexists. split; [vm_compute; reflexivity|].
  etransitivity.
  - apply (limit_error_exactly_above_ceiling Sample.GET_LIMIT_MAX
             Sample.accept_all {[ "limit" := VStr "200" ]} None).
    vm_compute. reflexivity.
  - vm_compute. reflexivity.
Defined.

(** ** The sanitizer: what its result is made of *)
Section SanitizerOutput.
Variable parse : string → list Utils.node.
Variable render : list Utils.node → string.
Variable acceptable_elements acceptable_attributes : list string.

Abbreviation clean_html_on :=
  (Utils.clean_html parse render acceptable_elements acceptable_attributes).
Abbreviation scrubbed := (Utils.scrub acceptable_elements acceptable_attributes).
Abbreviation acceptable_tree :=
  (Utils.acceptable_tree acceptable_elements acceptable_attributes).

Lemma forallb_filter_acceptable (attrs : list (string * string)) :
  forallb (Utils.acceptable_attribute acceptable_attributes)
    (filter (λ a, Utils.acceptable_attribute acceptable_attributes a = true)
       attrs) = true.
Proof.
  induction attrs as [|a l IH]; [reflexivity|].
  rewrite filter_cons. case_decide as Ha; [|exact IH].
  simpl. rewrite Ha, IH. reflexivity.
Qed.

Lemma scrub_node_acceptable (n : Utils.node) :
  forallb acceptable_tree (scrubbed n) = true ∧
  flat_map Utils.texts (scrubbed n) `sublist_of` Utils.texts n.
Proof.
  induction n as [s|name attrs contents IH] using Utils.node_nested_ind.
  - split; reflexivity.
  - assert (Hall :
      forallb acceptable_tree (flat_map scrubbed contents) = true ∧
      flat_map Utils.texts (flat_map scrubbed contents)
        `sublist_of` flat_map Utils.texts contents).
    { induction IH as [|x l [Hx1 Hx2] _ [IH1 IH2]]; [split; reflexivity|].
      simpl. rewrite forallb_app, flat_map_app, Hx1, IH1.
      split; [reflexivity|]. apply sublist_app; assumption. }
    destruct Hall as [H1 H2]. simpl.
    destruct (Utils.acceptable_element acceptable_elements name) eqn:Hname.
    + simpl. rewrite Hname, forallb_filter_acceptable, H1, app_nil_r.
      split; [reflexivity|exact H2].
    + split; [reflexivity|]. apply sublist_nil_l.
Qed.

Lemma scrub_acceptable (soup : list Utils.node) :
  forallb acceptable_tree (flat_map scrubbed soup) = true ∧
  flat_map Utils.texts (flat_map scrubbed soup)
    `sublist_of` flat_map Utils.texts soup.
Proof.
  induction soup as [|x l [IH1 IH2]]; [split; reflexivity|].
  destruct (scrub_node_acceptable x) as [Hx1 Hx2]. simpl.
  rewrite forallb_app, flat_map_app, Hx1, IH1.
  split; [reflexivity|]. apply sublist_app; assumption.
Qed.

(** X9: whatever [clean_html] returns is the serialisation of a soup in
    which every tag has an acceptable name and only acceptable
    attributes, at every depth, and whose texts are texts of the fragment
    parsed in the last round, in the same order, none of them altered and
    none added. *)
Theorem clean_html_returns_acceptable_markup (fuel : nat) (x y : string) :
  clean_html_on fuel x = Some y →
  ∃ fragment soup,
    soup = flat_map scrubbed (parse fragment) ∧
    y = render soup ∧
    forallb acceptable_tree soup = true ∧
    flat_map Utils.texts soup
      `sublist_of` flat_map Utils.texts (parse fragment).
Proof.
  intros Hrun.
  destruct (clean_html_rounds parse render acceptable_elements
              acceptable_attributes fuel x y Hrun) as (k & _ & _ & Hlast).
  unfold Utils.round in Hlast. injection Hlast as _ <-.
  eexists _, _. split; [reflexivity|]. split; [reflexivity|].
  apply scrub_acceptable.
Qed.
End SanitizerOutput.

Section Escaping.
Variable parse : string → list Utils.node.
Variable render : list Utils.node → string.
Variable acceptable_attributes : list string.

Lemma scrub_without_elements (soup : list Utils.node) :
  flat_map (Utils.scrub [] acceptable_attributes) soup
    = filter (λ n, Utils.is_text n = true) soup ∧
  existsb (Utils.finds_bad_tag []) soup = negb (forallb Utils.is_text soup).
Proof.
  induction soup as [|n soup [IH1 IH2]]; [split; reflexivity|].
  destruct n as [s|name attrs contents]; simpl.
  - rewrite IH1, IH2. split; reflexivity.
  - rewrite IH1. split; reflexivity.
Qed.

(** X10: with no acceptable element, which is how every plain text of a
    response is escaped, a round keeps the texts of the top level and
    nothing else: a tag goes with everything inside it, texts included.
    What [clean_html] then returns is the serialisation of a soup made of
    texts only. *)
Theorem escaping_keeps_top_level_texts (fuel : nat) (x y : string) :
  Utils.clean_html parse render [] acceptable_attributes fuel x = Some y →
  (∀ fragment,
     Utils.round parse render [] acceptable_attributes fragment
     = (negb (forallb Utils.is_text (parse fragment)),
        render (filter (λ n, Utils.is_text n = true) (parse fragment)))) ∧
  ∃ fragment,
    forallb Utils.is_text (parse fragment) = true ∧
    y = render (parse fragment).
Proof.
  intros Hrun.
  assert (Hround : ∀ fragment,
    Utils.round parse render [] acceptable_attributes fragment
    = (negb (forallb Utils.is_text (parse fragment)),
       render (filter (λ n, Utils.is_text n = true) (parse fragment)))).
  { intros fragment. unfold Utils.round.
    destruct (scrub_without_elements (parse fragment)) as [-> ->].
    reflexivity. }
  split; [exact Hround|].
  destruct (clean_html_rounds parse render [] acceptable_attributes
              fuel x y Hrun) as (k & _ & _ & Hlast).
  rewrite Hround in Hlast. injection Hlast as Hall <-.
  apply negb_false_iff in Hall.
  eexists. split; [exact Hall|]. f_equal.
  clear -Hall. induction (parse _) as [|n l IH]; [reflexivity|].
  simpl in Hall. apply andb_true_iff in Hall as [Hn Hl].
  rewrite filter_cons_True by exact Hn. f_equal. apply IH, Hl.
Qed.
End Escaping.

Lemma clean_html_returns_acceptable_markup_witness :
  ∃ fragment soup,
    soup = flat_map (Utils.scrub Utils.default_acceptable_elements
                       Utils.default_acceptable_attributes)
             (Sample.parse_known fragment) ∧
    "<b>Plumber</b>" = Sample.render soup ∧
    forallb (Utils.acceptable_tree Utils.default_acceptable_elements
               Utils.default_acceptable_attributes) soup = true ∧
    flat_map Utils.texts soup
      `sublist_of` flat_map Utils.texts (Sample.parse_known fragment).
Proof.
  apply (clean_html_returns_acceptable_markup Sample.parse_known Sample.render
           Utils.default_acceptable_elements
           Utils.default_acceptable_attributes 2
           "<b class='x'>Plumber</b><script>track()</script>").
  vm_compute. reflexivity.
Defined.

Lemma escaping_keeps_top_level_texts_witness :
  ∃ fragment,
    forallb Utils.is_text (Sample.parse_known fragment) = true ∧
    EmptyString = Sample.render (Sample.parse_known fragment).
Proof.
  apply (escaping_keeps_top_level_texts Sample.parse_known Sample.render
           Utils.default_acceptable_attributes 2 "<b>Plumber</b>").
  vm_compute. reflexivity.
Defined.

(** Escaping the text of a job that carries markup: the tag goes with the
    word inside it. *)
Example escaped_title :
  Utils.clean_html Sample.parse_known Sample.render []
    Utils.default_acceptable_attributes 2 "<b>Plumber</b>" = Some EmptyString.
Proof. vm_compute. reflexivity. Qed.

(** ** The passes of [dehydrate] over the data *)

Lemma endswith_append (k suffix : string) :
  Py.endswith (k +:+ suffix) suffix = true.
Proof.
  unfold Py.endswith. apply bool_decide_eq_true. rewrite chars_append.
  exists (Py.chars k). reflexivity.
Qed.

Section Passes.
Context {Obj : Type}.
Variable clean_html : list string → list string → value → outcome value.
Variable R : @Generic.Resource Obj.

Abbreviation _format_id_fields := (Generic._format_id_fields R).
Abbreviation id_loop := (Generic._format_id_fields_loop R).
Abbreviation _escape_fields := (Generic._escape_fields clean_html R).
Abbreviation escape_loop := (Generic._escape_fields_loop clean_html R).

(** One turn of the loop of [_format_id_fields]. *)
Lemma id_loop_cons (key : string) (keys : list string)
    (d : gmap string value) :
  id_loop (key :: keys) d
  = id_loop keys
      match d !! key with
      | Some (VBundle b) =>
          <[key +:+ "_id" := default VNone (b !! "id")]> d
      | _ =>
          if Generic.is_relation (Generic.fields_get R key)
          then <[key +:+ "_id" := VNone]> d
          else d
      end.
Proof. reflexivity. Qed.

Lemma id_loop_is_Some (keys : list string) (d : gmap string value)
    (k : string) :
  is_Some (d !! k) → is_Some (id_loop keys d !! k).
Proof.
  revert d. induction keys as [|key keys IH]; intros d Hk; [exact Hk|].
  rewrite id_loop_cons. apply IH.
  repeat case_match; try exact Hk;
    (destruct (decide (key +:+ "_id" = k)) as [<-|Hne];
     [rewrite lookup_insert_eq; eauto
     |rewrite lookup_insert_ne by exact Hne; exact Hk]).
Qed.

Lemma id_loop_new_keys (keys : list string) (d : gmap string value)
    (k : string) :
  is_Some (id_loop keys d !! k) →
  is_Some (d !! k) ∨ ∃ j, j ∈ keys ∧ k = j +:+ "_id".
Proof.
  revert d. induction keys as [|key keys IH]; intros d Hk; [left; exact Hk|].
  rewrite id_loop_cons in Hk. apply IH in Hk as [Hk|(j & Hj & ->)].
  - destruct (decide (key +:+ "_id" = k)) as [<-|Hne].
    + right. exists key. split; [left|reflexivity].
    + left. revert Hk.
      repeat case_match; rewrite ?lookup_insert_ne by exact Hne; done.
  - right. exists j. split; [right; exact Hj|reflexivity].
Qed.

Lemma id_loop_sets (keys : list string) (d : gmap string value)
    (k : string) (v : value) :
  NoDup keys → k ∈ keys → Py.endswith k "_id" = false →
  d !! k = Some v →
  id_loop keys d !! (k +:+ "_id")
  = match v with
    | VBundle b => Some (default VNone (b !! "id"))
    | _ => if Generic.is_relation (Generic.fields_get R k)
           then Some VNone else d !! (k +:+ "_id")
    end.
Proof.
  intros Hnd Hin Hk. revert d.
  induction keys as [|key keys IH]; intros d Hv; [inversion Hin|].
  apply NoDup_cons in Hnd as [Hkey Hnd]. rewrite id_loop_cons.
  destruct (decide (key = k)) as [->|Hne].
  - rewrite format_id_fields_keeps.
    2:{ intros key' Hin' Heq. apply append_inv_tail in Heq as ->.
        contradiction. }
    rewrite Hv. destruct v; try (case_match; [apply lookup_insert_eq|done]).
    apply lookup_insert_eq.
  - apply elem_of_cons in Hin as [->|Hin]; [contradiction|].
    assert (Hother : key +:+ "_id" ≠ k).
    { intros <-. rewrite endswith_append in Hk. discriminate. }
    assert (Hid : key +:+ "_id" ≠ k +:+ "_id").
    { intros Heq. apply append_inv_tail in Heq. contradiction. }
    rewrite (IH Hnd Hin).
    + destruct v; repeat case_match;
        rewrite ?lookup_insert_ne by exact Hid; reflexivity.
    + repeat case_match; rewrite ?lookup_insert_ne by exact Hother;
        exact Hv.
Qed.

(** X11: [_format_id_fields] writes under names that end in [_id] only,
    so every other entry of the data comes out as it went in, and no
    entry is lost. For every entry whose name does not end in [_id]: a
    nested resource gets a companion entry [<name>_id] holding the [id]
    of its data, or [None] when it has none; a value that is no nested
    resource gets a companion [None] when the name is a foreign key or a
    related field of the resource (so that the attribute exists), and
    none otherwise. The new names are all of the form [<name>_id]. *)
Theorem format_id_fields_adds_identifiers (d : gmap string value) :
  (∀ k, Py.endswith k "_id" = false → _format_id_fields d !! k = d !! k) ∧
  (∀ k, is_Some (d !! k) → is_Some (_format_id_fields d !! k)) ∧
  (∀ k, is_Some (_format_id_fields d !! k) →
     is_Some (d !! k) ∨ ∃ j, is_Some (d !! j) ∧ k = j +:+ "_id") ∧
  (∀ k b, Py.endswith k "_id" = false → d !! k = Some (VBundle b) →
     _format_id_fields d !! (k +:+ "_id")
     = Some (default VNone (b !! "id"))) ∧
  (∀ k v, Py.endswith k "_id" = false → d !! k = Some v →
     (∀ b, v ≠ VBundle b) →
     _format_id_fields d !! (k +:+ "_id")
     = if Generic.is_relation (Generic.fields_get R k)
       then Some VNone else d !! (k +:+ "_id")).
Proof.
  unfold Generic._format_id_fields.
  assert (Hkeys : ∀ k, k ∈ (map_to_list d).*1 ↔ is_Some (d !! k)).
  { intros k. rewrite list_elem_of_fmap. split.
    - intros ([k' v] & -> & Hin). apply elem_of_map_to_list in Hin. eauto.
    - intros [v Hv]. exists (k, v). split; [reflexivity|].
      apply elem_of_map_to_list. exact Hv. }
  splits.
  - intros k Hk. apply format_id_fields_keeps.
    intros key _ <-. rewrite endswith_append in Hk. discriminate.
  - intros k. apply id_loop_is_Some.
  - intros k Hk. apply id_loop_new_keys in Hk as [Hk|(j & Hj & ->)];
      [left; exact Hk|].
    right. exists j. split; [apply Hkeys, Hj|reflexivity].
  - intros k b Hk Hv.
    rewrite (id_loop_sets _ d k (VBundle b)); try done.
    + apply NoDup_fst_map_to_list.
    + apply Hkeys. eauto.
  - intros k v Hk Hv Hnb.
    rewrite (id_loop_sets _ d k v); try done.
    + destruct v; try reflexivity. exfalso. exact (Hnb _ eq_refl).
    + apply NoDup_fst_map_to_list.
    + apply Hkeys. eauto.
Qed.

(** One turn of the loop of [_escape_fields], on a key of the data. *)
Lemma escape_loop_cons (key : string) (keys html_fields : list string)
    (d : gmap string value) (v : value) :
  d !! key = Some v →
  escape_loop (key :: keys) html_fields d
  = match Generic.escaped clean_html R html_fields key v with
    | Return v' =>
        escape_loop keys html_fields
          (if bool_decide (key ∈ Generic.dont_escape R) then d
           else if bool_decide (key ∈ html_fields) then <[key := v']> d
           else match v with VStr _ => <[key := v']> d | _ => d end)
    | Raise e => Raise e
    end.
Proof.
  intros Hv. unfold Generic.escaped. simpl. rewrite Hv. simpl.
  repeat case_bool_decide; try reflexivity.
  destruct v; reflexivity.
Qed.

Lemma escape_loop_spec (html_fields keys : list string) :
  NoDup keys →
  ∀ d, (∀ key, key ∈ keys → is_Some (d !! key)) →
  match escape_loop keys html_fields d with
  | Return d' =>
      ∀ k, (k ∈ keys →
              ∃ v v', d !! k = Some v ∧
                Generic.escaped clean_html R html_fields k v = Return v' ∧
                d' !! k = Some v') ∧
           (k ∉ keys → d' !! k = d !! k)
  | Raise e =>
      ∃ k v, k ∈ keys ∧ d !! k = Some v ∧
        Generic.escaped clean_html R html_fields k v = Raise e
  end.
Proof.
  induction keys as [|key keys IH]; intros Hnd d Hdom.
  { simpl. intros k. split; [intros Hk; inversion Hk|reflexivity]. }
  apply NoDup_cons in Hnd as [Hkey Hnd].
  destruct (Hdom key) as [v Hv]; [left|].
  rewrite (escape_loop_cons key keys html_fields d v Hv).
  destruct (Generic.escaped clean_html R html_fields key v) as [v'|e] eqn:Hesc.
  2:{ exists key, v. split; [left|]. split; [exact Hv|exact Hesc]. }
  set (d1 := if bool_decide (key ∈ Generic.dont_escape R) then d
             else if bool_decide (key ∈ html_fields) then <[key := v']> d
             else match v with VStr _ => <[key := v']> d | _ => d end).
  assert (Hd1 : d1 !! key = Some v' ∧ ∀ k, k ≠ key → d1 !! k = d !! k).
  { subst d1. unfold Generic.escaped in Hesc.
    repeat case_bool_decide.
    - injection Hesc as <-. done.
    - split; [apply lookup_insert_eq|].
      intros k Hk. apply lookup_insert_ne. congruence.
    - destruct v; try (injection Hesc as <-; done);
        (split; [apply lookup_insert_eq|]);
        intros k Hk; apply lookup_insert_ne; congruence. }
  destruct Hd1 as [Hd1 Hother].
  assert (Hdom1 : ∀ key', key' ∈ keys → is_Some (d1 !! key')).
  { intros key' Hin'. rewrite Hother; [apply Hdom; right; exact Hin'|].
    intros ->. contradiction. }
  specialize (IH Hnd d1 Hdom1).
  destruct (escape_loop keys html_fields d1) as [d'|e].
  - intros k. split.
    + intros Hk. apply elem_of_cons in Hk as [->|Hk].
      * exists v, v'. split; [exact Hv|]. split; [exact Hesc|].
        rewrite (proj2 (IH key) Hkey). exact Hd1.
      * destruct (proj1 (IH k) Hk) as (w & w' & Hw & Hesc' & Hd').
        exists w, w'. rewrite <- Hother; [done|]. intros ->. contradiction.
    + intros Hk. apply not_elem_of_cons in Hk as [Hne Hk].
      rewrite (proj2 (IH k) Hk). apply Hother, Hne.
  - destruct IH as (k & w & Hk & Hw & Hesc').
    exists k, w. split; [right; exact Hk|].
    rewrite <- Hother; [done|]. intros ->. contradiction.
Qed.

(** X12: [_escape_fields] returns when every value of the data can be
    escaped, and then the result has the same keys, each holding the
    escaped value: the value itself under a key of [dont_escape] and for
    whatever is no text, the text cleaned with no acceptable element
    otherwise; under a key of [html_fields] the value, text or not, is
    cleaned with the default acceptable elements. When one of the
    cleanings raises, [_escape_fields] raises the same. *)
Theorem escape_fields_escapes_each_value (d : gmap string value)
    (html_fields : list string) :
  match _escape_fields d html_fields with
  | Return d' =>
      ∀ k, match d !! k with
           | Some v =>
               ∃ v', Generic.escaped clean_html R html_fields k v = Return v' ∧
                     d' !! k = Some v'
           | None => d' !! k = None
           end
  | Raise e =>
      ∃ k v, d !! k = Some v ∧
        Generic.escaped clean_html R html_fields k v = Raise e
  end.
Proof.
  unfold Generic._escape_fields.
  assert (Hkeys : ∀ k, k ∈ (map_to_list d).*1 ↔ is_Some (d !! k)).
  { intros k. rewrite list_elem_of_fmap. split.
    - intros ([k' v] & -> & Hin). apply elem_of_map_to_list in Hin. eauto.
    - intros [v Hv]. exists (k, v). split; [reflexivity|].
      apply elem_of_map_to_list. exact Hv. }
  pose proof (escape_loop_spec html_fields (map_to_list d).*1
                (NoDup_fst_map_to_list d) d) as Hspec.
  destruct (escape_loop _ html_fields d) as [d'|e].
  - intros k. destruct (Hspec (λ key, proj1 (Hkeys key)) k) as [Hin Hout].
    destruct (d !! k) as [v|] eqn:Hv.
    + destruct Hin as (w & w' & Hw & Hesc & Hd'); [apply Hkeys; eauto|].
      injection Hw as <-. eauto.
    + apply Hout. intros Hk. apply Hkeys in Hk as [? Hk]. congruence.
  - destruct (Hspec (λ key, proj1 (Hkeys key))) as (k & v & _ & Hv & Hesc).
    eauto.
Qed.
End Passes.

(** ** A value that is no text under a URI key *)
Section UriErrors.
Context {Obj User World : Type}.
Variable BASE_API_URL : string.

Lemma format_uri_raises (base_url : string) (keys : list string) :
  ∀ (d : gmap string value) (k : string) (v : value),
    k ∈ keys → d !! k = Some v → truthy v = true → (∀ t, v ≠ VStr t) →
    Generic._format_uri d keys base_url = Raise AttributeError.
Proof.
  induction keys as [|key keys IH]; intros d k v Hin Hv Ht Hnt;
    [inversion Hin|].
  simpl. unfold Py.get_truthy.
  destruct (decide (key = k)) as [->|Hne].
  - rewrite Hv, Ht. destruct v; try reflexivity.
    exfalso. exact (Hnt _ eq_refl).
  - apply elem_of_cons in Hin as [->|Hin]; [contradiction|].
    destruct (d !! key) as [w|] eqn:Hw; [|exact (IH d k v Hin Hv Ht Hnt)].
    destruct (truthy w); [|exact (IH d k v Hin Hv Ht Hnt)].
    destruct w; try reflexivity.
    apply (IH _ k v Hin); [|exact Ht|exact Hnt].
    rewrite lookup_insert_ne by exact Hne. exact Hv.
Qed.

(** X13: [_format_api_uri] takes every true value under a URI key for a
    text: when one of these keys (a key of [api_uri_keys], or a key of
    the data that ends in [_uri]) holds a true value of another kind (a
    number, a nested resource, a list), the call ends with an
    [AttributeError]; the list [api_uri_keys] has been extended by
    then, and stays so. *)
Theorem format_api_uri_rejects_other_values
    (s : @Generic.Self Obj User World) (d : gmap string value)
    (k : string) (v : value) :
  k ∈ Generic.api_uri_keys s ∨ Py.endswith k "_uri" = true →
  d !! k = Some v → truthy v = true → (∀ t, v ≠ VStr t) →
  Generic._format_api_uri BASE_API_URL d s
  = (Raise AttributeError,
     Generic.set_api_uri_keys
       (Generic.api_uri_keys s
          ++ Generic.new_uri_keys d (Generic.api_uri_keys s)) s).
Proof.
  intros Hk Hv Ht Hnt. unfold Generic._format_api_uri. run.
  rewrite (format_uri_raises BASE_API_URL _ d k v); try done.
  rewrite elem_of_app, elem_of_new_uri_keys.
  destruct (decide (k ∈ Generic.api_uri_keys s)); [left; done|].
  right. destruct Hk as [Hk|Hk]; [contradiction|]. eauto.
Qed.
End UriErrors.

Lemma format_api_uri_rejects_other_values_witness :
  let s := Sample.self_on Sample.alice "GET" "detail" (Some 1%Z) ∅ false in
  Generic._format_api_uri "https://api.example.com"
    {[ "title" := VStr "Plumber"; "logo_uri" := VInt 5 ]} s
  = (Raise AttributeError,
     Generic.set_api_uri_keys ["resource_uri"; "next"; "previous"; "logo_uri"] s).
Proof.
  intros s.
  rewrite (format_api_uri_rejects_other_values "https://api.example.com" s
             {[ "title" := VStr "Plumber"; "logo_uri" := VInt 5 ]}
             "logo_uri" (VInt 5)).
  - vm_compute. reflexivity.
  - right. vm_compute. reflexivity.
  - vm_compute. reflexivity.
  - reflexivity.
  - discriminate.
Defined.

Lemma format_id_fields_adds_identifiers_witness :
  let R := Sample.job_resource None in
  let d : gmap string value :=
    {[ "organization" :=
         VBundle {[ "id" := VInt 7; "resource_uri" := VStr "/organizations/7/" ]};
       "title" := VStr "Plumber" ]} in
  Generic._format_id_fields R d !! "organization_id" = Some (VInt 7) ∧
  Generic._format_id_fields R d !! "title" = Some (VStr "Plumber").
Proof.
  intros R d.
  destruct (format_id_fields_adds_identifiers R d)
    as (Hother & _ & _ & Hnested & _).
  split.
  - change "organization_id" with ("organization" +:+ "_id").
    rewrite (Hnested "organization"
               {[ "id" := VInt 7;
                  "resource_uri" := VStr "/organizations/7/" ]});
      vm_compute; reflexivity.
  - rewrite (Hother "title") by (vm_compute; reflexivity).
    vm_compute. reflexivity.
Defined.

(** The companion entries of a dehydrated job: the identifier of the
    organization it points to, and [None] for the one that points to
    none. *)
Example job_identifier_entries :
  let R := Sample.job_resource None in
  Generic._format_id_fields R
    {[ "organization" :=
         VBundle {[ "id" := VInt 7; "resource_uri" := VStr "/organizations/7/" ]};
       "title" := VStr "Plumber" ]} !! "organization_id" = Some (VInt 7) ∧
  Generic._format_id_fields R
    {[ "organization" := VNone; "title" := VStr "Plumber" ]}
    !! "organization_id" = Some VNone.
Proof. split; vm_compute; reflexivity. Qed.

(** ** Sorting by the requested keys *)
Section SortingKeys.
Context {Obj User World : Type}.
Variable R : @Generic.Resource Obj.

Abbreviation State := (@Generic.Self Obj User World).
Abbreviation sort := (Generic.apply_sorting (User:=User) (World:=World) R).
Abbreviation add_ordering :=
  (Generic.add_ordering (User:=User) (World:=World) R).
Abbreviation add_orderings :=
  (Generic.add_orderings (User:=User) (World:=World) R).

Lemma startswith_minus (x : string) : Py.startswith ("-" +:+ x) "-" = true.
Proof.
  unfold Py.startswith. apply bool_decide_eq_true.
  exists (Py.chars x). reflexivity.
Qed.

Abbreviation unquoted := Generic.unquoted.
Abbreviation keeps_direction := Generic.keeps_direction.
Abbreviation refusal := (Generic.sorting_refusal (Obj:=Obj) (User:=User) (World:=World)).

Lemma add_ordering_run (qs : Generic.QuerySet) (final : list string)
    (select : gmap string string) (o : string) (s : State) :
  match add_ordering qs (final, select) (VStr o) s with
  | (Return (final', select'), s') =>
      s' = s ∧
      (∃ key, final' = final ++ [key] ∧ keeps_direction (VStr o) key) ∧
      (∀ k, is_Some (select !! k) → is_Some (select' !! k))
  | (Raise e, s') => refusal o e s s'
  end.
Proof.
  unfold Generic.add_ordering. fold (unquoted o).
  assert (Hdir : ∀ x y,
    (if Py.startswith (unquoted o) "-"
     then (Py.drop_prefix 1 (unquoted o), "-")
     else (unquoted o, EmptyString)) = (x, y) →
    ∀ rest, keeps_direction (VStr o) (y +:+ rest)).
  { intros x y Hxy rest o' [= <-] Hminus. rewrite Hminus in Hxy.
    injection Hxy as _ <-. apply startswith_minus. }
  destruct (if Py.startswith (unquoted o) "-" then _ else _)
    as [positive prefix] eqn:Hprefix.
  specialize (Hdir _ _ eq_refl).
  destruct (if Py.endswith positive "_id" then _ else _)
    as [name suffix] eqn:Hsuffix.
  run.
  destruct (Generic.attribute_is_missing _ _); run.
  { exists (Generic.no_attribute_message o). split; [left|]; done. }
  destruct (Generic.maps_to R !! name) as [target|]; run.
  - destruct (Generic.simple_mapping target); run.
    + split; [done|]. split; [eauto|done].
    + split; [done|]. split; [eauto|].
      intros k Hk.
      destruct (decide (name +:+ "_for_api_ordering" = k)) as [<-|Hne].
      * rewrite lookup_insert_eq. eauto.
      * rewrite lookup_insert_ne by exact Hne. exact Hk.
  - case_bool_decide; run.
    + split; [done|]. split; [eauto|done].
    + exists (Generic.cannot_order_message o). split; [right|]; done.
Qed.

Lemma add_orderings_cons (qs : Generic.QuerySet)
    (acc : list string * gmap string string) (v : value) (l : list value)
    (s : State) :
  add_orderings qs acc (v :: l) s
  = match add_ordering qs acc v s with
    | (Return acc', s') => add_orderings qs acc' l s'
    | (Raise e, s') => (Raise e, s')
    end.
Proof. reflexivity. Qed.

Lemma add_orderings_run (qs : Generic.QuerySet) (l : list value) :
  Forall (λ v, ∃ o, v = VStr o) l →
  ∀ (final : list string) (select : gmap string string) (s : State),
  match add_orderings qs (final, select) l s with
  | (Return (final', select'), s') =>
      s' = s ∧
      (∃ keys, final' = final ++ keys ∧ Forall2 keeps_direction l keys) ∧
      (∀ k, is_Some (select !! k) → is_Some (select' !! k))
  | (Raise e, s') => ∃ o, VStr o ∈ l ∧ refusal o e s s'
  end.
Proof.
  induction 1 as [|v l [o ->] _ IH]; intros final select s.
  { change (add_orderings qs (final, select) [] s)
      with (Return (final, select), s).
    split; [done|]. split; [|done].
    exists []. split; [by rewrite app_nil_r|constructor]. }
  rewrite add_orderings_cons.
  pose proof (add_ordering_run qs final select o s) as Hstep.
  destruct (add_ordering qs (final, select) (VStr o) s)
    as [[[final1 select1]|e] s1].
  - destruct Hstep as (-> & (key & -> & Hkey) & Hsel).
    specialize (IH (final ++ [key]) select1 s).
    destruct (add_orderings qs (final ++ [key], select1) l s)
      as [[[final2 select2]|e] s2].
    + destruct IH as (-> & (keys & -> & Hkeys) & Hsel2).
      split; [done|]. split.
      * exists (key :: keys). split; [by rewrite <- app_assoc|].
        constructor; assumption.
      * intros k Hk. apply Hsel2, Hsel, Hk.
    + destruct IH as (o' & Hin & Href). exists o'. split; [right|]; done.
  - exists o. split; [left|exact Hstep].
Qed.

(** X14: [apply_sorting] on a non-empty list of ordering strings. When
    it returns, the resource is as it was and the collection is ordered
    by exactly one key per ordering string, in the order of the request,
    a key being descending whenever its ordering string, once unquoted,
    begins with a minus sign; the computed columns the collection
    already had are still there. Otherwise one of the ordering strings
    has been refused, with a bad request that quotes it as it was given,
    saying either that the attribute does not exist on the resource or
    that it cannot be ordered on, and the bundle of the resource holds
    that message. *)
Theorem apply_sorting_orders_by_each_key (s : State)
    (obj_list : Generic.QuerySet) (l : list value) :
  Generic.data (Generic.bundle s) !! "order_by" = Some (VList l) →
  l ≠ [] →
  Forall (λ v, ∃ o, v = VStr o) l →
  match sort obj_list s with
  | (Return sorted, s') =>
      s' = s ∧
      Generic.model_fields sorted = Generic.model_fields obj_list ∧
      Forall2 keeps_direction l (Generic.ordering sorted) ∧
      (∀ k, is_Some (Generic.select obj_list !! k) →
            is_Some (Generic.select sorted !! k))
  | (Raise e, s') => ∃ o, VStr o ∈ l ∧ refusal o e s s'
  end.
Proof.
  intros Hl Hne Htexts. unfold Generic.apply_sorting. run. rewrite Hl.
  destruct l as [|v l]; [contradiction|].
  change (truthy (VList (v :: l))) with true. cbv iota beta.
  change (Generic.iterate (VList (v :: l))) with (Return (v :: l)).
  cbv iota beta.
  pose proof (add_orderings_run obj_list (v :: l) Htexts [] ∅ s) as Hrun.
  destruct (add_orderings obj_list ([], ∅) (v :: l) s)
    as [[[final select]|e] s1]; [|exact Hrun].
  destruct Hrun as (-> & (keys & -> & Hkeys) & _).
  split; [done|]. case_bool_decide; simpl.
  - split; [done|]. split; [exact Hkeys|done].
  - split; [done|]. split; [exact Hkeys|].
    intros k [t Hk]. exists (default t (select !! k)).
    rewrite lookup_union. rewrite Hk.
    destruct (select !! k); reflexivity.
Qed.
End SortingKeys.

Lemma apply_sorting_orders_by_each_key_witness :
  let R := Sample.job_resource None in
  let l := [VStr "-title"; VStr "'organization_id'"] in
  let s := Sample.self_on Sample.alice "GET" "list" None
             {[ "order_by" := VList l ]} false in
  let obj_list :=
    {| Generic.model_fields := ["id"; "title"; "organization"];
       Generic.select := ∅; Generic.ordering := [] |} in
  match Generic.apply_sorting R obj_list s with
  | (Return sorted, s') =>
      s' = s ∧
      Generic.model_fields sorted = Generic.model_fields obj_list ∧
      Forall2 Generic.keeps_direction l (Generic.ordering sorted) ∧
      (∀ k, is_Some (Generic.select obj_list !! k) →
            is_Some (Generic.select sorted !! k))
  | (Raise e, s') => ∃ o, VStr o ∈ l ∧ Generic.sorting_refusal o e s s'
  end.
Proof.
  intros R l s obj_list.
  apply (apply_sorting_orders_by_each_key R s obj_list l).
  - vm_compute. reflexivity.
  - discriminate.
  - repeat constructor; eauto.
Defined.

(** The ordering of that request, and the refusal of a key that the
    resource does not have. *)
Example sorted_jobs :
  let R := Sample.job_resource None in
  let obj_list :=
    {| Generic.model_fields := ["id"; "title"; "organization"];
       Generic.select := ∅; Generic.ordering := [] |} in
  (Generic.apply_sorting R obj_list
     (Sample.self_on Sample.alice "GET" "list" None
        {[ "order_by" := VList [VStr "-title"; VStr "'organization_id'"] ]}
        false)).1
  = Return (Generic.order_by ["-title"; "organization"] obj_list) ∧
  (Generic.apply_sorting R obj_list
     (Sample.self_on Sample.alice "GET" "list" None
        {[ "order_by" := VList [VStr "-salary"] ]} false)).1
  = Raise (refused HttpBadRequest
             "The attribute '-salary' does not exist on this resource.").
Proof. split; vm_compute; reflexivity. Qed.

(** ** Lookup, deletion and update: the remaining outcomes *)
Section Actions.
Context {Obj User World : Type}.
Variable has_view_perm : Obj → User → bool.
Variable is_hidden is_removed : Obj → bool.
Variable is_authenticated : User → bool.
Variable perform :
  string → Obj → @Generic.Request User → World → outcome (option Obj) * World.
Variable get_from_id : World → value → outcome (option Obj).
Variable full_hydrate :
  @Generic.Bundle Obj → World → outcome (@Generic.Bundle Obj) * World.
Variable R : @Generic.Resource Obj.

Abbreviation State := (@Generic.Self Obj User World).
Abbreviation lookup :=
  (Generic._lookup_obj has_view_perm is_hidden is_removed get_from_id R).
Abbreviation delete :=
  (Generic.obj_delete has_view_perm is_hidden is_removed is_authenticated
     perform get_from_id R).
Abbreviation update :=
  (Generic.obj_update is_authenticated perform full_hydrate).
Abbreviation authorized :=
  (Generic.is_authorized (World:=World) is_authenticated).

(** Writing needs an authenticated user. *)
Lemma is_authorized_to_write (r : @Generic.Request User) (o : Obj)
    (s : State) :
  Generic.REQUEST_METHOD r = "POST" ∨ Generic.REQUEST_METHOD r = "PUT" ∨
  Generic.REQUEST_METHOD r = "DELETE" →
  authorized r (Some o) s = (Return (is_authenticated (Generic.user r)), s).
Proof.
  unfold Generic.is_authorized. intros [-> | [-> | ->]]; reflexivity.
Qed.

(** The identifiers of the request leave the world alone, and so does a
    lookup, whatever its outcome. *)
Lemma get_resource_ids_world (num : option Z) (s : State) :
  Generic.world (Generic._get_resource_ids R num s).2 = Generic.world s.
Proof.
  unfold Generic._get_resource_ids. run.
  destruct (_ =? 1)%Z; run.
  { destruct (Generic.is_minus_one _); reflexivity. }
  destruct (_ =? 2)%Z; run; [|reflexivity].
  destruct (_ || _); reflexivity.
Qed.

Lemma lookup_obj_world (ids : list value) (s : State) :
  Generic.world (lookup ids s).2 = Generic.world s.
Proof.
  unfold Generic._lookup_obj. unfold mbind, M_bind at 1.
  assert (Hafter : ∀ ids' s1, Generic.world s1 = Generic.world s →
    Generic.world
      ((s0 ← Py.get;
        match Generic.lookup_decision has_view_perm is_hidden is_removed
                get_from_id ids' s0 with
        | Return (inl object) => mret object
        | Return (inr (response_message, response_class)) =>
            Py.modify (Generic.set_bundle Generic.empty_bundle);;
            Generic.raise_error response_message response_class
        | Raise Http404 =>
            Py.modify (Generic.set_bundle Generic.empty_bundle);;
            Generic.raise_error Generic.not_found_message HttpNotFound
        | Raise Http410 =>
            Py.modify (Generic.set_bundle Generic.empty_bundle);;
            Generic.raise_error Generic.already_removed_message HttpGone
        | Raise e => Py.raise e
        end) s1).2 = Generic.world s).
  { intros ids' s1 Hs1. run.
    destruct (Generic.lookup_decision _ _ _ _ _ _) as [[o|[m c]]|e]; run;
      try exact Hs1.
    destruct e; run; exact Hs1. }
  destruct ids as [|id rest].
  - pose proof (get_resource_ids_world None s) as Hw.
    destruct (Generic._get_resource_ids R None s) as [[ids'|e] s1];
      [|exact Hw].
    apply Hafter, Hw.
  - apply (Hafter (id :: rest) s). reflexivity.
Qed.

(** X15: [obj_delete] when the lookup refuses, and when the user may
    delete. A refused lookup is the outcome of [obj_delete], and nothing
    has been done to the world. When the lookup returns an object and the
    user of a DELETE request is authenticated, the action [remove] is
    performed on that object, once, and its result, or the exception it
    raises, is the outcome. *)
Theorem obj_delete_removes_for_authenticated_users (s : State) :
  (∀ e s1, lookup [] s = (Raise e, s1) →
     delete s = (Raise e, s1) ∧ Generic.world s1 = Generic.world s) ∧
  (∀ o s1, lookup [] s = (Return o, s1) →
     Generic.REQUEST_METHOD (Generic.request s) = "DELETE" →
     is_authenticated (Generic.user (Generic.request s)) = true →
     delete s
     = ((perform "remove" o (Generic.request s) (Generic.world s)).1,
        Generic.set_world
          (perform "remove" o (Generic.request s) (Generic.world s)).2 s)).
Proof.
  split.
  - intros e s1 Hlook. split.
    + unfold Generic.obj_delete. unfold mbind, M_bind. rewrite Hlook.
      reflexivity.
    + pose proof (lookup_obj_world [] s) as Hw. rewrite Hlook in Hw.
      exact Hw.
  - intros o s1 Hlook Hm Hauth.
    pose proof (lookup_obj_returns _ _ _ _ _ _ _ _ _ Hlook) as ->.
    unfold Generic.obj_delete, Generic.do_if_authorized.
    unfold mbind, M_bind. rewrite Hlook. unfold Py.get.
    rewrite is_authorized_to_write by (right; right; exact Hm).
    rewrite Hauth. unfold Generic.call_action.
    destruct (perform "remove" o (Generic.request s) (Generic.world s)).
    reflexivity.
Qed.

(** X16: [obj_update] when the user of a PUT request is authenticated:
    after hydration the action [edit] is performed, once, on the object
    of the hydrated bundle. When it returns an object, that object is put
    on the bundle, which is stored on the resource and returned. When it
    returns nothing, the update is reported as unauthorized, although the
    edit has taken place: the world is the one the action left. *)
Theorem obj_update_edits_for_authenticated_users (s s1 : State)
    (bundle bundle1 : @Generic.Bundle Obj) (o1 : Obj)
    (r : option Obj) (w : World) :
  Generic.obj bundle ≠ None →
  Generic.call_full_hydrate full_hydrate bundle s = (Return bundle1, s1) →
  Generic.obj bundle1 = Some o1 →
  Generic.REQUEST_METHOD (Generic.request s) = "PUT" →
  is_authenticated (Generic.user (Generic.request s)) = true →
  perform "edit" o1 (Generic.request s1) (Generic.world s1) = (Return r, w) →
  match r with
  | Some o2 =>
      update bundle s
      = (Return (Generic.set_obj (Some o2) bundle1),
         Generic.set_bundle (Generic.set_obj (Some o2) bundle1)
           (Generic.set_world w s1))
  | None =>
      (update bundle s).1
      = Raise (refused HttpUnauthorized
                 Generic.not_authorized_to_edit_message) ∧
      Generic.world (update bundle s).2 = w
  end.
Proof.
  intros Hobj Hhyd Ho1 Hm Hauth Hedit.
  assert (Hreq : Generic.request s1 = Generic.request s).
  { unfold Generic.call_full_hydrate in Hhyd.
    destruct (full_hydrate bundle (Generic.world s)) as [res w'].
    injection Hhyd as _ <-. reflexivity. }
  unfold Generic.obj_update, Generic.do_if_authorized.
  destruct (Generic.obj bundle) as [o|]; [|contradiction].
  unfold mbind, M_bind. rewrite Hhyd. unfold Py.get. rewrite Ho1.
  rewrite is_authorized_to_write by (rewrite Hreq; right; left; exact Hm).
  rewrite Hreq, Hauth. unfold Generic.call_action.
  rewrite Hedit. destruct r as [o2|]; run; [reflexivity|].
  split; reflexivity.
Qed.

(** X17: the outcomes of [_lookup_obj] that the identifiers decide. A
    resource whose [num_resource_ids] is neither 1 nor 2 has no
    identifier to read, and a lookup on the identifiers of the request
    ends with an [IndexError]. With one identifier, a request that
    carries no [resource_id] is refused as a bad request before anything
    is looked up. In both cases, and whenever a lookup refuses, the world
    is as it was. *)
Theorem lookup_needs_identifiers (s : State) :
  (Generic.num_resource_ids R ≠ 1%Z → Generic.num_resource_ids R ≠ 2%Z →
     lookup [] s = (Raise IndexError, s)) ∧
  (Generic.num_resource_ids R = 1%Z →
   Generic.request_kwargs s !! "resource_id" = None →
     lookup [] s
     = (Raise (refused HttpBadRequest Generic.invalid_id_message),
        Generic.after_error Generic.invalid_id_message s)) ∧
  (∀ ids, Generic.world (lookup ids s).2 = Generic.world s).
Proof.
  splits.
  - intros H1 H2. unfold Generic._lookup_obj, Generic._get_resource_ids.
    apply Z.eqb_neq in H1, H2. run. rewrite H1, H2. reflexivity.
  - intros H1 Hid. unfold Generic._lookup_obj, Generic._get_resource_ids.
    run. rewrite H1, Hid. reflexivity.
  - intros ids. apply lookup_obj_world.
Qed.
End Actions.

Lemma obj_delete_removes_for_authenticated_users_witness :
  let s := Sample.self_on Sample.alice "DELETE" "detail" (Some 5%Z) ∅ false in
  Generic.obj_delete Sample.has_view_perm Sample.is_hidden Sample.is_removed
    Sample.authenticated Sample.perform Sample.get_from_id
    (Sample.job_resource None) s
  = (Return (Some (Sample.with_status Sample.removed Sample.job5)),
     Generic.set_world
       [Sample.job1; Sample.job2; Sample.job3; Sample.job4;
        Sample.with_status Sample.removed Sample.job5] s).
Proof.
  intros s.
  apply (proj2 (obj_delete_removes_for_authenticated_users
                  Sample.has_view_perm Sample.is_hidden Sample.is_removed
                  Sample.authenticated Sample.perform Sample.get_from_id
                  (Sample.job_resource None) s) Sample.job5 s);
    reflexivity.
Defined.

Lemma obj_update_edits_for_authenticated_users_witness :
  let s := Sample.self_on Sample.alice "PUT" "detail" (Some 1%Z) ∅ false in
  let b := {| Generic.obj := Some Sample.job1; Generic.data := ∅ |} in
  Generic.obj_update Sample.authenticated Sample.perform Sample.full_hydrate b s
  = (Return b, Generic.set_bundle b (Generic.set_world Sample.jobs s)).
Proof.
  intros s b.
  apply (obj_update_edits_for_authenticated_users Sample.authenticated
           Sample.perform Sample.full_hydrate s s b b Sample.job1
           (Some Sample.job1) Sample.jobs); try reflexivity.
  discriminate.
Defined.

Lemma lookup_needs_identifiers_witness :
  let s := Sample.self_on Sample.alice "GET" "detail" None ∅ false in
  Generic._lookup_obj Sample.has_view_perm Sample.is_hidden Sample.is_removed
    Sample.get_from_id (Sample.job_resource None) [] s
  = (Raise (refused HttpBadRequest Generic.invalid_id_message),
     Generic.after_error Generic.invalid_id_message s).
Proof.
  intros s.
  apply (lookup_needs_identifiers Sample.has_view_perm Sample.is_hidden
           Sample.is_removed Sample.get_from_id (Sample.job_resource None) s);
    reflexivity.
Defined.

(** ** Validation: what is left of the request data *)
Section ValidatedData.
Context {Obj User World : Type}.
Variable has_view_perm : Obj → User → bool.
Variable is_hidden is_removed : Obj → bool.
Variable get_from_id : World → value → outcome (option Obj).
Variable GET_LIMIT_MAX : Z.
Variable regex_field_clean : Fields.ListField → value → outcome string.
Variable R : @Generic.Resource Obj.

Abbreviation State := (@Generic.Self Obj User World).
Abbreviation validate :=
  (Generic.is_valid has_view_perm is_hidden is_removed get_from_id R).
Abbreviation lookup :=
  (Generic._lookup_obj has_view_perm is_hidden is_removed get_from_id R).

(** A form is valid when no field and no [clean] objected, and then its
    cleaned data are the cleaned values of its fields. *)
Lemma valid_list_form (data : gmap string value) (kw : option bool)
    (form : Forms.BaseForm) :
  Forms.full_clean
    (Forms.BaseModelResourceListForm GET_LIMIT_MAX regex_field_clean)
    (Forms.BaseForm_init data kw) = Return form →
  Forms.is_valid form = true →
  ∃ v1 v2, Forms.cleaned_data form
           = <["order_by" := v2]> (<["fields" := v1]> ∅).
Proof.
  unfold Forms.full_clean, Forms._clean_fields, Forms._clean_form,
    Forms.is_valid. simpl.
  destruct (Fields.ListField_clean _ _ (default VNone (data !! "fields")))
    as [v1|[]]; simpl; try discriminate;
  destruct (Fields.ListField_clean _ _ (default VNone (data !! "order_by")))
    as [v2|[]]; simpl; try discriminate;
  destruct (Forms.BaseModelResourceListForm_clean _ _) as [c|[]] eqn:Hc;
    simpl; try discriminate;
    intros [= <-]; simpl; intros Hvalid;
    try (apply bool_decide_eq_true in Hvalid;
         exfalso; revert Hvalid; apply insert_non_empty).
  unfold Forms.BaseModelResourceListForm_clean in Hc. simpl in Hc.
  destruct (Py.int _); [destruct (_ && _); [discriminate|]|];
    injection Hc as <-; eauto.
Qed.

Lemma valid_detail_form (data : gmap string value) (kw : option bool)
    (form : Forms.BaseForm) :
  Forms.full_clean (Forms.BaseModelResourceForm regex_field_clean)
    (Forms.BaseForm_init data kw) = Return form →
  Forms.is_valid form = true →
  ∃ v1, Forms.cleaned_data form = <["fields" := v1]> ∅.
Proof.
  unfold Forms.full_clean, Forms._clean_fields, Forms._clean_form,
    Forms.is_valid. simpl.
  destruct (Fields.ListField_clean _ _ (default VNone (data !! "fields")))
    as [v1|[]]; simpl; try discriminate;
    intros [= <-]; simpl; intros Hvalid; eauto;
    apply bool_decide_eq_true in Hvalid;
    exfalso; revert Hvalid; apply insert_non_empty.
Qed.

(** X18: a GET that passes validation keeps nothing of the request data
    but what the form declares. After [is_valid] has returned on a list
    request validated by the list form, the data of the bundle have
    exactly the two entries [fields] and [order_by]; on a detail request
    validated by the resource form, exactly the entry [fields]. Every
    other parameter of the request ([limit], [offset], any filter) is
    gone from the bundle; the resource itself is unchanged. *)
Theorem validated_get_keeps_declared_fields (s s' : State)
    (bundle bundle' : @Generic.Bundle Obj) :
  Generic.REQUEST_METHOD (Generic.request s) = "GET" →
  validate bundle s = (Return bundle', s') →
  s' = s ∧ Generic.obj bundle' = Generic.obj bundle ∧
  (Generic.request_type s = "list" →
   Generic.list_validation_form R
     = Some (Forms.BaseModelResourceListForm GET_LIMIT_MAX regex_field_clean) →
     ∀ k, is_Some (Generic.data bundle' !! k) ↔ k = "fields" ∨ k = "order_by") ∧
  (Generic.request_type s = "detail" →
   Generic.get_validation_form R
     = Some (Forms.BaseModelResourceForm regex_field_clean) →
     ∀ k, is_Some (Generic.data bundle' !! k) ↔ k = "fields").
Proof.
  intros Hm. unfold Generic.is_valid. run. rewrite Hm.
  replace (String.eqb (Generic.request_type s) "detail"
           && (String.eqb "GET" "PUT" || String.eqb "GET" "DELETE"))
    with false by (rewrite andb_false_r; reflexivity).
  run.
  destruct (Generic.choose_form R s) as [cls|] eqn:Hform; run.
  2:{ intros [= <- <-]. splits; try done.
      - intros Ht Hf. unfold Generic.choose_form in Hform.
        rewrite Ht, Hm, Hf in Hform. discriminate.
      - intros Ht Hf. unfold Generic.choose_form in Hform.
        rewrite Ht, Hm, Hf in Hform. discriminate. }
  destruct (Forms.full_clean cls _) as [form|e] eqn:Hclean; run;
    [|discriminate].
  destruct (Forms.is_valid form) eqn:Hvalid; run; [|discriminate].
  intros [= <- <-]. splits; try done.
  - intros Ht Hf. unfold Generic.choose_form in Hform.
    rewrite Ht, Hm, Hf in Hform. injection Hform as <-.
    destruct (valid_list_form _ _ _ Hclean Hvalid) as (v1 & v2 & Hdata).
    intros k. simpl. rewrite Hdata. split.
    + intros Hk.
      destruct (decide (k = "order_by")) as [->|H1]; [right; done|].
      rewrite lookup_insert_ne in Hk by congruence.
      destruct (decide (k = "fields")) as [->|H2]; [left; done|].
      rewrite lookup_insert_ne in Hk by congruence.
      rewrite lookup_empty in Hk. destruct Hk; discriminate.
    + intros [->| ->].
      * rewrite lookup_insert_ne by discriminate.
        rewrite lookup_insert_eq. eauto.
      * rewrite lookup_insert_eq. eauto.
  - intros Ht Hf. unfold Generic.choose_form in Hform.
    rewrite Ht, Hm, Hf in Hform. injection Hform as <-.
    destruct (valid_detail_form _ _ _ Hclean Hvalid) as (v1 & Hdata).
    intros k. simpl. rewrite Hdata. split.
    + intros Hk.
      destruct (decide (k = "fields")) as [->|H2]; [done|].
      rewrite lookup_insert_ne in Hk by congruence.
      rewrite lookup_empty in Hk. destruct Hk; discriminate.
    + intros ->. rewrite lookup_insert_eq. eauto.
Qed.

(** X19: no form validates a DELETE. On a detail request with one
    identifier, [is_valid] looks the object up: a refusal of the lookup
    is the outcome of the validation; otherwise the bundle comes back
    with the identifier of the request under [id] and with the object
    found, and nothing else is checked. *)
Theorem delete_is_validated_by_lookup_alone (s : State)
    (bundle : @Generic.Bundle Obj) (id : value) :
  Generic.request_type s = "detail" →
  Generic.REQUEST_METHOD (Generic.request s) = "DELETE" →
  Generic.num_resource_ids R = 1%Z →
  Generic.request_kwargs s !! "resource_id" = Some id →
  Generic.is_minus_one id = false →
  match lookup [] s with
  | (Return o, _) =>
      validate bundle s
      = (Return {| Generic.obj := Some o;
                   Generic.data := <["id" := id]> (Generic.data bundle) |}, s)
  | (Raise e, s') => validate bundle s = (Raise e, s')
  end.
Proof.
  intros Ht Hm Hnum Hid Hminus.
  assert (Hids : Generic._get_resource_ids R None s = (Return [id], s)).
  { unfold Generic._get_resource_ids. run. rewrite Hnum, Hid. simpl.
    rewrite Hminus. reflexivity. }
  destruct (lookup [] s) as [[o|e] s1] eqn:Hlook.
  - pose proof (lookup_obj_returns _ _ _ _ _ _ _ _ _ Hlook) as ->.
    unfold Generic.is_valid. unfold mbind at 1, M_bind at 1, Py.get at 1.
    rewrite Ht, Hm.
    change (String.eqb "detail" "detail"
            && (String.eqb "DELETE" "PUT" || String.eqb "DELETE" "DELETE"))
      with true. cbv iota.
    unfold mbind, M_bind. rewrite Hids, Hlook. unfold mret, M_ret, Py.get.
    assert (Hform : Generic.choose_form R s = None).
    { unfold Generic.choose_form. rewrite Ht, Hm. reflexivity. }
    rewrite Hform. reflexivity.
  - unfold Generic.is_valid. unfold mbind at 1, M_bind at 1, Py.get at 1.
    rewrite Ht, Hm.
    change (String.eqb "detail" "detail"
            && (String.eqb "DELETE" "PUT" || String.eqb "DELETE" "DELETE"))
      with true. cbv iota.
    unfold mbind, M_bind. rewrite Hids, Hlook. reflexivity.
Qed.
End ValidatedData.

Lemma validated_get_keeps_declared_fields_witness :
  let s := Sample.self_on Sample.alice "GET" "list" None
             {[ "limit" := VStr "20"; "status" := VStr "live";
                "order_by" := VStr "['-id']" ]} false in
  ∃ bundle',
    Generic.is_valid Sample.has_view_perm Sample.is_hidden Sample.is_removed
      Sample.get_from_id (Sample.job_resource (Some Sample.list_form))
      (Generic.bundle s) s = (Return bundle', s) ∧
    Generic.data bundle' !! "order_by" = Some (VList [VStr "'-id'"]) ∧
    ¬ is_Some (Generic.data bundle' !! "status") ∧
    ¬ is_Some (Generic.data bundle' !! "limit").
Proof.
  intros s. eexists. split; [vm_compute; reflexivity|].
  split; [vm_compute; reflexivity|].
  destruct (validated_get_keeps_declared_fields Sample.has_view_perm
              Sample.is_hidden Sample.is_removed Sample.get_from_id
              Sample.GET_LIMIT_MAX Sample.accept_all
              (Sample.job_resource (Some Sample.list_form)) s s
              (Generic.bundle s) _ eq_refl ltac:(vm_compute; reflexivity))
    as (_ & _ & Hlist & _).
  split; intros Hk; apply (Hlist eq_refl eq_refl) in Hk as [Hk|Hk];
    discriminate.
Defined.

Lemma delete_is_validated_by_lookup_alone_witness :
  let s := Sample.self_on Sample.alice "DELETE" "detail" (Some 5%Z) ∅ false in
  Generic.is_valid Sample.has_view_perm Sample.is_hidden Sample.is_removed
    Sample.get_from_id (Sample.job_resource None) (Generic.bundle s) s
  = (Return {| Generic.obj := Some Sample.job5;
               Generic.data := {[ "id" := VInt 5 ]} |}, s).
Proof.
  intros s.
  apply (delete_is_validated_by_lookup_alone Sample.has_view_perm
           Sample.is_hidden Sample.is_removed Sample.get_from_id
           (Sample.job_resource None) s (Generic.bundle s) (VInt 5));
    reflexivity.
Defined.

(** ** Full dehydration: the fields that are dehydrated *)
Section Coverage.
Context {Obj User World : Type}.
Variable getattr : Obj → string → option value.
Variable BASE_API_URL : string.
Variable clean_html : list string → list string → value → outcome value.
Variable field_dehydrate :
  string → Generic.field → @Generic.Bundle Obj → outcome value.
Variable R : @Generic.Resource Obj.

Abbreviation State := (@Generic.Self Obj User World).
Abbreviation Data := (@Generic.Bundle Obj).
Abbreviation full_dehydrate_all :=
  (Generic.full_dehydrate (User:=User) (World:=World) getattr BASE_API_URL
     clean_html field_dehydrate R).
Abbreviation fields_loop :=
  (Generic.dehydrate_fields (User:=User) (World:=World) getattr
     field_dehydrate R).
Abbreviation one_field :=
  (Generic.dehydrate_field (User:=User) (World:=World) R).
Abbreviation step :=
  (Generic.field_step (User:=User) (World:=World) getattr field_dehydrate R).

Lemma dehydrate_field_writes (name : string) (c : Generic.field_class)
    (run_field : Data → outcome value) (b b' : Data) (s s' : State) :
  one_field name c run_field b s = (Return b', s') →
  is_Some (Generic.data b' !! name).
Proof.
  unfold Generic.dehydrate_field. run.
  destruct (run_field b) as [v|e]; run; [|discriminate].
  destruct (Generic.dehydrate_method R _) as [m|]; run.
  - destruct (m _) as [v'|e]; run; [|discriminate].
    intros [= <- <-]. simpl. rewrite lookup_insert_eq. eauto.
  - intros [= <- <-]. simpl. rewrite lookup_insert_eq. eauto.
Qed.

Lemma ignored_same (s s1 : State) (n : string) :
  Generic.ignore_fields s1 = Generic.ignore_fields s →
  Generic.ignored s1 n = Generic.ignored s n.
Proof. unfold Generic.ignored. intros ->. reflexivity. Qed.

(** One turn of the loop: at most one dehydration, of a name that is not
    ignored; the field itself when it is not ignored. *)
Lemma field_step_run (n : string) (fo : Generic.field) (b b1 : Data)
    (s s1 : State) :
  step n fo b s = (Return b1, s1) →
  Generic.ignore_fields s1 = Generic.ignore_fields s ∧
  (∃ new, Generic.calls s1 = new ++ Generic.calls s ∧
     (∀ m c, (m, c) ∈ new → Generic.ignored s m = false) ∧
     (Generic.ignored s n = false →
        (n, Generic.cls fo) ∈ new ∧ is_Some (Generic.data b1 !! n))) ∧
  (∀ k, is_Some (Generic.data b !! k) → is_Some (Generic.data b1 !! k)).
Proof.
  unfold Generic.field_step.
  assert (Hone : ∀ name c run_field,
    Generic.ignored s name = false →
    one_field name c run_field b s = (Return b1, s1) →
    Generic.ignore_fields s1 = Generic.ignore_fields s ∧
    (∃ new, Generic.calls s1 = new ++ Generic.calls s ∧
       (∀ m c', (m, c') ∈ new → Generic.ignored s m = false) ∧
       ((name, c) ∈ new ∧ is_Some (Generic.data b1 !! name))) ∧
    (∀ k, is_Some (Generic.data b !! k) → is_Some (Generic.data b1 !! k))).
  { intros name c run_field Hname Hrun.
    pose proof (dehydrate_field_writes _ _ _ _ _ _ _ Hrun) as Hw.
    apply dehydrate_field_run in Hrun as (_ & Hi & _ & Hc & Hk & _).
    split; [exact Hi|]. split.
    - exists [(name, c)]. split; [exact Hc|]. split.
      + intros m c' Hin. apply list_elem_of_singleton in Hin.
        injection Hin as -> _. exact Hname.
      + split; [apply list_elem_of_singleton; reflexivity|exact Hw].
    - intros k Hsome. destruct (decide (k = name)) as [->|Hne];
        [exact Hw|]. rewrite Hk by exact Hne. exact Hsome. }
  destruct (Generic.ignored s n) eqn:Hn.
  - assert (Hnothing : (Return b, s) = (Return b1, s1) →
      Generic.ignore_fields s1 = Generic.ignore_fields s ∧
      (∃ new, Generic.calls s1 = new ++ Generic.calls s ∧
         (∀ m c, (m, c) ∈ new → Generic.ignored s m = false) ∧
         (true = false →
            (n, Generic.cls fo) ∈ new ∧ is_Some (Generic.data b1 !! n))) ∧
      (∀ k, is_Some (Generic.data b !! k) → is_Some (Generic.data b1 !! k))).
    { intros [= <- <-]. split; [done|]. split; [|done].
      exists []. split; [done|]. split; [|discriminate].
      intros m c Hin. inversion Hin. }
    case_bool_decide; [|exact Hnothing].
    destruct (Generic.ignored s (n +:+ "_id")) eqn:Hid; [exact Hnothing|].
    intros Hrun. apply Hone in Hrun as (Hi & (new & Hc & Hnew & _) & Hk);
      [|exact Hid].
    split; [exact Hi|]. split; [|exact Hk].
    exists new. split; [exact Hc|]. split; [exact Hnew|discriminate].
  - intros Hrun. apply Hone in Hrun as (Hi & (new & Hc & Hnew & Hin) & Hk);
      [|exact Hn].
    split; [exact Hi|]. split; [|exact Hk].
    exists new. split; [exact Hc|]. split; [exact Hnew|]. intros _. exact Hin.
Qed.

Lemma dehydrate_fields_cover (l : list (string * Generic.field)) :
  ∀ (b b' : Data) (s s' : State),
    fields_loop l b s = (Return b', s') →
    ∃ new, Generic.calls s' = new ++ Generic.calls s ∧
      (∀ m c, (m, c) ∈ new → Generic.ignored s m = false) ∧
      (∀ n fo, (n, fo) ∈ l → Generic.ignored s n = false →
         (n, Generic.cls fo) ∈ new ∧ is_Some (Generic.data b' !! n)) ∧
      (∀ k, is_Some (Generic.data b !! k) → is_Some (Generic.data b' !! k)).
Proof.
  induction l as [|[n fo] l IH]; intros b b' s s' Hrun.
  { injection Hrun as <- <-. exists []. split; [done|].
    split; [intros m c Hin; inversion Hin|].
    split; [intros n fo Hin; inversion Hin|done]. }
  rewrite dehydrate_fields_cons in Hrun.
  destruct (step n fo b s) as [[b1|e] s1] eqn:Hstep; [|discriminate].
  apply field_step_run in Hstep as (Hi & (new1 & Hc1 & Hnew1 & Hn) & Hk1).
  apply IH in Hrun as (new & Hc & Hnew & Hl & Hk).
  exists (new ++ new1). split; [rewrite Hc, Hc1; apply app_assoc|].
  split; [|split].
  - intros m c Hin. apply elem_of_app in Hin as [Hin|Hin].
    + rewrite <- (ignored_same s s1 m Hi). exact (Hnew m c Hin).
    + exact (Hnew1 m c Hin).
  - intros m fo' Hin Hm. apply elem_of_cons in Hin as [[= -> ->]|Hin].
    + destruct (Hn Hm) as [Hin1 Hsome]. split.
      * apply elem_of_app. right. exact Hin1.
      * apply Hk, Hsome.
    + destruct (Hl m fo' Hin) as [Hin' Hsome].
      { rewrite (ignored_same s s1 m Hi). exact Hm. }
      split; [apply elem_of_app; left; exact Hin'|exact Hsome].
  - intros k Hsome. apply Hk, Hk1, Hsome.
Qed.

Lemma format_uri_is_Some (base_url : string) (keys : list string) :
  ∀ (d d' : gmap string value) (k : string),
    Generic._format_uri d keys base_url = Return d' →
    is_Some (d !! k) → is_Some (d' !! k).
Proof.
  induction keys as [|key keys IH]; intros d d' k Hrun Hk.
  - injection Hrun as <-. exact Hk.
  - simpl in Hrun. destruct (Py.get_truthy d key); [|by apply (IH d)].
    destruct (d !! key) as [[| | |t| |]|] eqn:Hkey; try discriminate.
    apply (IH _ _ k Hrun).
    destruct (decide (key = k)) as [->|Hne].
    + rewrite lookup_insert_eq. eauto.
    + rewrite lookup_insert_ne by exact Hne. exact Hk.
Qed.

(** The three passes lose no entry and dehydrate nothing. *)
Lemma dehydrate_is_Some (b b' : Data) (s s' : State) :
  Generic.dehydrate BASE_API_URL clean_html R b s = (Return b', s') →
  Generic.calls s' = Generic.calls s ∧
  ∀ k, is_Some (Generic.data b !! k) → is_Some (Generic.data b' !! k).
Proof.
  intros Hrun. unfold Generic.dehydrate, Generic._format_api_uri in Hrun.
  run_in Hrun.
  destruct (Generic._format_uri _ _ _) as [d1|e] eqn:Huri; run_in Hrun;
    [|discriminate].
  destruct (Generic._escape_fields _ _ _ _) as [d3|e] eqn:Hesc; run_in Hrun;
    [|discriminate].
  injection Hrun as <- <-. simpl. split; [reflexivity|].
  intros k Hk.
  apply (format_uri_is_Some _ _ _ _ k Huri) in Hk.
  apply (id_loop_is_Some R (map_to_list d1).*1 d1 k) in Hk.
  fold (Generic._format_id_fields R d1) in Hk, Hesc.
  unfold Generic._escape_fields in Hesc.
  set (d2 := Generic._format_id_fields R d1) in *.
  assert (Hkeys : ∀ key, key ∈ (map_to_list d2).*1 → is_Some (d2 !! key)).
  { intros key. rewrite list_elem_of_fmap.
    intros ([k' v] & -> & Hin). apply elem_of_map_to_list in Hin. eauto. }
  pose proof (escape_loop_spec clean_html R ["info"] (map_to_list d2).*1
                (NoDup_fst_map_to_list d2) d2 Hkeys) as Hspec.
  rewrite Hesc in Hspec. destruct (Hspec k) as [Hin Hout].
  destruct (decide (k ∈ (map_to_list d2).*1)) as [Hyes|Hno].
  - destruct (Hin Hyes) as (v & v' & _ & _ & ->). eauto.
  - rewrite (Hout Hno). exact Hk.
Qed.

(** X20: full dehydration dehydrates every field of the resource that is
    not ignored, and nothing that is: each field whose name is not in
    [ignore_fields] is dehydrated and has an entry in the data returned,
    no name of [ignore_fields] is ever dehydrated, and the entries the
    bundle had before are still there. *)
Theorem full_dehydrate_covers_fields (s s' : State) (bundle bundle' : Data) :
  full_dehydrate_all bundle s = (Return bundle', s') →
  ∃ new, Generic.calls s' = new ++ Generic.calls s ∧
    (∀ n fo, (n, fo) ∈ Generic.fields R → Generic.ignored s n = false →
       (n, Generic.cls fo) ∈ new ∧ is_Some (Generic.data bundle' !! n)) ∧
    (∀ n c, (n, c) ∈ new → Generic.ignored s n = false) ∧
    (∀ k, is_Some (Generic.data bundle !! k) →
          is_Some (Generic.data bundle' !! k)).
Proof.
  unfold Generic.full_dehydrate. unfold mbind, M_bind.
  destruct (fields_loop (Generic.fields R) bundle s) as [[b1|e] s1] eqn:Hloop;
    [|discriminate].
  intros Hrun. apply dehydrate_is_Some in Hrun as [Hcalls Hkeep].
  apply dehydrate_fields_cover in Hloop as (new & Hc & Hnew & Hl & Hk).
  exists new. split; [rewrite Hcalls; exact Hc|]. split; [|split].
  - intros n fo Hin Hn. destruct (Hl n fo Hin Hn) as [Hin' Hsome].
    split; [exact Hin'|apply Hkeep, Hsome].
  - exact Hnew.
  - intros k Hsome. apply Hkeep, Hk, Hsome.
Qed.
End Coverage.

Lemma full_dehydrate_covers_fields_witness :
  let R := Sample.job_resource None in
  let s := Generic.set_ignore_fields (Some ["title"; "organization_id"])
             (Sample.self_on Sample.alice "GET" "detail" (Some 1%Z) ∅ false) in
  let b := {| Generic.obj := Some Sample.job1; Generic.data := ∅ |} in
  ∃ b' s',
    Generic.full_dehydrate Sample.getattr "https://api.example.com"
      Sample.clean_html Sample.field_dehydrate R b s = (Return b', s') ∧
    is_Some (Generic.data b' !! "organization") ∧
    ("organization", Generic.BaseForeignKey) ∈ Generic.calls s' ∧
    ∀ c, ("title", c) ∉ Generic.calls s'.
Proof.
  intros R s b.
  destruct (Generic.full_dehydrate Sample.getattr "https://api.example.com"
              Sample.clean_html Sample.field_dehydrate R b s)
    as [[b'|e] s'] eqn:Hrun; [|vm_compute in Hrun; discriminate].
  exists b', s'. split; [reflexivity|].
  destruct (full_dehydrate_covers_fields Sample.getattr
              "https://api.example.com" Sample.clean_html
              Sample.field_dehydrate R s s' b b' Hrun)
    as (new & Hcalls & Hfields & Hnew & _).
  simpl in Hcalls. rewrite app_nil_r in Hcalls. rewrite Hcalls.
  destruct (Hfields "organization" Sample.foreign_key) as [Hin Hsome].
  { apply list_elem_of_In. simpl. tauto. }
  { reflexivity. }
  split; [exact Hsome|]. split; [exact Hin|].
  intros c Hc. apply Hnew in Hc. vm_compute in Hc. discriminate.
Defined.

(** ** Creation *)
Section Creation.
Context {Obj User World : Type}.
Variable is_hidden : Obj → bool.
Variable is_authenticated : User → bool.
Variable perform :
  string → Obj → @Generic.Request User → World → outcome (option Obj) * World.
Variable full_hydrate :
  @Generic.Bundle Obj → World → outcome (@Generic.Bundle Obj) * World.
Variable is_live : Obj → bool.
Variable without_id : Obj → Obj.

Abbreviation State := (@Generic.Self Obj User World).
Abbreviation create :=
  (Generic.obj_create is_hidden is_authenticated perform full_hydrate
     is_live without_id).

(** X21: [obj_create], once the bundle is hydrated to an object, on
    which the identifier is cleared. An object that is neither live nor
    hidden is submitted in no way: the bundle comes back with it, and the
    world is the one hydration left. A live or hidden object of a POST
    request whose user is not authenticated is not submitted either, and
    no error is raised: the bundle comes back with no object at all.
    When the user is authenticated, a live object is submitted with the
    action [submit], a hidden one with [submit_hidden], and the bundle
    carries what the action returns. In each case the bundle returned is
    the one stored on the resource. *)
Theorem obj_create_submits_by_status (s s1 : State)
    (bundle bundle1 : @Generic.Bundle Obj) (o1 : Obj) :
  Generic.call_full_hydrate full_hydrate bundle s = (Return bundle1, s1) →
  Generic.obj bundle1 = Some o1 →
  Generic.REQUEST_METHOD (Generic.request s) = "POST" →
  let o := without_id o1 in
  let stored b := (Return b, Generic.set_bundle b s1) in
  (is_live o = false → is_hidden o = false →
     create bundle s = stored (Generic.set_obj (Some o) bundle1)) ∧
  (is_live o = true ∨ is_hidden o = true →
   is_authenticated (Generic.user (Generic.request s)) = false →
     create bundle s = stored (Generic.set_obj None bundle1)) ∧
  (∀ r w,
     is_live o = true ∨ is_hidden o = true →
     is_authenticated (Generic.user (Generic.request s)) = true →
     perform (if is_live o then "submit" else "submit_hidden") o
       (Generic.request s1) (Generic.world s1) = (Return r, w) →
     create bundle s
     = (Return (Generic.set_obj r bundle1),
        Generic.set_bundle (Generic.set_obj r bundle1)
          (Generic.set_world w s1))).
Proof.
  intros Hhyd Ho1 Hm o stored. subst o stored.
  assert (Hreq : Generic.request s1 = Generic.request s).
  { unfold Generic.call_full_hydrate in Hhyd.
    destruct (full_hydrate bundle (Generic.world s)) as [res w'].
    injection Hhyd as _ <-. reflexivity. }
  assert (Hauth : ∀ o,
    Generic.is_authorized is_authenticated (Generic.request s1) (Some o) s1
    = (Return (is_authenticated (Generic.user (Generic.request s))), s1)).
  { intros o. unfold Generic.is_authorized. rewrite Hreq, Hm. reflexivity. }
  splits.
  - intros Hlive Hhidden.
    unfold Generic.obj_create. unfold mbind at 1, M_bind at 1.
    rewrite Hhyd, Ho1, Hlive, Hhidden. reflexivity.
  - intros Hstatus Hanon.
    unfold Generic.obj_create. unfold mbind at 1, M_bind at 1.
    rewrite Hhyd, Ho1.
    destruct (is_live (without_id o1)) eqn:Hlive.
    + unfold Generic.do_if_authorized. run. rewrite Hauth, Hanon.
      reflexivity.
    + destruct Hstatus as [?|Hhidden]; [discriminate|]. rewrite Hhidden.
      unfold Generic.do_if_authorized. run. rewrite Hauth, Hanon.
      reflexivity.
  - intros r w Hstatus Huser Hact.
    unfold Generic.obj_create. unfold mbind at 1, M_bind at 1.
    rewrite Hhyd, Ho1.
    destruct (is_live (without_id o1)) eqn:Hlive.
    + unfold Generic.do_if_authorized. run. rewrite Hauth, Huser.
      unfold Generic.call_action. rewrite Hact. reflexivity.
    + destruct Hstatus as [?|Hhidden]; [discriminate|]. rewrite Hhidden.
      unfold Generic.do_if_authorized. run. rewrite Hauth, Huser.
      unfold Generic.call_action. rewrite Hact. reflexivity.
Qed.
End Creation.

Lemma obj_create_submits_by_status_witness :
  let s := Sample.self_on Sample.anonymous "POST" "list" None ∅ false in
  let b := {| Generic.obj := Some Sample.job1; Generic.data := ∅ |} in
  let b' := {| Generic.obj := @None Sample.job; Generic.data := ∅ |} in
  Generic.obj_create Sample.is_hidden Sample.authenticated Sample.perform
    Sample.full_hydrate Sample.is_live Sample.without_id b s
  = (Return b', Generic.set_bundle b' (Generic.set_world Sample.jobs s)).
Proof.
  intros s b b'.
  destruct (obj_create_submits_by_status Sample.is_hidden Sample.authenticated
              Sample.perform Sample.full_hydrate Sample.is_live
              Sample.without_id s (Generic.set_world Sample.jobs s) b b
              Sample.job1 eq_refl eq_refl eq_refl) as (_ & Hanonymous & _).
  apply Hanonymous; [left|]; reflexivity.
Defined.

(** ** The partial representation of a related resource *)
Section Partial.
Context {Obj User World : Type}.
Variable getattr : Obj → string → option value.
Variable BASE_API_URL : string.
Variable clean_html : list string → list string → value → outcome value.
Variable field_dehydrate :
  string → Generic.field → @Generic.Bundle Obj → outcome value.
Variable R : @Generic.Resource Obj.
Variable dehydrate_resource_uri : @Generic.Bundle Obj → outcome value.

Abbreviation State := (@Generic.Self Obj User World).
Abbreviation Data := (@Generic.Bundle Obj).
Abbreviation partial :=
  (Generic.partial_dehydrate (User:=User) (World:=World) getattr
     BASE_API_URL clean_html R dehydrate_resource_uri).
Abbreviation related :=
  (Generic._dehydrate_related (User:=User) (World:=World) getattr
     BASE_API_URL clean_html field_dehydrate R dehydrate_resource_uri).

(** A computation that returns went through each of its steps. *)
Lemma bind_inv {S A B : Type} (k : A → M S B) (m : M S A) (s s' : S) (r : B) :
  mbind k m s = (Return r, s') →
  ∃ a s1, m s = (Return a, s1) ∧ k a s1 = (Return r, s').
Proof.
  unfold mbind, M_bind. destruct (m s) as [[a|e] s1]; [eauto|discriminate].
Qed.

Lemma lift_inv {S A : Type} (o : outcome A) (s s1 : S) (a : A) :
  Py.lift o s = (Return a, s1) → o = Return a ∧ s1 = s.
Proof. unfold Py.lift. intros [= -> <-]. done. Qed.

(** What [_format_uri] returns, when it returns. *)
Lemma format_uri_returned (base_url : string) (keys : list string) :
  ∀ (d d' : gmap string value),
    Generic._format_uri d keys base_url = Return d' →
    NoDup keys →
    ∀ k, d' !! k = if bool_decide (k ∈ keys)
                   then Generic.prefixed base_url <$> d !! k else d !! k.
Proof.
  induction keys as [|key keys IH]; intros d d' Hrun Hnd k.
  { injection Hrun as <-. rewrite bool_decide_false; [reflexivity|].
    apply not_elem_of_nil. }
  apply NoDup_cons in Hnd as [Hkey Hnd]. simpl in Hrun.
  assert (Hin : bool_decide (k ∈ key :: keys)
                = if decide (k = key) then true else bool_decide (k ∈ keys)).
  { destruct (decide (k = key)) as [->|Hne].
    - apply bool_decide_true. left.
    - apply bool_decide_ext. rewrite elem_of_cons. tauto. }
  rewrite Hin. unfold Py.get_truthy in Hrun.
  destruct (d !! key) as [v|] eqn:Hv.
  - destruct (truthy v) eqn:Ht.
    + destruct v as [| | |t| |]; try discriminate.
      rewrite (IH _ _ Hrun Hnd k).
      destruct (decide (k = key)) as [->|Hne].
      * rewrite (bool_decide_false _ Hkey), lookup_insert_eq, Hv. simpl.
        simpl in Ht. rewrite Ht. reflexivity.
      * rewrite lookup_insert_ne by congruence. reflexivity.
    + rewrite (IH _ _ Hrun Hnd k).
      destruct (decide (k = key)) as [->|Hne]; [|reflexivity].
      rewrite (bool_decide_false _ Hkey), Hv. simpl.
      unfold Generic.prefixed. destruct v; try reflexivity.
      rewrite Ht. reflexivity.
  - rewrite (IH _ _ Hrun Hnd k).
    destruct (decide (k = key)) as [->|Hne]; [|reflexivity].
    rewrite (bool_decide_false _ Hkey), Hv. reflexivity.
Qed.

(** The three passes on two kinds of entries: a value that is no text,
    under a name that is neither [info] nor of the form [<name>_id],
    comes out as it went in; a non-empty text under a URI key comes out
    absolute, and escaped. *)
Lemma dehydrate_entries (b b' : Data) (s s' : State) :
  Generic.dehydrate BASE_API_URL clean_html R b s = (Return b', s') →
  NoDup (Generic.api_uri_keys s) →
  Generic.calls s' = Generic.calls s ∧ Generic.obj b' = Generic.obj b ∧
  (∀ k v, Generic.data b !! k = Some v → Generic.not_text (Some v) →
     Py.endswith k "_id" = false → k ≠ "info" →
     Generic.data b' !! k = Some v) ∧
  (∀ k t, Generic.data b !! k = Some (VStr t) → t ≠ EmptyString →
     Py.endswith k "_uri" = true → Py.endswith k "_id" = false →
     ∃ v', Generic.escaped clean_html R ["info"] k
             (VStr (BASE_API_URL +:+ "/" +:+ Py.lstrip t "/")) = Return v' ∧
           Generic.data b' !! k = Some v').
Proof.
  intros Hrun Hnd. unfold Generic.dehydrate, Generic._format_api_uri in Hrun.
  run_in Hrun.
  destruct (Generic._format_uri _ _ _) as [d1|e] eqn:Huri; run_in Hrun;
    [|discriminate].
  destruct (Generic._escape_fields _ _ _ _) as [d3|e] eqn:Hesc; run_in Hrun;
    [|discriminate].
  injection Hrun as <- <-. simpl. split; [reflexivity|].
  split; [reflexivity|].
  unfold Generic._escape_fields in Hesc.
  set (d2 := Generic._format_id_fields R d1) in *.
  assert (Hd2 : ∀ k, Py.endswith k "_id" = false → d2 !! k = d1 !! k).
  { intros k Hk. apply format_id_fields_keeps.
    intros key _ <-. rewrite endswith_append in Hk. discriminate. }
  assert (Hkeys : ∀ key, key ∈ (map_to_list d2).*1 ↔ is_Some (d2 !! key)).
  { intros key. rewrite list_elem_of_fmap. split.
    - intros ([k' v] & -> & Hin). apply elem_of_map_to_list in Hin. eauto.
    - intros [v Hv]. exists (key, v). split; [reflexivity|].
      apply elem_of_map_to_list. exact Hv. }
  pose proof (escape_loop_spec clean_html R ["info"] (map_to_list d2).*1
                (NoDup_fst_map_to_list d2) d2 (λ key, proj1 (Hkeys key)))
    as Hspec.
  rewrite Hesc in Hspec. split.
  - intros k v Hv Hnt Hid Hinfo.
    rewrite (escape_fields_keeps _ _ _ _ _ _ k Hesc).
    + rewrite Hd2 by exact Hid.
      rewrite (format_uri_keeps _ _ _ _ k Huri); rewrite Hv; done.
    + intros Hin. apply list_elem_of_singleton in Hin. contradiction.
    + rewrite Hd2 by exact Hid.
      rewrite (format_uri_keeps _ _ _ _ k Huri); rewrite Hv; done.
  - intros k t Hv Ht Hk Hid.
    assert (Hd1 : d1 !! k
                  = Some (VStr (BASE_API_URL +:+ "/" +:+ Py.lstrip t "/"))).
    { rewrite (format_uri_returned _ _ _ _ Huri
                 (NoDup_extended_keys _ _ Hnd) k).
      rewrite bool_decide_true.
      - rewrite Hv. simpl. apply String.eqb_neq in Ht. rewrite Ht.
        reflexivity.
      - rewrite elem_of_app, elem_of_new_uri_keys.
        destruct (decide (k ∈ Generic.api_uri_keys s)); [left; done|].
        right. eauto. }
    destruct (proj1 (Hspec k)) as (w & w' & Hw & Hescaped & Hd3).
    { apply Hkeys. rewrite Hd2 by exact Hid. eauto. }
    rewrite Hd2, Hd1 in Hw by exact Hid. injection Hw as <-. eauto.
Qed.

(** X22: the representation that a related resource contributes when it
    is not asked in full. When the related resource has no instance the
    result is [None], and the related resource is not touched. Otherwise
    the instance is put on a fresh bundle and partially dehydrated, with
    no field dehydration at all: the data returned hold, under [id], the
    integer that [dehydrate_id] returns, as it is, and, under
    [resource_uri], the URI of the instance made absolute with the base
    URL and then escaped. *)
Theorem related_resource_is_given_by_id_and_uri (s : State)
    (request : @Generic.Request User) (full : bool) :
  related request None full s = (Return None, s) ∧
  ∀ (o : Obj) (n : Z) (u : string) (b' : Data) (s' : State),
    Generic.dehydrate_id getattr R
      {| Generic.obj := Some o; Generic.data := ∅ |} = Return (VInt n) →
    dehydrate_resource_uri
      {| Generic.obj := Some o; Generic.data := {[ "id" := VInt n ]} |}
      = Return (VStr u) →
    u ≠ EmptyString →
    NoDup (Generic.api_uri_keys s) →
    related request (Some o) false s = (Return (Some b'), s') →
    Generic.obj b' = Some o ∧
    Generic.data b' !! "id" = Some (VInt n) ∧
    (∃ v', Generic.escaped clean_html R ["info"] "resource_uri"
             (VStr (BASE_API_URL +:+ "/" +:+ Py.lstrip u "/")) = Return v' ∧
           Generic.data b' !! "resource_uri" = Some v') ∧
    Generic.calls s' = Generic.calls s.
Proof.
  split; [reflexivity|].
  intros o n u b' s' Hid Huri Hu Hnd.
  unfold Generic._dehydrate_related. simpl negb. cbv iota.
  intros Hrun.
  apply bind_inv in Hrun as ([] & s0 & Hreq & Hrun).
  injection Hreq as <-.
  apply bind_inv in Hrun as (b1 & s1 & Hpartial & Hret).
  injection Hret as <- <-.
  unfold Generic.partial_dehydrate in Hpartial.
  apply bind_inv in Hpartial as (v & s2 & Hv & Hpartial).
  apply lift_inv in Hv as [Hv ->].
  rewrite Hid in Hv. injection Hv as <-.
  apply bind_inv in Hpartial as (v & s2 & Hv & Hpartial).
  apply lift_inv in Hv as [Hv ->].
  unfold Generic.set_data in Hv. cbn [Generic.obj Generic.data] in Hv.
  rewrite insert_empty, Huri in Hv. injection Hv as <-.
  apply bind_inv in Hpartial as (b2 & s2 & Hname & Hpartial).
  apply bind_inv in Hpartial as (b3 & s3 & Hshort & Hpartial).
  assert (Hentry : ∀ (key : string) (b : Data) (v : value),
    key ≠ "id" → key ≠ "resource_uri" →
    Generic.obj b = Some o ∧
    Generic.data b !! "id" = Some (VInt n) ∧
    Generic.data b !! "resource_uri" = Some (VStr u) →
    Generic.obj (Generic.set_data (<[key := v]> (Generic.data b)) b) = Some o ∧
    Generic.data (Generic.set_data (<[key := v]> (Generic.data b)) b) !! "id"
      = Some (VInt n) ∧
    Generic.data (Generic.set_data (<[key := v]> (Generic.data b)) b)
      !! "resource_uri" = Some (VStr u)).
  { intros key b v H1 H2 (Ho & Hi & Hr). simpl.
    rewrite !lookup_insert_ne by congruence. done. }
  assert (Hb2 : s2 = Generic.set_request request s ∧
                Generic.obj b2 = Some o ∧
                Generic.data b2 !! "id" = Some (VInt n) ∧
                Generic.data b2 !! "resource_uri" = Some (VStr u)).
  { revert Hname.
    destruct (Generic.dehydrate_method R "dehydrate_name") as [method|].
    - intros Hname. apply bind_inv in Hname as (v & s4 & Hv & Hname).
      apply lift_inv in Hv as [_ ->]. injection Hname as <- <-.
      split; [reflexivity|]. apply Hentry; try discriminate.
      simpl. rewrite lookup_insert_eq, lookup_insert_ne by discriminate.
      rewrite lookup_insert_eq. done.
    - intros Hname.
      match type of Hname with
      | (if ?c then _ else _) _ = _ => destruct c
      end.
      + apply bind_inv in Hname as (v & s4 & Hv & Hname).
        apply lift_inv in Hv as [_ ->]. injection Hname as <- <-.
        split; [reflexivity|]. apply Hentry; try discriminate.
        simpl. rewrite lookup_insert_eq, lookup_insert_ne by discriminate.
        rewrite lookup_insert_eq. done.
      + injection Hname as <- <-. simpl.
        rewrite lookup_insert_eq, lookup_insert_ne by discriminate.
        rewrite lookup_insert_eq. done. }
  destruct Hb2 as (-> & Hb2).
  assert (Hb3 : s3 = Generic.set_request request s ∧
                Generic.obj b3 = Some o ∧
                Generic.data b3 !! "id" = Some (VInt n) ∧
                Generic.data b3 !! "resource_uri" = Some (VStr u)).
  { match type of Hshort with
    | (if ?c then _ else _) _ = _ => destruct c
    end.
    - apply bind_inv in Hshort as (v & s4 & Hv & Hshort).
      apply lift_inv in Hv as [_ ->]. injection Hshort as <- <-.
      split; [reflexivity|]. apply Hentry; try discriminate. exact Hb2.
    - injection Hshort as <- <-. split; [reflexivity|exact Hb2]. }
  destruct Hb3 as (-> & Ho & Hi & Hr).
  apply dehydrate_entries in Hpartial as (Hcalls & Hobj & Hother & Htext);
    [|exact Hnd].
  split; [rewrite Hobj; exact Ho|]. split; [|split].
  - apply (Hother "id" (VInt n) Hi); [exact I|reflexivity|discriminate].
  - apply (Htext "resource_uri" u Hr Hu); reflexivity.
  - exact Hcalls.
Qed.
End Partial.

Lemma related_resource_is_given_by_id_and_uri_witness :
  let R := Sample.job_resource None in
  let s := Sample.self_on Sample.alice "GET" "detail" (Some 2%Z) ∅ false in
  ∃ b' s',
    Generic._dehydrate_related Sample.getattr "https://api.example.com"
      Sample.clean_html Sample.field_dehydrate R Sample.resource_uri
      (Generic.request s) (Some Sample.job1) false s = (Return (Some b'), s') ∧
    Generic.data b' !! "id" = Some (VInt 1) ∧
    Generic.data b' !! "resource_uri"
      = Some (VStr "https://api.example.com/jobs/1/") ∧
    Generic.calls s' = [].
Proof.
  intros R s.
  destruct (Generic._dehydrate_related Sample.getattr "https://api.example.com"
              Sample.clean_html Sample.field_dehydrate R Sample.resource_uri
              (Generic.request s) (Some Sample.job1) false s)
    as [[[b'|]|e] s'] eqn:Hrun; try (vm_compute in Hrun; discriminate).
  exists b', s'. split; [reflexivity|].
  destruct (proj2 (related_resource_is_given_by_id_and_uri Sample.getattr
                     "https://api.example.com" Sample.clean_html
                     Sample.field_dehydrate R Sample.resource_uri s
                     (Generic.request s) false)
              Sample.job1 1%Z "/jobs/1/" b' s')
    as (_ & Hid & (v' & Hv' & Huri) & Hcalls).
  - reflexivity.
  - reflexivity.
  - discriminate.
  - apply (bool_decide_unpack _). vm_compute. exact I.
  - exact Hrun.
  - split; [exact Hid|]. split; [|exact Hcalls].
    rewrite Huri. f_equal. vm_compute in Hv'. injection Hv' as <-.
    reflexivity.
Defined.

(** ** The fields a resource inherits *)
Section Inheritance.
Context {F : Type}.

Lemma inherit_loop_lookup (l : list (string * F)) :
  NoDup l.*1 →
  ∀ (own : gmap string F) (k : string),
    foldl (λ own p, match own !! p.1 with
                    | Some _ => own
                    | None => <[p.1 := p.2]> own
                    end) own l !! k
    = match own !! k with
      | Some f => Some f
      | None => (list_to_map l : gmap string F) !! k
      end.
Proof.
  induction l as [|[key f] l IH]; intros Hnd own k.
  { simpl. rewrite lookup_empty. destruct (own !! k); reflexivity. }
  apply NoDup_cons in Hnd as [Hkey Hnd]. simpl. rewrite (IH Hnd).
  destruct (decide (k = key)) as [->|Hne].
  - rewrite lookup_insert_eq.
    destruct (own !! key) as [g|] eqn:Hown.
    + rewrite Hown. reflexivity.
    + rewrite lookup_insert_eq. reflexivity.
  - rewrite (lookup_insert_ne (list_to_map l)) by congruence.
    destruct (own !! key) as [g|] eqn:Hown; [reflexivity|].
    rewrite lookup_insert_ne by congruence. reflexivity.
Qed.

Lemma inherit_from_lookup (own base_fields : gmap string F) (k : string) :
  Generic.inherit_from own base_fields !! k
  = match own !! k with
    | Some f => Some f
    | None => base_fields !! k
    end.
Proof.
  unfold Generic.inherit_from.
  rewrite inherit_loop_lookup by apply NoDup_fst_map_to_list.
  rewrite list_to_map_to_list. reflexivity.
Qed.

(** X23: after [BaseModelResource.__init__] has walked the classes of
    the resolution order, the field the class has under a name is the one
    of the first class, the class itself first, that has a field of that
    name: a field of the class is never replaced by a field of a parent,
    the nearest parent wins among parents, and a class without
    [base_fields] contributes nothing. No name is lost, and none appears
    that no class has. *)
Theorem inherited_field_is_the_nearest (own : gmap string F)
    (parent_classes : list (option (gmap string F))) (k : string) :
  Generic.inherit_base_fields own parent_classes !! k
  = Generic.first_field k (Some own :: parent_classes).
Proof.
  unfold Generic.inherit_base_fields. revert own.
  induction parent_classes as [|parent rest IH]; intros own.
  { simpl. destruct (own !! k); reflexivity. }
  simpl. rewrite IH. simpl. destruct parent as [base_fields|]; simpl.
  - rewrite inherit_from_lookup.
    destruct (own !! k); [reflexivity|].
    destruct (base_fields !! k); reflexivity.
  - destruct (own !! k); reflexivity.
Qed.
End Inheritance.

(** A job resource declares its own title, and inherits the identifier and
    the creation time from two parents that both have a title. *)
Lemma inherited_field_is_the_nearest_witness :
  let own : gmap string string := {[ "title" := "own" ]} in
  let parents : list (option (gmap string string)) :=
    [Some own; None;
     Some {[ "title" := "trackable"; "id" := "trackable" ]};
     Some {[ "id" := "base"; "time_created" := "base" ]}] in
  Generic.inherit_base_fields own parents !! "title" = Some "own" ∧
  Generic.inherit_base_fields own parents !! "id" = Some "trackable" ∧
  Generic.inherit_base_fields own parents !! "time_created" = Some "base" ∧
  Generic.inherit_base_fields own parents !! "name" = None.
Proof.
  intros own parents. rewrite !inherited_field_is_the_nearest.
  repeat split; vm_compute; reflexivity.
Defined.

(** ** The cross-domain middleware *)
Section Sharing.
Context {User Content : Type}.
Variable sharing : Middleware.Sharing.
Variable new_response : @Middleware.HttpResponse Content.

Abbreviation Request := (@Middleware.HttpRequest User).
Abbreviation Response := (@Middleware.HttpResponse Content).
Abbreviation process_request :=
  (Middleware.process_request (User:=User) sharing new_response).
Abbreviation process_response :=
  (Middleware.process_response (User:=User) (Content:=Content) sharing).
Abbreviation add_sharing_headers :=
  (Middleware.add_sharing_headers (Content:=Content) sharing).

Lemma has_header_set (response : Response) (header value other : string) :
  Middleware.has_header (Middleware.set_header header value response) other
  = bool_decide (Py.lower other = Py.lower header)
    || Middleware.has_header response other.
Proof.
  unfold Middleware.has_header, Middleware.set_header. simpl.
  destruct (decide (Py.lower other = Py.lower header)) as [->|Hne].
  - rewrite lookup_insert_eq.
    rewrite (bool_decide_true (is_Some (Some _))) by eauto.
    rewrite (bool_decide_true (_ = _)) by reflexivity. reflexivity.
  - rewrite lookup_insert_ne by congruence.
    rewrite (bool_decide_false _ Hne). reflexivity.
Qed.

Lemma has_origin_after_sharing (response : Response) :
  Middleware.has_header (add_sharing_headers response)
    "Access-Control-Allow-Origin" = true.
Proof.
  unfold Middleware.add_sharing_headers. rewrite !has_header_set.
  reflexivity.
Qed.

Lemma is_api_spec (request : Request) :
  Middleware.is_api request = true
  ↔ Middleware.subdomain request = Some "api".
Proof.
  unfold Middleware.is_api. destruct (Middleware.subdomain request) as [n|].
  - rewrite String.eqb_eq. split; congruence.
  - split; discriminate.
Qed.

Lemma is_not_api_spec (request : Request) :
  Middleware.is_api request = false
  ↔ Middleware.subdomain request ≠ Some "api".
Proof.
  rewrite <- is_api_spec. destruct (Middleware.is_api request);
    split; congruence.
Qed.

(** The headers of a response after the three assignments: the three
    names hold the constants, the lists joined by commas, and every other
    header and the content are as before. *)
Lemma sharing_headers (response : Response) :
  let shared := add_sharing_headers response in
  Middleware._headers shared !! "access-control-allow-origin"
  = Some ("Access-Control-Allow-Origin",
          Middleware.XS_SHARING_ALLOWED_ORIGINS sharing) ∧
  Middleware._headers shared !! "access-control-allow-methods"
  = Some ("Access-Control-Allow-Methods",
          Py.join "," (Middleware.XS_SHARING_ALLOWED_METHODS sharing)) ∧
  Middleware._headers shared !! "access-control-allow-headers"
  = Some ("Access-Control-Allow-Headers",
          Py.join "," (Middleware.XS_SHARING_ALLOWED_HEADERS sharing)) ∧
  (∀ k, k ≠ "access-control-allow-origin" →
        k ≠ "access-control-allow-methods" →
        k ≠ "access-control-allow-headers" →
     Middleware._headers shared !! k = Middleware._headers response !! k) ∧
  Middleware.content shared = Middleware.content response.
Proof.
  intros shared. subst shared.
  unfold Middleware.add_sharing_headers, Middleware.set_header.
  cbn [Middleware._headers Middleware.content].
  change (Py.lower "Access-Control-Allow-Origin")
    with "access-control-allow-origin".
  change (Py.lower "Access-Control-Allow-Methods")
    with "access-control-allow-methods".
  change (Py.lower "Access-Control-Allow-Headers")
    with "access-control-allow-headers".
  splits.
  - rewrite !lookup_insert_ne by discriminate. apply lookup_insert_eq.
  - rewrite lookup_insert_ne by discriminate. apply lookup_insert_eq.
  - apply lookup_insert_eq.
  - intros k H1 H2 H3. rewrite !lookup_insert_ne by congruence. reflexivity.
  - reflexivity.
Qed.

(** X24: [process_response] returns as it is a response that has an
    [Access-Control-Allow-Origin] header already, in whatever case that
    name is written, and a response to a request outside the [api]
    subdomain. To any other response it assigns the three sharing
    headers: the origins constant, and the methods and the headers
    constants joined by commas, each under its name; every other header
    and the content stay as they are. So every response of the [api]
    subdomain leaves with the origin header, and processing a response a
    second time changes nothing. *)
Theorem process_response_shares_once (request : Request)
    (response : Response) :
  (Middleware.has_header response "Access-Control-Allow-Origin" = true ∨
   Middleware.subdomain request ≠ Some "api" →
     process_response request response = response) ∧
  (Middleware.has_header response "Access-Control-Allow-Origin" = false →
   Middleware.subdomain request = Some "api" →
     Middleware._headers (process_response request response)
       !! "access-control-allow-origin"
     = Some ("Access-Control-Allow-Origin",
             Middleware.XS_SHARING_ALLOWED_ORIGINS sharing) ∧
     Middleware._headers (process_response request response)
       !! "access-control-allow-methods"
     = Some ("Access-Control-Allow-Methods",
             Py.join "," (Middleware.XS_SHARING_ALLOWED_METHODS sharing)) ∧
     Middleware._headers (process_response request response)
       !! "access-control-allow-headers"
     = Some ("Access-Control-Allow-Headers",
             Py.join "," (Middleware.XS_SHARING_ALLOWED_HEADERS sharing)) ∧
     (∀ k, k ≠ "access-control-allow-origin" →
           k ≠ "access-control-allow-methods" →
           k ≠ "access-control-allow-headers" →
        Middleware._headers (process_response request response) !! k
        = Middleware._headers response !! k) ∧
     Middleware.content (process_response request response)
     = Middleware.content response) ∧
  (Middleware.subdomain request = Some "api" →
     Middleware.has_header (process_response request response)
       "Access-Control-Allow-Origin" = true) ∧
  process_response request (process_response request response)
    = process_response request response.
Proof.
  unfold Middleware.process_response. splits.
  - intros [-> | Hapi]; [reflexivity|].
    apply is_not_api_spec in Hapi. rewrite Hapi.
    destruct (Middleware.has_header _ _); reflexivity.
  - intros Hh Hapi. apply is_api_spec in Hapi. rewrite Hh, Hapi.
    apply sharing_headers.
  - intros Hapi. apply is_api_spec in Hapi. rewrite Hapi.
    destruct (Middleware.has_header response _) eqn:Hh; [exact Hh|].
    apply has_origin_after_sharing.
  - destruct (Middleware.has_header response _) eqn:Hh.
    + rewrite Hh. reflexivity.
    + destruct (Middleware.is_api request) eqn:Hapi.
      * rewrite has_origin_after_sharing. reflexivity.
      * rewrite Hh. reflexivity.
Qed.

(** What the middleware does to a request that it lets through. *)
Lemma request_let_through (request request' : Request) :
  process_request request = (None, request') →
  if Middleware.is_api request
  then Middleware.user request' = None ∧
       Middleware.COOKIES request' = ∅ ∧
       Middleware.META request' = Middleware.META request ∧
       Middleware.subdomain request' = Middleware.subdomain request
  else request' = request.
Proof.
  unfold Middleware.process_request.
  destruct (Middleware.is_api request); simpl.
  - case_bool_decide; [discriminate|]. intros [= <-]. done.
  - intros [= <-]. reflexivity.
Qed.

(** X25: [process_request] answers at once exactly the requests of the
    [api] subdomain that announce a method
    ([HTTP_ACCESS_CONTROL_REQUEST_METHOD] in [META]): the answer is a
    fresh response with the three sharing headers assigned, which
    [process_response] will then leave alone, and the request is not
    touched. A request of the [api] subdomain that announces none is let
    through with its user set to [None] and no cookie left; a request of
    another subdomain, or of none, is let through as it is. *)
Theorem process_request_strips_api_sessions (request : Request) :
  (Middleware.subdomain request = Some "api" →
   is_Some (Middleware.META request !! "HTTP_ACCESS_CONTROL_REQUEST_METHOD") →
     ∃ response,
       process_request request = (Some response, request) ∧
       Middleware._headers response !! "access-control-allow-origin"
       = Some ("Access-Control-Allow-Origin",
               Middleware.XS_SHARING_ALLOWED_ORIGINS sharing) ∧
       Middleware._headers response !! "access-control-allow-methods"
       = Some ("Access-Control-Allow-Methods",
               Py.join "," (Middleware.XS_SHARING_ALLOWED_METHODS sharing)) ∧
       Middleware._headers response !! "access-control-allow-headers"
       = Some ("Access-Control-Allow-Headers",
               Py.join "," (Middleware.XS_SHARING_ALLOWED_HEADERS sharing)) ∧
       (∀ k, k ≠ "access-control-allow-origin" →
             k ≠ "access-control-allow-methods" →
             k ≠ "access-control-allow-headers" →
          Middleware._headers response !! k
          = Middleware._headers new_response !! k) ∧
       Middleware.content response = Middleware.content new_response ∧
       process_response request response = response) ∧
  (Middleware.subdomain request = Some "api" →
   Middleware.META request !! "HTTP_ACCESS_CONTROL_REQUEST_METHOD" = None →
     process_request request
     = (None, {| Middleware.subdomain := Middleware.subdomain request;
                 Middleware.META := Middleware.META request;
                 Middleware.user := None;
                 Middleware.COOKIES := ∅ |})) ∧
  (Middleware.subdomain request ≠ Some "api" →
     process_request request = (None, request)).
Proof.
  unfold Middleware.process_request. splits.
  - intros Hapi Hmeta. apply is_api_spec in Hapi. rewrite Hapi.
    rewrite (bool_decide_true _ Hmeta). simpl.
    exists (add_sharing_headers new_response).
    split; [reflexivity|].
    destruct (sharing_headers new_response) as (H1 & H2 & H3 & H4 & H5).
    splits; try assumption.
    unfold Middleware.process_response.
    rewrite has_origin_after_sharing. reflexivity.
  - intros Hapi Hmeta. apply is_api_spec in Hapi. rewrite Hapi.
    rewrite bool_decide_false; [reflexivity|].
    rewrite Hmeta. intros [? ?]. discriminate.
  - intros Hapi. apply is_not_api_spec in Hapi. rewrite Hapi. reflexivity.
Qed.
End Sharing.

(** ** Authentication behind the middleware *)
Section TokenAuthentication.
Context {Obj User World Scope Content : Type}.
Variable is_authenticated : User → bool.
Variable get_acceptable_scopes : outcome (list Scope).
Variable AnonymousUser : User.
Variable sharing : Middleware.Sharing.
Variable new_response : @Middleware.HttpResponse Content.

Abbreviation State := (@Generic.Self Obj User World).
Abbreviation authenticate :=
  (Generic.resource_is_authenticated (Obj:=Obj) (World:=World)
     is_authenticated get_acceptable_scopes AnonymousUser).

(** X27: behind the middleware, a request of the [api] subdomain is
    authenticated by its access token alone. Whoever the user of the
    session was, and whether logged in or not, the request that the
    middleware lets through is given to the authenticator: its user
    becomes the owner of the token when the token validates; when it
    does not, a GET goes on as the anonymous user, and any other method
    is refused as unauthorized, with the message of the authenticator.
    The method is the one [dispatch] stored on the resource. Outside the
    [api] subdomain, a user who is logged in is kept, and no token is
    asked for. *)
Theorem api_requests_authenticate_by_token
    (request request' : @Middleware.HttpRequest User)
    (validate : list Scope → string + User) (scopes : list Scope)
    (s : State) :
  Middleware.process_request sharing new_response request
    = (None, request') →
  get_acceptable_scopes = Return scopes →
  (Middleware.is_api request = true →
     authenticate (Middleware.user request') validate s
     = match validate scopes with
       | inr owner => (Return (true, Some owner), s)
       | inl message =>
           if String.eqb (Generic.method s) "GET"
           then (Return (true, Some AnonymousUser), s)
           else (Raise (refused HttpUnauthorized message),
                 Generic.after_error message s)
       end) ∧
  (Middleware.is_api request = false →
   ∀ u, Middleware.user request = Some u → is_authenticated u = true →
     authenticate (Middleware.user request') validate s
     = (Return (true, Some u), s)).
Proof.
  intros Hlet Hscopes.
  pose proof (request_let_through sharing new_response request request'
                Hlet) as Hreq.
  split.
  - intros Hapi. rewrite Hapi in Hreq. destruct Hreq as (-> & _).
    unfold Generic.resource_is_authenticated. rewrite Hscopes. run.
    destruct (validate scopes) as [message|owner]; [|reflexivity].
    run. destruct (String.eqb _ _); reflexivity.
  - intros Hapi u Hu Hlogged. rewrite Hapi in Hreq. subst request'.
    unfold Generic.resource_is_authenticated. rewrite Hu, Hlogged.
    reflexivity.
Qed.
End TokenAuthentication.

Lemma api_requests_authenticate_by_token_witness :
  let request : @Middleware.HttpRequest Sample.account :=
    {| Middleware.subdomain := Some "api"; Middleware.META := ∅;
       Middleware.user := Some Sample.alice;
       Middleware.COOKIES := {[ "sessionid" := "f3a9" ]} |} in
  let fresh : @Middleware.HttpResponse string :=
    {| Middleware._headers := ∅; Middleware.content := EmptyString |} in
  let request' :=
    (Middleware.process_request Middleware.default_sharing fresh request).2 in
  let s := Sample.self_on Sample.alice "PUT" "detail" (Some 1%Z) ∅ false in
  Generic.resource_is_authenticated (Obj:=Sample.job) (World:=Sample.table)
    Sample.authenticated (Return [tt]) Sample.anonymous
    (Middleware.user request') (λ _, inl "The access token is missing.") s
  = (Raise (refused HttpUnauthorized "The access token is missing."),
     Generic.after_error "The access token is missing." s).
Proof.
  intros request fresh request' s.
  apply (proj1 (api_requests_authenticate_by_token (Obj:=Sample.job)
                  (World:=Sample.table) Sample.authenticated (Return [tt])
                  Sample.anonymous Middleware.default_sharing fresh
                  request request' (λ _, inl "The access token is missing.")
                  [tt] s eq_refl eq_refl)).
  reflexivity.
Defined.

(** A preflight request on the [api] subdomain, with the default
    constants. *)
Example preflight_response :
  let request : @Middleware.HttpRequest Sample.account :=
    {| Middleware.subdomain := Some "api";
       Middleware.META := {[ "HTTP_ACCESS_CONTROL_REQUEST_METHOD" := "PUT" ]};
       Middleware.user := None; Middleware.COOKIES := ∅ |} in
  let fresh : @Middleware.HttpResponse string :=
    {| Middleware._headers := ∅; Middleware.content := EmptyString |} in
  match (Middleware.process_request Middleware.default_sharing fresh request).1 with
  | Some response =>
      Middleware._headers response !! "access-control-allow-methods"
      = Some ("Access-Control-Allow-Methods", "POST,GET,OPTIONS,PUT,DELETE") ∧
      Middleware.has_header response "ACCESS-CONTROL-ALLOW-ORIGIN" = true
  | None => False
  end.
Proof. split; vm_compute; reflexivity. Qed.

(** ** Integers through a local call *)

Lemma digit_of_pretty_N_char (d : N) :
  (d < 10)%N → Py.digit_of (pretty_N_char d) = Some (Z.of_N d).
Proof.
  intros Hd.
  assert (d = 0 ∨ d = 1 ∨ d = 2 ∨ d = 3 ∨ d = 4 ∨ d = 5 ∨ d = 6 ∨ d = 7
          ∨ d = 8 ∨ d = 9)%N as H by lia.
  destruct_or!; subst d; reflexivity.
Qed.

Lemma digits_value_app (acc : Z) (a b : list ascii) :
  Py.digits_value acc (a ++ b)
  = match Py.digits_value acc a with
    | Some v => Py.digits_value v b
    | None => None
    end.
Proof.
  revert acc. induction a as [|c a IH]; intros acc; [reflexivity|].
  simpl. destruct (Py.digit_of c); [apply IH|reflexivity].
Qed.

Lemma digits_value_digits (acc v : Z) (l : list ascii) :
  Py.digits_value acc l = Some v → Forall (λ c, is_Some (Py.digit_of c)) l.
Proof.
  revert acc. induction l as [|c l IH]; intros acc H; [constructor|].
  simpl in H. destruct (Py.digit_of c) as [d|] eqn:Hc; [|discriminate].
  constructor; [eauto|]. eapply IH, H.
Qed.

(** The digits that [pretty] puts before a text denote the number. *)
Lemma pretty_N_go_digits (x : N) (s : string) :
  ∃ pre m,
    Py.chars (pretty_N_go x s) = pre ++ Py.chars s ∧
    ((0 < x)%N → pre ≠ []) ∧
    ∀ acc, Py.digits_value acc pre = Some (acc * m + Z.of_N x)%Z.
Proof.
  revert s. induction (N.lt_wf_0 x) as [x _ IH]; intros s.
  destruct (decide (x = 0%N)) as [->|Hx].
  - exists [], 1%Z. rewrite pretty_N_go_0. splits.
    + reflexivity.
    + lia.
    + intros acc. simpl. f_equal. lia.
  - rewrite pretty_N_go_step by lia.
    destruct (IH (x `div` 10)%N
                (N.div_lt x 10 ltac:(lia) eq_refl)
                (String (pretty_N_char (x `mod` 10)) s))
      as (pre & m & Hpre & _ & Hval).
    exists (pre ++ [pretty_N_char (x `mod` 10)]), (m * 10)%Z. splits.
    + rewrite Hpre, <- app_assoc. reflexivity.
    + intros _. destruct pre; discriminate.
    + intros acc. rewrite digits_value_app, Hval. simpl.
      rewrite digit_of_pretty_N_char by (apply N.mod_lt; lia).
      f_equal. pose proof (N.div_mod x 10 ltac:(lia)). lia.
Qed.

(** The text of an integer: a minus sign when it is negative, then at
    least one digit, and the digits denote its absolute value. *)
Lemma pretty_Z_chars (n : Z) :
  ∃ sign digits,
    Py.chars (pretty n) = sign ++ digits ∧
    (sign = [] ∧ (0 ≤ n)%Z ∨ sign = ["-"%char] ∧ (n < 0)%Z) ∧
    digits ≠ [] ∧
    Py.digits_value 0 digits = Some (Z.abs n).
Proof.
  assert (Hpos : ∀ p : positive, ∃ digits,
    Py.chars (pretty p) = digits ∧ digits ≠ [] ∧
    Py.digits_value 0 digits = Some (Z.pos p)).
  { intros p. unfold pretty, pretty_positive, pretty, pretty_N.
    destruct (decide (N.pos p = 0%N)) as [|_]; [discriminate|].
    destruct (pretty_N_go_digits (N.pos p) EmptyString)
      as (pre & m & Hpre & Hne & Hval).
    exists pre. simpl in Hpre. rewrite app_nil_r in Hpre. splits.
    - exact Hpre.
    - apply Hne. lia.
    - rewrite Hval. f_equal. }
  destruct n as [|p|p].
  - exists [], ["0"%char]. splits; try reflexivity; [left; split; [reflexivity|lia]|discriminate].
  - destruct (Hpos p) as (digits & Hd & Hne & Hval).
    exists [], digits. splits; try assumption.
    left. split; [reflexivity|lia].
  - destruct (Hpos p) as (digits & Hd & Hne & Hval).
    exists ["-"%char], digits. splits; try assumption.
    + change (pretty (Z.neg p)) with ("-" +:+ pretty p).
      rewrite chars_append, Hd. reflexivity.
    + right. split; [reflexivity|lia].
Qed.

Lemma pretty_Z_numeric (n : Z) (c : ascii) :
  c ∈ Py.chars (pretty n) → is_Some (Py.digit_of c) ∨ c = "-"%char.
Proof.
  destruct (pretty_Z_chars n) as (sign & digits & -> & Hsign & _ & Hval).
  intros [Hc|Hc]%elem_of_app.
  - destruct Hsign as [[-> _]|[-> _]]; [inversion Hc|].
    apply list_elem_of_singleton in Hc. right. exact Hc.
  - left. apply digits_value_digits in Hval.
    rewrite Forall_forall in Hval. apply Hval, Hc.
Qed.

(** A digit or a minus sign is neither a blank, a comma nor a bracket. *)
Lemma numeric_is_plain (c : ascii) :
  is_Some (Py.digit_of c) ∨ c = "-"%char →
  Py.is_space c = false ∧ c ≠ ","%char ∧ c ≠ "["%char ∧ c ≠ "]"%char.
Proof.
  intros [[d Hd]| ->]; [|splits; [reflexivity|discriminate..]].
  destruct c as [[] [] [] [] [] [] [] []]; vm_compute in Hd;
    try discriminate Hd; splits; solve [reflexivity|discriminate].
Qed.

Lemma strip_no_blank (s : string) :
  Forall (λ c, Py.is_space c = false) (Py.chars s) → Py.strip s = s.
Proof.
  assert (Hkeep : ∀ l : list ascii,
    Forall (λ c, Py.is_space c = false) l →
    Py.drop_while Py.is_space l = l).
  { intros [|c l] H; [reflexivity|]. apply Forall_cons in H as [Hc _].
    apply drop_while_stops, Hc. }
  intros H. unfold Py.strip. rewrite (Hkeep _ H).
  rewrite Hkeep by (apply Forall_rev, H).
  rewrite rev_involutive. apply str_chars.
Qed.

(** [int] reads the text of an integer as that integer. *)
Lemma int_of_pretty (n : Z) : Py.int_of_string (pretty n) = Some n.
Proof.
  unfold Py.int_of_string. rewrite strip_no_blank.
  2:{ apply Forall_forall. intros c Hc.
      apply (numeric_is_plain c), (pretty_Z_numeric n c Hc). }
  destruct (pretty_Z_chars n) as (sign & digits & -> & Hsign & Hne & Hval).
  destruct Hsign as [[-> Hn]|[-> Hn]].
  - destruct digits as [|c l]; [contradiction|]. simpl app.
    pose proof (digits_value_digits _ _ _ Hval) as Hd.
    apply Forall_cons in Hd as [[d Hd] _].
    destruct (Ascii.eqb_spec c "-") as [->|_]; [discriminate Hd|].
    destruct (Ascii.eqb_spec c "+") as [->|_]; [discriminate Hd|].
    unfold Py.numeral. rewrite Hval. f_equal. lia.
  - simpl. unfold Py.numeral.
    destruct digits as [|c l]; [contradiction|]. rewrite Hval. simpl.
    f_equal. lia.
Qed.

Lemma last_elem_of {A} (l : list A) (d : A) : l ≠ [] → List.last l d ∈ l.
Proof.
  induction l as [|x l IH]; [contradiction|]. intros _.
  destruct l as [|y l]; [left|]. right. apply IH. discriminate.
Qed.

(** The texts of integers are pieces that [_string_to_list] reads back. *)
Lemma string_to_list_of_integers (ns : list Z) :
  ns ≠ [] →
  Fields._string_to_list (Utils.list_parameter (pretty <$> ns))
  = Some (pretty <$> ns).
Proof.
  intros Hns.
  assert (Hplain : ∀ x c, x ∈ pretty <$> ns → c ∈ Py.chars x →
    Py.is_space c = false ∧ c ≠ ","%char ∧ c ≠ "["%char ∧ c ≠ "]"%char).
  { intros x c (n & -> & _)%list_elem_of_fmap Hc.
    apply numeric_is_plain, (pretty_Z_numeric n c Hc). }
  apply string_to_list_of_list_parameter.
  - apply Forall_forall. intros x Hx. split.
    + intros Hc. apply (Hplain x _ Hx) in Hc as (_ & Hc & _). congruence.
    + apply strip_no_blank, Forall_forall. intros c Hc.
      apply (Hplain x c Hx Hc).
  - destruct ns as [|n ns]; [contradiction|]. simpl. intros Hempty.
    destruct (pretty_Z_chars n) as (sign & digits & Hc & _ & Hne & _).
    rewrite Hempty in Hc. destruct sign, digits; try discriminate.
    contradiction.
  - destruct ns as [|n ns]; [contradiction|]. simpl.
    apply bool_decide_eq_false. intros [k Hk].
    assert (Hin : "["%char ∈ Py.chars (pretty n)) by (rewrite Hk; left).
    apply (Hplain (pretty n)) in Hin as (_ & _ & Hin & _);
      [congruence|left].
  - apply bool_decide_eq_false. intros [k Hk].
    assert (Hx : List.last (pretty <$> ns) EmptyString ∈ pretty <$> ns).
    { apply last_elem_of. destruct ns; [contradiction|discriminate]. }
    assert (Hin : "]"%char ∈ Py.chars (List.last (pretty <$> ns) EmptyString)).
    { rewrite Hk. apply elem_of_app. right. left. }
    apply (Hplain _ _ Hx) in Hin as (_ & _ & _ & Hin). congruence.
Qed.

Section LocalCall.
Local Open Scope Z_scope.
Variable regex_field_clean : Fields.ListField → value → outcome string.

(** X28: a list of integers among the parameters of [access_resource]
    becomes a text that [IntegerListField.clean] reads as the same
    integers, the empty list included, when the pattern of the field lets
    the text through and [max_items] is [None], 0 or at least the length
    of the list. *)
Theorem integer_list_survives_local_call (self : Fields.IntegerListField)
    (params : gmap string Utils.param) (key : string) (ns : list Z) :
  params !! key = Some (Utils.PList (Utils.AInt <$> ns)) →
  Fields.max_items self = None ∨ Fields.max_items self = Some 0 ∨
  (∃ m, Fields.max_items self = Some m ∧ Z.of_nat (length ns) ≤ m) →
  ∃ text,
    Utils.stringify_params (Some params) !! key = Some (Utils.AStr text) ∧
    (regex_field_clean (Fields.list_field self) (VStr text) = Return text →
     Fields.IntegerListField_clean regex_field_clean self (VStr text)
     = Return (VList (VInt <$> ns))).
Proof.
  intros Hkey Hmax.
  exists (Utils.list_parameter (pretty <$> ns)). split.
  { unfold Utils.stringify_params. simpl. rewrite lookup_fmap, Hkey.
    simpl. rewrite <- list_fmap_compose. reflexivity. }
  intros Hregex.
  assert (Hlist : Fields._string_to_list (Utils.list_parameter (pretty <$> ns))
                  = Some (pretty <$> ns)).
  { destruct ns as [|n ns]; [reflexivity|].
    apply string_to_list_of_integers. discriminate. }
  assert (Hints : Fields.ints (VStr <$> (pretty <$> ns))
                  = Return (VInt <$> ns)).
  { apply ints_of_numerals. clear. induction ns as [|n ns IH].
    - constructor.
    - rewrite fmap_cons. constructor; [apply int_of_pretty|exact IH]. }
  unfold Fields.IntegerListField_clean, Fields.ListField_clean.
  rewrite Hregex, Hlist, Hints, !length_fmap.
  destruct Hmax as [->|[->|(m & -> & Hm)]]; try reflexivity.
  destruct (Z.ltb_spec m (Z.of_nat (length ns))); [lia|].
  rewrite andb_false_r. reflexivity.
Qed.
End LocalCall.

Lemma integer_list_survives_local_call_witness :
  ∃ text,
    Utils.stringify_params
      (Some {[ "job_ids" := Utils.PList [Utils.AInt 7; Utils.AInt 12; Utils.AInt 0] ]})
      !! "job_ids" = Some (Utils.AStr text) ∧
    (Sample.accept_all
       (Fields.list_field (Fields.IntegerListField_init (Some 3%Z) false None))
       (VStr text) = Return text →
     Fields.IntegerListField_clean Sample.accept_all
       (Fields.IntegerListField_init (Some 3%Z) false None) (VStr text)
     = Return (VList [VInt 7; VInt 12; VInt 0])).
Proof.
  apply (integer_list_survives_local_call Sample.accept_all
           (Fields.IntegerListField_init (Some 3%Z) false None)
           {[ "job_ids" := Utils.PList [Utils.AInt 7; Utils.AInt 12; Utils.AInt 0] ]}
           "job_ids" [7; 12; 0]%Z).
  - vm_compute. reflexivity.
  - right. right. exists 3%Z. split; [reflexivity|simpl; lia].
Defined.

(** The text made of the list [7, 12, 0] is let through by a pattern that
    accepts every text, and is read back. *)
Example local_call_identifiers :
  Utils.stringify_params
    (Some {[ "job_ids" := Utils.PList [Utils.AInt 7; Utils.AInt 12; Utils.AInt 0] ]})
  !! "job_ids" = Some (Utils.AStr "[7,12,0]") ∧
  Fields.IntegerListField_clean Sample.accept_all
    (Fields.IntegerListField_init (Some 3%Z) false None) (VStr "[7,12,0]")
  = Return (VList [VInt 7; VInt 12; VInt 0]).
Proof. split; vm_compute; reflexivity. Qed.
